(** * BlogSpotter: the blog analytics pipeline

    A shallow embedding of the analytics service (URL normaliser, relay
    fetcher, feed reader, content analyser, scoring engine, analysis
    orchestrator), of the classifier call and of the add / refresh handlers
    of [App.tsx], with the properties the specification states about them. *)

From Stdlib Require Import String Ascii DecimalString.
From Stdlib Require Import List ZArith NArith Bool Lia.
From Stdlib Require Import Reals Lra.
From Stdlib Require Floats.
Import ListNotations.

Set Implicit Arguments.

(** ** JavaScript strings

    A JavaScript string is a sequence of UTF-16 code units.  The string
    methods used by the service are written out on that representation. *)

Module JsString.

Definition codeunit := N.
Definition jsstring := list codeunit.

(** A literal of the source, as code units. *)
Definition js (s : string) : jsstring :=
  List.map N_of_ascii (list_ascii_of_string s).

Definition jsstring_eqb (a b : jsstring) : bool :=
  if list_eq_dec N.eq_dec a b then true else false.

(** ECMAScript WhiteSpace and LineTerminator code points: what
    [String.prototype.trim] removes and what [\s] matches. *)
Definition isWhiteSpace (c : codeunit) : bool :=
  (existsb (N.eqb c)
     [9; 10; 11; 12; 13; 32; 160; 5760; 8232; 8233; 8239; 8287; 12288; 65279]
   || (N.leb 8192 c && N.leb c 8202))%N%bool.

Fixpoint dropWhile (p : codeunit -> bool) (s : jsstring) : jsstring :=
  match s with
  | [] => []
  | c :: r => if p c then dropWhile p r else s
  end.

Definition dropWhileEnd (p : codeunit -> bool) (s : jsstring) : jsstring :=
  rev (dropWhile p (rev s)).

(** [s.trim()] *)
Definition trim (s : jsstring) : jsstring :=
  dropWhileEnd isWhiteSpace (dropWhile isWhiteSpace s).

(** [s.startsWith(p)] *)
Definition startsWith (s p : jsstring) : bool :=
  jsstring_eqb (firstn (length p) s) p.

(** [s.endsWith(p)] *)
Definition endsWith (s p : jsstring) : bool :=
  jsstring_eqb (skipn (length s - length p) s) p.

(** [s.slice(0, -1)] *)
Definition slice_0_m1 (s : jsstring) : jsstring :=
  firstn (length s - 1) s.

(** [s.includes(p)] *)
Fixpoint includes (s p : jsstring) : bool :=
  startsWith s p ||
  match s with
  | [] => false
  | _ :: r => includes r p
  end.

(** [s.substring(0, n)] for a non-negative [n]. *)
Definition substring_0 (n : nat) (s : jsstring) : jsstring := firstn n s.

(** An integer inside a template literal: its decimal digits. *)
Definition numberToString (z : Z) : jsstring :=
  js (NilZero.string_of_int (Z.to_int z)).

(** JavaScript truthiness of a possibly absent string: [undefined] and the
    empty string are falsy. *)
Definition truthy (s : option jsstring) : bool :=
  match s with
  | Some (_ :: _) => true
  | _ => false
  end.

(** [a || b] on possibly absent strings. *)
Definition orElse (a b : option jsstring) : option jsstring :=
  if truthy a then a else b.

(** [a || "literal"] *)
Definition orDefault (a : option jsstring) (d : jsstring) : jsstring :=
  match a with
  | Some (c :: r) => c :: r
  | _ => d
  end.

Definition isDigit (c : codeunit) : bool := (N.leb 48 c && N.leb c 57)%N.

Definition digitValue (c : codeunit) : Z := Z.of_N c - 48.

Fixpoint readDigits (acc : Z) (s : jsstring) : Z :=
  match s with
  | c :: r => if isDigit c then readDigits (10 * acc + digitValue c) r else acc
  | [] => acc
  end.

Definition startsWithDigit (s : jsstring) : bool :=
  match s with
  | c :: _ => isDigit c
  | [] => false
  end.

(** [parseInt(s, 10)]: leading white space is skipped, one sign is accepted,
    the longest run of decimal digits is read; [None] is [NaN].  An absent
    argument is converted to the text [undefined], which has no digits. *)
Definition parseInt10 (s : option jsstring) : option Z :=
  match s with
  | None => None
  | Some s =>
      let s := dropWhile isWhiteSpace s in
      match s with
      | 45%N :: r => if startsWithDigit r then Some (- readDigits 0 r)%Z else None
      | 43%N :: r => if startsWithDigit r then Some (readDigits 0 r) else None
      | _ => if startsWithDigit s then Some (readDigits 0 s) else None
      end
  end.

End JsString.
Import JsString.

(** ** URL normaliser *)

Definition SLASH : codeunit := 47%N.

(** The loop [while (cleanUrl.endsWith('/')) cleanUrl = cleanUrl.slice(0, -1)].
    Every iteration shortens the string, so [length cleanUrl] iterations are
    enough (lemma [stripLoop_exits]). *)
Fixpoint stripLoop (fuel : nat) (cleanUrl : jsstring) : jsstring :=
  match fuel with
  | O => cleanUrl
  | S fuel' =>
      if endsWith cleanUrl (js "/")
      then stripLoop fuel' (slice_0_m1 cleanUrl)
      else cleanUrl
  end.

Definition normalizeUrl (url : jsstring) : jsstring :=
  let cleanUrl := trim url in
  let cleanUrl := stripLoop (length cleanUrl) cleanUrl in
  if negb (startsWith cleanUrl (js "http"))
  then js "https://" ++ cleanUrl
  else cleanUrl.

(** The normaliser as the specification words it: trim, remove every
    trailing slash, prefix the scheme when the result does not start with
    the token [http]. *)
Definition isSlash (c : codeunit) : bool := N.eqb c SLASH.

Definition stripTrailingSlashes (s : jsstring) : jsstring :=
  dropWhileEnd isSlash s.

Definition normalize_spec (x : jsstring) : jsstring :=
  let t := stripTrailingSlashes (trim x) in
  if startsWith t (js "http") then t else js "https://" ++ t.

(** ** JavaScript numbers

    A number is [NaN] or a finite value.  Finite values are real numbers:
    the rounding of IEEE-754 doubles and the infinities are not modelled.
    Every division of the modelled code is by a non-zero constant or is
    guarded by a test on its divisor.

    This reading carries the properties that do not depend on how an
    operation is rounded (ranges, signs, [NaN], which requests are issued).
    The value a score takes does depend on it: the consistency score is
    modelled a second time on IEEE-754 doubles, in [Double] below, and its
    value is stated there. *)

Module JsNumber.

Inductive number : Type :=
| NaN
| Fin (r : R).

Definition lift1 (f : R -> R) (a : number) : number :=
  match a with
  | Fin x => Fin (f x)
  | NaN => NaN
  end.

Definition lift2 (f : R -> R -> R) (a b : number) : number :=
  match a, b with
  | Fin x, Fin y => Fin (f x y)
  | _, _ => NaN
  end.

Definition nadd := lift2 Rplus.
Definition nsub := lift2 Rminus.
Definition nmul := lift2 Rmult.
Definition ndiv := lift2 Rdiv.

(** [a > b]; a comparison with [NaN] is false. *)
Definition gt (a b : number) : bool :=
  match a, b with
  | Fin x, Fin y => if Rlt_dec y x then true else false
  | _, _ => false
  end.

(** [a === b] *)
Definition strictEq (a b : number) : bool :=
  match a, b with
  | Fin x, Fin y => if Req_dec_T x y then true else false
  | _, _ => false
  end.

Definition ofZ (z : Z) : number := Fin (IZR z).
Definition ofNat (n : nat) : number := Fin (INR n).

(** An integer-valued number that may be [NaN] (a [parseInt] result). *)
Definition ofInt (z : option Z) : number :=
  match z with
  | Some z => ofZ z
  | None => NaN
  end.

Definition Math_abs := lift1 Rabs.

Definition Math_sqrt (a : number) : number :=
  match a with
  | Fin x => if Rlt_dec x 0 then NaN else Fin (sqrt x)
  | NaN => NaN
  end.

(** [Math.pow(a, n)] for a natural exponent. *)
Definition Math_pow (a : number) (n : nat) : number := lift1 (fun x => pow x n) a.

(** Nearest integer, ties towards positive infinity. *)
Definition round (x : R) : Z := Int_part (x + / 2).

Definition Math_round (a : number) : number :=
  match a with
  | Fin x => ofZ (round x)
  | NaN => NaN
  end.

Definition Math_min := lift2 Rmin.
Definition Math_max := lift2 Rmax.

(** [Math.log10]; at [0] JavaScript yields an infinity, which the model does
    not have: the one call of the code is guarded by [followersCount > 0]. *)
Definition Math_log10 (a : number) : number :=
  match a with
  | Fin x => if Rlt_dec 0 x then Fin (ln x / ln 10) else NaN
  | NaN => NaN
  end.

Declare Scope num_scope.
Delimit Scope num_scope with num.
Bind Scope num_scope with number.
Infix "+" := nadd : num_scope.
Infix "-" := nsub : num_scope.
Infix "*" := nmul : num_scope.
Infix "/" := ndiv : num_scope.

End JsNumber.
Import JsNumber.

(** ** Dates

    A [Date] holds a time value in milliseconds, or is invalid.  An ISO
    timestamp string ([toISOString], then [new Date] on it) is represented
    by the date it denotes. *)

Inductive Date : Type :=
| InvalidDate
| ValidDate (ms : Z).

Definition getTime (d : Date) : number :=
  match d with
  | ValidDate ms => ofZ ms
  | InvalidDate => NaN
  end.

(** ** Data model ([types.ts]) *)

Inductive BlogStatus : Type := Active | Inactive | Unreachable.

Record BlogPost : Type := {
  post_title : jsstring;
  post_link : jsstring;
  pubDate : option jsstring;
  guid : option jsstring;
  snippet : jsstring;
  wordCount : Z;
  imageCount : Z;
  commentCount : option Z;
  post_tags : list jsstring
}.

Record BlogStats : Type := {
  totalPosts : number;
  totalPages : number;
  totalComments : number;
  avgCommentsPerPost : number;
  avgWordsPerPost : number;
  avgWordsPerPage : number;
  avgImagesPerPost : number;
  avgDaysBetweenPosts : number;
  consistencyScore : number;
  followersCount : number;
  firstPostDate : Date;
  lastPostDate : Date
}.

Record BlogMetadata : Type := {
  id : jsstring;
  url : jsstring;
  feedUrl : jsstring;
  title : jsstring;
  description : jsstring;
  lastBuildDate : Date;
  category : jsstring;
  tags : list jsstring;
  status : BlogStatus;
  isFavorite : bool;
  sentimentScore : number;
  qualityScore : number;
  language : jsstring;
  addedAt : Date;
  lastCheckedAt : Date;
  posts : list BlogPost;
  stats : BlogStats
}.

Record ClassificationResult : Type := {
  cls_category : jsstring;
  cls_tags : list jsstring;
  cls_sentimentScore : number;
  cls_language : jsstring;
  cls_summary : jsstring
}.

(** [constants.ts] *)
Definition MAX_RECENT_POSTS : nat := 5.

(** ** Scoring engine *)

Definition MS_PER_DAY : number := Fin (1000 * 60 * 60 * 24).

Definition calculateConsistencyScore (now : Z) (dates : list Date) : number :=
  if (length dates <? 3)%nat then Fin 50 else
  let gaps :=
    List.map
      (fun i =>
         let diffTime :=
           Math_abs (getTime (nth i dates InvalidDate)
                     - getTime (nth (i + 1) dates InvalidDate)) in
         diffTime / MS_PER_DAY)%num
      (seq 0 (length dates - 1)) in
  if (length gaps =? 0)%nat then Fin 0 else
  let mean := (fold_left (fun a b => a + b) gaps (Fin 0) / ofNat (length gaps))%num in
  let variance :=
    (fold_left (fun a b => a + Math_pow (b - mean) 2) gaps (Fin 0)
     / ofNat (length gaps))%num in
  let stdDev := Math_sqrt variance in
  let cv := if strictEq mean (Fin 0) then Fin 0 else (stdDev / mean)%num in
  let score := (Fin 100 - cv * Fin 66)%num in
  let daysSinceLastPost :=
    ((ofZ now - getTime (nth 0 dates InvalidDate)) / MS_PER_DAY)%num in
  let score := if gt daysSinceLastPost (Fin 90) then (score - Fin 20)%num else score in
  let score := if gt daysSinceLastPost (Fin 365) then (score - Fin 40)%num else score in
  Math_max (Fin 0) (Math_min (Fin 100) (Math_round score)).

Definition calculateQualityScore (now : Z) (stats : BlogStats) : number :=
  let score := Fin 0 in
  (* 1. Content Depth (25%) *)
  let avgWordsScore :=
    Math_min (Fin 100) (avgWordsPerPost stats / Fin 800 * Fin 100)%num in
  let avgImgScore :=
    Math_min (Fin 100) (avgImagesPerPost stats / Fin 3 * Fin 100)%num in
  let score :=
    (score + (avgWordsScore * Fin (15 / 100) + avgImgScore * Fin (10 / 100)))%num in
  (* 2. Activity & Volume (25%) *)
  let totalPostScore :=
    Math_min (Fin 100) (totalPosts stats / Fin 100 * Fin 100)%num in
  let consistency := consistencyScore stats in
  let score :=
    (score + (totalPostScore * Fin (10 / 100) + consistency * Fin (15 / 100)))%num in
  (* 3. Engagement (30%) *)
  let commentScore := Math_min (Fin 100) (avgCommentsPerPost stats * Fin 10)%num in
  let followerScore :=
    if gt (followersCount stats) (Fin 0)
    then Math_min (Fin 100) (Math_log10 (followersCount stats) * Fin 25)%num
    else Fin 0 in
  let score :=
    if strictEq (followersCount stats) (Fin 0)
    then (score + commentScore * Fin (30 / 100))%num
    else (score + (commentScore * Fin (20 / 100) + followerScore * Fin (10 / 100)))%num in
  (* 4. Longevity & Structure (20%) *)
  let first := firstPostDate stats in
  let yearsActive :=
    ((ofZ now - getTime first) / Fin (1000 * 60 * 60 * 24 * 365))%num in
  let longevityScore := Math_min (Fin 100) (yearsActive * Fin 20)%num in
  let pagesScore := Math_min (Fin 100) (totalPages stats * Fin 20)%num in
  let score :=
    (score + (longevityScore * Fin (10 / 100) + pagesScore * Fin (10 / 100)))%num in
  Math_round score.

(** ** JavaScript numbers as IEEE-754 doubles

    The numbers of the scoring code as the engine computes them: binary64
    values, every operation rounded to nearest, ties to even, with the
    infinities, the signed zeros and [NaN].  They are the primitive floats
    of the kernel. *)

Module Double.
Import Floats.
Local Open Scope float_scope.

(** The double nearest to an integer; exact below [2^53] in magnitude, which
    covers every time value of a [Date] (at most 8.64e15 ms) and every
    length. *)
Definition ofZ (z : Z) : float := SF2Prim (binary_normalize prec emax z 0 false).
Definition ofNat (n : nat) : float := ofZ (Z.of_nat n).

Definition getTime (d : Date) : float :=
  match d with
  | ValidDate ms => ofZ ms
  | InvalidDate => nan
  end.

Definition Math_abs : float -> float := abs.
Definition Math_sqrt : float -> float := sqrt.

(** [Math.pow(a, 2)]: the square, correctly rounded.  ECMAScript leaves the
    precision of [Math.pow] to the engine; the engines compute the exponent
    2 as the product. *)
Definition Math_pow_2 (a : float) : float := a * a.

(** [a > b] and [a === b]; a comparison with [NaN] is false, and the two
    zeros are equal. *)
Definition gt (a b : float) : bool := b <? a.
Definition strictEq (a b : float) : bool := a =? b.

(** The integer [floor (m * 2^e + 1/2)], computed exactly. *)
Definition roundZ (negative : bool) (m : positive) (e : Z) : Z :=
  let v := if negative then Z.neg m else Z.pos m in
  if (0 <=? e)%Z then v * 2 ^ e
  else (2 * v + 2 ^ (- e)) / 2 ^ (- e + 1).

(** [Math.round]: the nearest integer, a tie towards positive infinity;
    [-0] for an argument in [-0.5, 0); an infinity, a zero or [NaN] is
    returned as it is. *)
Definition Math_round (x : float) : float :=
  match Prim2SF x with
  | S754_finite negative m e =>
      let z := roundZ negative m e in
      if (z =? 0)%Z then (if negative then neg_zero else zero) else ofZ z
  | _ => x
  end.

Definition isNegativeZero (x : float) : bool := (x =? 0) && get_sign x.

(** [Math.max] and [Math.min] of two numbers: [NaN] when one of them is, and
    [+0] above [-0]. *)
Definition Math_max (a b : float) : float :=
  if is_nan a || is_nan b then nan
  else if a <? b then b
  else if b <? a then a
  else if isNegativeZero a then b else a.

Definition Math_min (a b : float) : float :=
  if is_nan a || is_nan b then nan
  else if a <? b then a
  else if b <? a then b
  else if isNegativeZero a then a else b.

Definition MS_PER_DAY : float := 1000 * 60 * 60 * 24.

(** [calculateConsistencyScore] of [services/geminiService.ts], with the
    clock reading [now] of [new Date()]. *)
Definition calculateConsistencyScore (now : Z) (dates : list Date) : float :=
  if (length dates <? 3)%nat then 50 else
  let gaps :=
    List.map
      (fun i =>
         let diffTime :=
           Math_abs (getTime (nth i dates InvalidDate)
                     - getTime (nth (i + 1) dates InvalidDate)) in
         let diffDays := diffTime / MS_PER_DAY in
         diffDays)
      (seq 0 (length dates - 1)) in
  if (length gaps =? 0)%nat then 0 else
  let mean := fold_left (fun a b => a + b) gaps 0 / ofNat (length gaps) in
  let variance :=
    fold_left (fun a b => a + Math_pow_2 (b - mean)) gaps 0 / ofNat (length gaps) in
  let stdDev := Math_sqrt variance in
  let cv := if strictEq mean 0 then 0 else stdDev / mean in
  let score := 100 - cv * 66 in
  let daysSinceLastPost :=
    (ofZ now - getTime (nth 0 dates InvalidDate)) / MS_PER_DAY in
  let score := if gt daysSinceLastPost 90 then score - 20 else score in
  let score := if gt daysSinceLastPost 365 then score - 40 else score in
  Math_max 0 (Math_min 100 (Math_round score)).

End Double.

(** ** Feed payload

    The JSON envelope of a feed, after the optional chaining of the source:
    a field that is absent from the payload is [None]. *)

Record Link : Type := {
  rel : option jsstring;
  type : option jsstring;
  href : option jsstring;
  link_title : option jsstring
}.

Record Entry : Type := {
  entry_title : option jsstring;          (* entry.title?.$t *)
  entry_content : option jsstring;        (* entry.content?.$t *)
  entry_summary : option jsstring;        (* entry.summary?.$t *)
  entry_published : option jsstring;      (* entry.published?.$t *)
  entry_id : option jsstring;             (* entry.id?.$t *)
  entry_thr_total : option (option jsstring); (* entry.thr$total, and its $t *)
  entry_link : option (list Link);        (* entry.link *)
  entry_category : option (list jsstring) (* the terms of entry.category *)
}.

Record Feed : Type := {
  feed_title : option jsstring;           (* feed.title?.$t *)
  feed_subtitle : option jsstring;        (* feed.subtitle?.$t *)
  feed_totalResults : option jsstring;    (* feed.openSearch$totalResults?.$t *)
  feed_entry : option (list Entry)        (* feed.entry *)
}.

(** ** Errors, responses and the run-time environment *)

Record JsError : Type := {
  err_name : jsstring;
  err_message : jsstring
}.

(** [new Error(message)] *)
Definition newError (message : jsstring) : JsError :=
  {| err_name := js "Error"; err_message := message |}.

(** What [response.json()] followed by [data.feed] gives: a failure, no
    [feed] member, or the feed object. *)
Inductive JsonBody : Type :=
| JsonFails (jsonError : JsError)
| JsonNoFeed
| JsonFeed (feed : Feed).

Record Response : Type := {
  resp_status : Z;
  resp_text : jsstring;
  resp_json : JsonBody
}.

(** [response.ok]: the status is in the range 200-299. *)
Definition ok (response : Response) : bool :=
  (200 <=? resp_status response)%Z && (resp_status response <=? 299)%Z.

(** A call of [fetch] resolves with a response or rejects (network error,
    or the abort issued by the 20 second timer). *)
Inductive FetchOutcome : Type :=
| Resolved (response : Response)
| Rejected (e : JsError).

(** The patterns of [scrapeFollowers], in the order of the source. *)
Inductive FollowerPattern : Type :=
| PatFollowersWidget     (* /id="Followers1".*?<span class="item-count">(\d+)<\/span>/s *)
| PatFollowersCountDiv   (* /<div class="followers-count">(\d+)<\/div>/ *)
| PatTotalFollowers      (* /Total Followers\s*:\s*(\d+)/i *)
| PatNFollowers          (* /(\d+)\s*followers/i *)
| PatDataCount.          (* /data-count="(\d+)"/ *)

(** Everything the code obtains from outside: the clock, the network, the
    classifier, and the built-ins that are not written out here.  One run is
    taken at one clock reading. *)
Record Runtime : Type := {
  now : Z;                                          (* Date.now(), new Date() *)
  fetch : nat -> jsstring -> FetchOutcome;          (* the n-th call fetch(url) *)
  encodeURIComponent : jsstring -> jsstring;
  toLowerCase : jsstring -> jsstring;
  parseDate : option jsstring -> Date;              (* new Date(dateStr) *)
  sixMonthsBefore : Z -> Z;                         (* d.setMonth(d.getMonth() - 6) *)
  matchGroup1 : FollowerPattern -> jsstring -> option jsstring; (* html.match(p)[1] *)
  randomUUID : jsstring;                            (* crypto.randomUUID() *)
  API_KEY : option jsstring;                        (* process.env.API_KEY *)
  generateContent :                                 (* the parsed model reply *)
    jsstring -> jsstring -> list jsstring -> option ClassificationResult
}.

(** ** Effects: the log of fetched URLs, and exceptions *)

Definition Log := list jsstring.

Inductive Result (A : Type) : Type :=
| Ok (a : A)
| Throw (e : JsError).
Arguments Ok {A} a.
Arguments Throw {A} e.

Definition M (A : Type) : Type := Log -> Result A * Log.

Definition ret {A} (a : A) : M A := fun log => (Ok a, log).

Definition bind {A B} (m : M A) (k : A -> M B) : M B :=
  fun log =>
    match m log with
    | (Ok a, log') => k a log'
    | (Throw e, log') => (Throw e, log')
    end.

Definition throw {A} (e : JsError) : M A := fun log => (Throw e, log).

(** [try { m } catch (e) { h e }] *)
Definition tryCatch {A} (m : M A) (h : JsError -> M A) : M A :=
  fun log =>
    match m log with
    | (Ok a, log') => (Ok a, log')
    | (Throw e, log') => h e log'
    end.

Notation "x <- m ;; k" := (bind m (fun x => k))
  (at level 61, m at next level, right associativity).

(** [await fetch(url, { signal })] *)
Definition doFetch (rt : Runtime) (url : jsstring) : M FetchOutcome :=
  fun log => (Ok (fetch rt (length log) url), log ++ [url]).

(** ** Relay fetcher *)

Definition PROXIES : list jsstring :=
  [ js "https://corsproxy.io/?";
    js "https://api.allorigins.win/raw?url=";
    js "https://api.codetabs.com/v1/proxy?quest=";
    js "https://cors-anywhere.herokuapp.com/" ].

Definition ALL_PROXIES_FAILED : jsstring :=
  js "All proxies failed. Check your internet connection or try disabling ad-blockers.".

(** The [for (const proxyBase of PROXIES)] loop with its [lastError]. *)
Fixpoint proxyLoop (rt : Runtime) (encodedTarget : jsstring)
    (proxies : list jsstring) (lastError : option JsError) : M Response :=
  match proxies with
  | [] =>
      throw (match lastError with
             | Some e => e
             | None => newError ALL_PROXIES_FAILED
             end)
  | proxyBase :: rest =>
      let url := proxyBase ++ encodedTarget in
      outcome <- doFetch rt url ;;
      match outcome with
      | Resolved response =>
          if ok response then ret response
          else
            proxyLoop rt encodedTarget rest
              (Some (newError (js "Proxy returned status "
                               ++ numberToString (resp_status response))))
      | Rejected e => proxyLoop rt encodedTarget rest (Some e)
      end
  end.

Definition cacheBust (rt : Runtime) (targetUrl : jsstring) : jsstring :=
  if includes targetUrl (js "?")
  then targetUrl ++ js "&_t=" ++ numberToString (now rt)
  else targetUrl ++ js "?_t=" ++ numberToString (now rt).

Definition fetchWithProxyOver (proxies : list jsstring) (rt : Runtime)
    (targetUrl : jsstring) : M Response :=
  let urlWithCacheBust := cacheBust rt targetUrl in
  let encodedTarget := encodeURIComponent rt urlWithCacheBust in
  proxyLoop rt encodedTarget proxies None.

Definition fetchWithProxy : Runtime -> jsstring -> M Response :=
  fetchWithProxyOver PROXIES.

(** ** Feed reader *)

Inductive FeedType : Type := Posts | Pages.

Definition feedTypeName (t : FeedType) : jsstring :=
  match t with
  | Posts => js "posts"
  | Pages => js "pages"
  end.

Definition feedUrlOf (baseUrl : jsstring) (t : FeedType)
    (maxResults startIndex : Z) : jsstring :=
  baseUrl ++ js "/feeds/" ++ feedTypeName t
  ++ js "/default?alt=json&max-results=" ++ numberToString maxResults
  ++ js "&start-index=" ++ numberToString startIndex.

Definition RECEIVED_HTML : jsstring :=
  js "Received HTML instead of JSON. The blog might not support the Blogger API or is not a Blogspot blog.".

(** Returns [data.feed], which may be [undefined] ([None]).  The outer
    [catch] of the source logs and rethrows. *)
Definition fetchJsonFeed (rt : Runtime) (baseUrl : jsstring) (t : FeedType)
    (maxResults startIndex : Z) : M (option Feed) :=
  let feedUrl := feedUrlOf baseUrl t maxResults startIndex in
  response <- fetchWithProxy rt feedUrl ;;
  match resp_json response with
  | JsonFeed feed => ret (Some feed)
  | JsonNoFeed => ret None
  | JsonFails jsonError =>
      let text := resp_text response in
      if includes text (js "<!DOCTYPE html>") || includes text (js "<html")
      then throw (newError RECEIVED_HTML)
      else throw jsonError
  end.

Definition fetchHtml (rt : Runtime) (baseUrl : jsstring) : M jsstring :=
  tryCatch
    (response <- fetchWithProxy rt baseUrl ;; ret (resp_text response))
    (fun _ => ret []).

(** ** Content analyser *)

Definition LT : codeunit := 60%N.
Definition GT : codeunit := 62%N.
Definition SPACE : codeunit := 32%N.

(** [html.replace(/<[^>]*>/g, ' ')]: a [<] that is followed, somewhere, by a
    [>] is replaced, with everything up to the first such [>], by a space. *)
Fixpoint replaceTags (inTag : bool) (s : jsstring) : jsstring :=
  match s with
  | [] => []
  | c :: r =>
      if inTag then
        if N.eqb c GT then SPACE :: replaceTags false r else replaceTags true r
      else if N.eqb c LT && existsb (N.eqb GT) r then replaceTags true r
      else c :: replaceTags false r
  end.

(** [text.replace(/\s+/g, ' ')] *)
Fixpoint collapseWhiteSpace (afterSpace : bool) (s : jsstring) : jsstring :=
  match s with
  | [] => []
  | c :: r =>
      if isWhiteSpace c then
        if afterSpace then collapseWhiteSpace true r
        else SPACE :: collapseWhiteSpace true r
      else c :: collapseWhiteSpace false r
  end.

Definition countWords (html : jsstring) : Z :=
  match html with
  | [] => 0
  | _ =>
      let text := trim (collapseWhiteSpace false (replaceTags false html)) in
      match text with
      | [] => 0
      | _ => Z.of_nat (S (count_occ N.eq_dec text SPACE))  (* text.split(' ').length *)
      end
  end.

(** Case-insensitive comparison of a code unit with a lower-case ASCII letter
    ([/i] without [/u] never maps a non-ASCII code unit to an ASCII one). *)
Definition eqbIgnoreCase (lower c : codeunit) : bool :=
  N.eqb c lower || N.eqb (c + 32)%N lower.

Definition startsWithImg (s : jsstring) : bool :=
  match s with
  | a :: b :: c :: d :: _ =>
      N.eqb a LT && eqbIgnoreCase 105%N b && eqbIgnoreCase 109%N c
      && eqbIgnoreCase 103%N d
  | _ => false
  end.

(** [(html.match(/<img/gi) || []).length] *)
Fixpoint countImages (html : jsstring) : Z :=
  match html with
  | [] => 0
  | _ :: r => (if startsWithImg html then 1 else 0) + countImages r
  end.

(** [content.replace(/<[^>]*>?/gm, '')]: from a [<] up to the first [>], or
    to the end of the text when there is none. *)
Fixpoint removeTags (inTag : bool) (s : jsstring) : jsstring :=
  match s with
  | [] => []
  | c :: r =>
      if inTag then
        if N.eqb c GT then removeTags false r else removeTags true r
      else if N.eqb c LT then removeTags true r
      else c :: removeTags false r
  end.

Fixpoint takeWhile (p : codeunit -> bool) (s : jsstring) : jsstring :=
  match s with
  | c :: r => if p c then c :: takeWhile p r else []
  | [] => []
  end.

(** [title.match(/(\d+)/)]: the first run of digits. *)
Definition matchDigits (s : jsstring) : option jsstring :=
  match dropWhile (fun c => negb (isDigit c)) s with
  | [] => None
  | r => Some (takeWhile isDigit r)
  end.

Definition strEq (a : option jsstring) (b : jsstring) : bool :=
  match a with
  | Some a => jsstring_eqb a b
  | None => false
  end.

(** ** Follower scraping *)

Definition followerPatterns : list FollowerPattern :=
  [PatFollowersWidget; PatFollowersCountDiv; PatTotalFollowers; PatNFollowers; PatDataCount].

Fixpoint scrapeLoop (rt : Runtime) (patterns : list FollowerPattern)
    (html : jsstring) : option Z :=
  match patterns with
  | [] => Some 0%Z
  | pattern :: rest =>
      let m := matchGroup1 rt pattern html in
      if truthy m then parseInt10 m else scrapeLoop rt rest html
  end.

Definition scrapeFollowers (rt : Runtime) (html : jsstring) : option Z :=
  match html with
  | [] => Some 0%Z
  | _ => scrapeLoop rt followerPatterns html
  end.

(** ** Ordered sets of strings ([Set<string>], [Array.from]) *)

Definition Set_has (s : list jsstring) (t : jsstring) : bool :=
  existsb (jsstring_eqb t) s.

(** [s.add(t)]: a new value goes last, a present one changes nothing. *)
Definition Set_add (s : list jsstring) (t : jsstring) : list jsstring :=
  if Set_has s t then s else s ++ [t].

(** [Array.from(new Set(values))] *)
Definition Set_fromArray (values : list jsstring) : list jsstring :=
  fold_left Set_add values [].

(** ** Analysis orchestrator *)

(** The [Partial<BlogMetadata>] that [analyzeBlogAndFetch] returns: these
    eight members are always set. *)
Record Analysis : Type := {
  a_title : jsstring;
  a_description : jsstring;
  a_lastBuildDate : Date;
  a_posts : list BlogPost;
  a_status : BlogStatus;
  a_stats : BlogStats;
  a_qualityScore : number;
  a_tags : list jsstring
}.

Definition processEntry (entry : Entry) : BlogPost :=
  let content := orDefault (orElse (entry_content entry) (entry_summary entry)) [] in
  let wordCount := countWords content in
  let imageCount := countImages content in
  let commentCount :=
    match entry_thr_total entry with
    | Some t => parseInt10 t
    | None =>
        let replyLink :=
          match entry_link entry with
          | Some links =>
              find (fun l => strEq (rel l) (js "replies")
                             && strEq (type l) (js "text/html")) links
          | None => None
          end in
        match replyLink with
        | Some l =>
            match link_title l with
            | Some (c :: r) =>
                match matchDigits (c :: r) with
                | Some d => parseInt10 (Some d)
                | None => Some 0%Z
                end
            | _ => Some 0%Z
            end
        | None => Some 0%Z
        end
    end in
  let tags :=
    match entry_category entry with
    | Some terms => terms
    | None => []
    end in
  {| post_title := orDefault (entry_title entry) (js "No Title");
     post_link :=
       orDefault
         match entry_link entry with
         | Some links =>
             match find (fun l => strEq (rel l) (js "alternate")) links with
             | Some l => href l
             | None => None
             end
         | None => None
         end [];
     pubDate := entry_published entry;
     guid := entry_id entry;
     snippet := substring_0 150 (removeTags false content) ++ js "...";
     wordCount := wordCount;
     imageCount := imageCount;
     commentCount := commentCount;
     post_tags := tags |}.

(** [d.toISOString()] throws a [RangeError] on an invalid date. *)
Definition toISOString (d : Date) : M Date :=
  match d with
  | ValidDate ms => ret (ValidDate ms)
  | InvalidDate =>
      throw {| err_name := js "RangeError"; err_message := js "Invalid time value" |}
  end.

(** Sum of numbers that may be [NaN]. *)
Definition sumInts (l : list (option Z)) : option Z :=
  fold_left
    (fun sum c =>
       match sum, c with
       | Some a, Some b => Some (a + b)%Z
       | _, _ => None
       end) l (Some 0%Z).

Definition sumZ (l : list Z) : Z := fold_left Z.add l 0%Z.

(** [a > b] on integers that may be [NaN]. *)
Definition intGt (a b : option Z) : bool :=
  match a, b with
  | Some x, Some y => (y <? x)%Z
  | _, _ => false
  end.

Definition NO_FEED_DATA : jsstring :=
  js "No feed data returned. The URL might not be a valid Blogspot blog.".

Definition NETWORK_ERROR : jsstring :=
  js "Network Error: Could not connect to the blog. Please try: 1. Disabling ad-blockers (they block proxies). 2. Verifying the URL.".

(** [historyFeed.entry?.[0]?.published?.$t] *)
Definition oldestPublished (historyFeed : Feed) : option jsstring :=
  match feed_entry historyFeed with
  | Some (e :: _) => entry_published e
  | _ => None
  end.

(** The optional fetch of the oldest post, inside its [try]: reading
    [historyFeed.entry] of an absent feed throws a [TypeError]. *)
Definition fetchCreationDate (rt : Runtime) (cleanUrl : jsstring)
    (totalPosts : option Z) : M (option jsstring) :=
  if intGt totalPosts (Some 0%Z) then
    match totalPosts with
    | Some total =>
        let safeTotal := Z.min total 500 in
        if (1 <? safeTotal)%Z then
          historyFeed <- fetchJsonFeed rt cleanUrl Posts 1 safeTotal ;;
          match historyFeed with
          | Some feed => ret (oldestPublished feed)
          | None =>
              throw {| err_name := js "TypeError";
                       err_message := js "Cannot read properties of undefined (reading 'entry')" |}
          end
        else ret None
    | None => ret None
    end
  else ret None.

Definition buildStats (rt : Runtime) (totalPosts totalPages : option Z)
    (processedPosts : list BlogPost) (pageEntries : list Entry)
    (postDates : list Date) (firstPostDate lastPostDate : Date)
    (htmlContent : jsstring) : BlogStats :=
  let pageContents :=
    List.map (fun entry =>
                orDefault (orElse (entry_content entry) (entry_summary entry)) [])
             pageEntries in
  let totalPageWords := sumZ (List.map countWords pageContents) in
  let avgWordsPerPage :=
    if (0 <? length pageEntries)%nat
    then Math_round (ofZ totalPageWords / ofNat (length pageEntries))%num
    else Fin 0 in
  let totalWords := ofZ (sumZ (List.map wordCount processedPosts)) in
  let totalImages := ofZ (sumZ (List.map imageCount processedPosts)) in
  let totalComments := ofInt (sumInts (List.map commentCount processedPosts)) in
  let n := ofNat (length processedPosts) in
  let consistencyScore := calculateConsistencyScore (now rt) postDates in
  let avgDaysBetweenPosts :=
    if (1 <? length postDates)%nat
    then ((getTime (nth 0 postDates InvalidDate)
           - getTime (nth (length postDates - 1) postDates InvalidDate))
          / ofNat (length postDates - 1) / MS_PER_DAY)%num
    else Fin 0 in
  let followersCount := ofInt (scrapeFollowers rt htmlContent) in
  let nonEmpty := (0 <? length processedPosts)%nat in
  {| totalPosts := ofInt totalPosts;
     totalPages := ofInt totalPages;
     totalComments :=
       if intGt totalPosts (Some (Z.of_nat (length processedPosts))) && nonEmpty
       then Math_round (totalComments / n * ofInt totalPosts)%num
       else totalComments;
     avgCommentsPerPost :=
       if nonEmpty then (Math_round (totalComments / n * Fin 10) / Fin 10)%num else Fin 0;
     avgWordsPerPost := if nonEmpty then Math_round (totalWords / n)%num else Fin 0;
     avgWordsPerPage := avgWordsPerPage;
     avgImagesPerPost :=
       if nonEmpty then (Math_round (totalImages / n * Fin 10) / Fin 10)%num else Fin 0;
     avgDaysBetweenPosts := (Math_round (avgDaysBetweenPosts * Fin 10) / Fin 10)%num;
     consistencyScore := consistencyScore;
     followersCount := followersCount;
     firstPostDate := firstPostDate;
     lastPostDate := lastPostDate |}.

(** [parseInt(feed.openSearch$totalResults?.$t || "0", 10)] *)
Definition reportedTotal (feed : option Feed) : option Z :=
  parseInt10
    (Some (orDefault
             match feed with
             | Some feed => feed_totalResults feed
             | None => None
             end (js "0"))).

(** [feed?.entry || []] *)
Definition entriesOf (feed : option Feed) : list Entry :=
  match feed with
  | Some {| feed_entry := Some entries |} => entries
  | _ => []
  end.

(** [firstPostDate]: the retrieved creation date, else the oldest post of the
    local sample, else the current time. *)
Definition firstPostDateOf (rt : Runtime) (creationDateStr : option jsstring)
    (postDates : list Date) : Date :=
  if truthy creationDateStr then parseDate rt creationDateStr
  else if (0 <? length postDates)%nat
       then nth (length postDates - 1) postDates InvalidDate
       else ValidDate (now rt).

(** Steps 3 to 8 of [analyzeBlogAndFetch]: from the fetched material to the
    snapshot.  No request is issued here. *)
Definition assembleAnalysis (rt : Runtime) (postsFeed : Feed)
    (htmlContent : jsstring) (pagesFeed : option Feed)
    (creationDateStr : option jsstring) : M Analysis :=
  let title := orDefault (feed_title postsFeed) (js "Untitled Blog") in
  let description := orDefault (feed_subtitle postsFeed) [] in
  let totalPosts := reportedTotal (Some postsFeed) in
  let totalPages := reportedTotal pagesFeed in
  (* 3. Process posts *)
  let entries := entriesOf (Some postsFeed) in
  let processedPosts := List.map processEntry entries in
  (* 4. Pages *)
  let pageEntries := entriesOf pagesFeed in
  (* 5. Dates *)
  let postDates := List.map (fun p => parseDate rt (pubDate p)) processedPosts in
  let lastPostDate :=
    if (0 <? length postDates)%nat then nth 0 postDates InvalidDate
    else ValidDate (now rt) in
  let firstPostDate := firstPostDateOf rt creationDateStr postDates in
  firstIso <- toISOString firstPostDate ;;
  lastIso <- toISOString lastPostDate ;;
  let stats :=
    buildStats rt totalPosts totalPages processedPosts pageEntries postDates
               firstIso lastIso htmlContent in
  (* 6. Final score *)
  let qualityScore := calculateQualityScore (now rt) stats in
  (* 7. Status *)
  let sixMonthsAgo := sixMonthsBefore rt (now rt) in
  let status :=
    match lastIso with
    | ValidDate ms => if (ms <? sixMonthsAgo)%Z then Inactive else Active
    | InvalidDate => Active
    end in
  (* 8. Tags *)
  let allTags :=
    fold_left (fun s p => fold_left Set_add (post_tags p) s) processedPosts [] in
  lastBuildIso <- toISOString lastPostDate ;;
  ret {| a_title := title;
         a_description := description;
         a_lastBuildDate := lastBuildIso;
         a_posts := firstn MAX_RECENT_POSTS processedPosts;
         a_status := status;
         a_stats := stats;
         a_qualityScore := qualityScore;
         a_tags := firstn 15 allTags |}.

(** The body of the outer [try] of [analyzeBlogAndFetch]. *)
Definition analyzeBody (rt : Runtime) (cleanUrl : jsstring) : M Analysis :=
  (* 1. Initial fetch - critical *)
  postsFeed <- fetchJsonFeed rt cleanUrl Posts 25 1 ;;
  match postsFeed with
  | None => throw (newError NO_FEED_DATA)
  | Some postsFeed =>
      let totalPosts := reportedTotal (Some postsFeed) in
      (* 2. Secondary fetches, each in its own try *)
      htmlContent <- tryCatch (fetchHtml rt cleanUrl) (fun _ => ret []) ;;
      pagesFeed <- tryCatch (fetchJsonFeed rt cleanUrl Pages 10 1) (fun _ => ret None) ;;
      creationDateStr <-
        tryCatch (fetchCreationDate rt cleanUrl totalPosts) (fun _ => ret None) ;;
      assembleAnalysis rt postsFeed htmlContent pagesFeed creationDateStr
  end.

Definition analyzeBlogAndFetch (rt : Runtime) (blogUrl : jsstring) : M Analysis :=
  let cleanUrl := normalizeUrl blogUrl in
  tryCatch (analyzeBody rt cleanUrl)
    (fun error =>
       let msg := toLowerCase rt (err_message error) in
       if includes msg (js "failed to fetch") || includes msg (js "network error")
       then throw (newError NETWORK_ERROR)
       else throw error).

(** ** Classifier ([services/geminiService.ts]) *)

Definition classifyBlogWithGemini (rt : Runtime) (title description : jsstring)
    (posts : list BlogPost) : ClassificationResult :=
  if negb (truthy (API_KEY rt)) then
    {| cls_category := js "Other";
       cls_tags := [js "Unclassified"];
       cls_sentimentScore := Fin 50;
       cls_language := js "Unknown";
       cls_summary := js "API Key missing." |}
  else
    match generateContent rt title description (List.map post_title posts) with
    | Some classification => classification
    | None =>
        {| cls_category := js "Other";
           cls_tags := [js "Auto-Tag-Error"];
           cls_sentimentScore := Fin 50;
           cls_language := js "English";
           cls_summary := js "Could not analyze content." |}
    end.

(** ** The collection and its handlers ([App.tsx])

    A handler is started with the state of the render it was created in and
    issues functional state updates; it is modelled as the composition of
    those updates, to be applied to the state current when it finishes.
    The state is the collection, the view, and the URL and error message of
    the add form; the progress indicators ([isLoading], [isAdding],
    [currentAction]) and the filters are left out. *)

Inductive ViewState : Type := Dashboard | Directory | Favorites | Add.

Record AppState : Type := {
  blogs : list BlogMetadata;
  view : ViewState;
  newBlogUrl : jsstring;
  addError : jsstring
}.

Definition Update := AppState -> AppState.

Definition setBlogs (f : list BlogMetadata -> list BlogMetadata) : Update :=
  fun st =>
    {| blogs := f (blogs st); view := view st;
       newBlogUrl := newBlogUrl st; addError := addError st |}.

Definition setView (v : ViewState) : Update :=
  fun st =>
    {| blogs := blogs st; view := v;
       newBlogUrl := newBlogUrl st; addError := addError st |}.

Definition setNewBlogUrl (u : jsstring) : Update :=
  fun st =>
    {| blogs := blogs st; view := view st;
       newBlogUrl := u; addError := addError st |}.

Definition setAddError (m : jsstring) : Update :=
  fun st =>
    {| blogs := blogs st; view := view st;
       newBlogUrl := newBlogUrl st; addError := m |}.

Definition andThen (f g : Update) : Update := fun st => g (f st).

(** The record built by [handleAddBlog] from the analysis and the
    classification. *)
Definition newBlogOf (rt : Runtime) (cleanUrl : jsstring)
    (analysisData : Analysis) (classification : ClassificationResult) : BlogMetadata :=
  let combinedTags :=
    Set_fromArray (a_tags analysisData ++ cls_tags classification) in
  {| id := randomUUID rt;
     url := cleanUrl;
     feedUrl := cleanUrl ++ js "/feeds/posts/default?alt=json";
     title := a_title analysisData;
     description := orDefault (Some (a_description analysisData)) [];
     lastBuildDate := a_lastBuildDate analysisData;
     posts := a_posts analysisData;
     status := a_status analysisData;
     stats := a_stats analysisData;
     qualityScore := a_qualityScore analysisData;
     category := cls_category classification;
     tags := combinedTags;
     sentimentScore := cls_sentimentScore classification;
     language := cls_language classification;
     isFavorite := false;
     addedAt := ValidDate (now rt);
     lastCheckedAt := ValidDate (now rt) |}.

(** The [try] block of [handleAddBlog]: the record to add, or an exception. *)
Definition addBlogBody (rt : Runtime) (st : AppState) : M BlogMetadata :=
  let cleanUrl := normalizeUrl (newBlogUrl st) in
  if existsb (fun b => jsstring_eqb (url b) cleanUrl) (blogs st)
  then throw (newError (js "Blog already exists in your library."))
  else
    analysisData <- analyzeBlogAndFetch rt cleanUrl ;;
    match a_title analysisData with
    | [] => throw (newError (js "Could not parse blog data."))
    | _ =>
        let classification :=
          classifyBlogWithGemini rt (a_title analysisData)
            (orDefault (Some (a_description analysisData)) [])
            (a_posts analysisData) in
        ret (newBlogOf rt cleanUrl analysisData classification)
    end.

Definition handleAddBlog (rt : Runtime) (st : AppState) : M Update :=
  match newBlogUrl st with
  | [] => ret (fun prev => prev)
  | _ =>
      tryCatch
        (newBlog <- addBlogBody rt st ;;
         ret (andThen (setAddError [])
                (andThen (setBlogs (fun prev => newBlog :: prev))
                   (andThen (setNewBlogUrl []) (setView Directory)))))
        (fun err =>
           ret (andThen (setAddError [])
                  (setAddError (orDefault (Some (err_message err))
                                  (js "Failed to add blog")))))
  end.

(** The object literal of the refresh: [{ ...b, title: ..., ... }]. *)
Definition refreshed (rt : Runtime) (analysisData : Analysis)
    (b : BlogMetadata) : BlogMetadata :=
  {| id := id b;
     url := url b;
     feedUrl := feedUrl b;
     category := category b;
     isFavorite := isFavorite b;
     sentimentScore := sentimentScore b;
     language := language b;
     addedAt := addedAt b;
     title := a_title analysisData;
     description := orDefault (Some (a_description analysisData)) [];
     lastBuildDate := a_lastBuildDate analysisData;
     posts := a_posts analysisData;
     status := a_status analysisData;
     stats := a_stats analysisData;
     qualityScore := a_qualityScore analysisData;
     tags := Set_fromArray (tags b ++ a_tags analysisData);
     lastCheckedAt := ValidDate (now rt) |}.

Definition handleRefreshBlog (rt : Runtime) (st : AppState)
    (blogId : jsstring) : M Update :=
  match find (fun b => jsstring_eqb (id b) blogId) (blogs st) with
  | None => ret (fun prev => prev)
  | Some blog =>
      tryCatch
        (analysisData <- analyzeBlogAndFetch rt (url blog) ;;
         ret (setBlogs
                (List.map
                   (fun b =>
                      if jsstring_eqb (id b) blogId
                      then refreshed rt analysisData b
                      else b))))
        (fun _ => ret (fun prev => prev))
  end.

(** ** The other handlers and the derived views of [App.tsx] *)

(** [handleDeleteBlog]; [confirmed] is the answer to the [confirm] dialog. *)
Definition handleDeleteBlog (confirmed : bool) (blogId : jsstring) : Update :=
  if confirmed
  then setBlogs (filter (fun b => negb (jsstring_eqb (id b) blogId)))
  else fun prev => prev.

(** [{ ...b, isFavorite: !b.isFavorite }] *)
Definition toggled (b : BlogMetadata) : BlogMetadata :=
  {| id := id b;
     url := url b;
     feedUrl := feedUrl b;
     title := title b;
     description := description b;
     lastBuildDate := lastBuildDate b;
     category := category b;
     tags := tags b;
     status := status b;
     isFavorite := negb (isFavorite b);
     sentimentScore := sentimentScore b;
     qualityScore := qualityScore b;
     language := language b;
     addedAt := addedAt b;
     lastCheckedAt := lastCheckedAt b;
     posts := posts b;
     stats := stats b |}.

Definition handleToggleFavorite (blogId : jsstring) : Update :=
  setBlogs (List.map (fun b => if jsstring_eqb (id b) blogId then toggled b else b)).

(** The loop of [refreshAll]: [for (const blog of blogs) await
    handleRefreshBlog(blog.id)], every call with the collection of the
    render the loop was started in. *)
Fixpoint refreshLoop (rt : Runtime) (st : AppState)
    (todo : list BlogMetadata) : M Update :=
  match todo with
  | [] => ret (fun prev => prev)
  | blog :: rest =>
      update <- handleRefreshBlog rt st (id blog) ;;
      updates <- refreshLoop rt st rest ;;
      ret (andThen update updates)
  end.

Definition refreshAll (rt : Runtime) (st : AppState) : M Update :=
  refreshLoop rt st (blogs st).

(** [filteredBlogs], for the search text and the category of the filter bar;
    the category [All] selects every category. *)
Definition matchesSearch (rt : Runtime) (searchQuery : jsstring)
    (blog : BlogMetadata) : bool :=
  let q := toLowerCase rt searchQuery in
  includes (toLowerCase rt (title blog)) q
  || includes (toLowerCase rt (description blog)) q
  || existsb (fun t => includes (toLowerCase rt t) q) (tags blog).

Definition matchesCategory (selectedCategory : jsstring)
    (blog : BlogMetadata) : bool :=
  jsstring_eqb selectedCategory (js "All")
  || jsstring_eqb (category blog) selectedCategory.

Definition filteredBlogs (rt : Runtime) (st : AppState)
    (searchQuery selectedCategory : jsstring) : list BlogMetadata :=
  filter
    (fun blog =>
       match view st with
       | Favorites =>
           matchesSearch rt searchQuery blog
           && matchesCategory selectedCategory blog && isFavorite blog
       | _ => matchesSearch rt searchQuery blog && matchesCategory selectedCategory blog
       end)
    (blogs st).

(** The average of the dashboard. *)
Definition avgQualityScore (st : AppState) : number :=
  if (0 <? length (blogs st))%nat
  then Math_round
         (fold_left (fun acc b => acc + qualityScore b)%num (blogs st) (Fin 0)
          / ofNat (length (blogs st)))%num
  else Fin 0.

(** ** Vocabulary of the specification *)

(** An attempt through a relay fails when the request rejects (an error or
    the timeout) or resolves with a status outside 200-299. *)
Definition attemptFails (o : FetchOutcome) : bool :=
  match o with
  | Resolved response => negb (ok response)
  | Rejected _ => true
  end.

(** The error a failed attempt leaves in [lastError]. *)
Definition errorOf (o : FetchOutcome) : JsError :=
  match o with
  | Resolved response =>
      newError (js "Proxy returned status " ++ numberToString (resp_status response))
  | Rejected e => e
  end.

(** The outcome of the attempt through the [i]-th relay of [proxies], in a
    loop that starts with the requests of [log] already issued. *)
Definition attemptOutcome (rt : Runtime) (enc : jsstring) (log : Log)
    (proxies : list jsstring) (i : nat) : FetchOutcome :=
  fetch rt (length log + i) (nth i proxies [] ++ enc).

(** The URL fetched through a relay. *)
Definition relayUrl (rt : Runtime) (targetUrl proxyBase : jsstring) : jsstring :=
  proxyBase ++ encodeURIComponent rt (cacheBust rt targetUrl).

(** [f] over the adjacent pairs of a list. *)
Fixpoint adjacent {A B : Type} (f : A -> A -> B) (l : list A) : list B :=
  match l with
  | a :: rest =>
      match rest with
      | b :: _ => f a b :: adjacent f rest
      | [] => []
      end
  | [] => []
  end.

(** A list of time values is newest-first. *)
Fixpoint newestFirst (ts : list Z) : Prop :=
  match ts with
  | a :: rest =>
      match rest with
      | b :: _ => (b <= a)%Z /\ newestFirst rest
      | [] => True
      end
  | [] => True
  end.

Definition msPerDay : R := 1000 * 60 * 60 * 24.

(** The gaps, in days, from each date to the next older one. *)
Definition dayGaps (ts : list Z) : list R :=
  adjacent (fun newer older => (IZR newer - IZR older) / msPerDay)%R ts.

Definition sumR (l : list R) : R := fold_right Rplus 0%R l.

Definition mean (l : list R) : R := (sumR l / INR (length l))%R.

(** Population standard deviation. *)
Definition populationStdDev (l : list R) : R :=
  sqrt (sumR (List.map (fun g => (g - mean l) ^ 2)%R l) / INR (length l)).

Definition coefficientOfVariation (l : list R) : R :=
  if Req_dec_T (mean l) 0 then 0%R else (populationStdDev l / mean l)%R.

(** 20 past 90 days, and a further 40 past 365 days. *)
Definition stalenessPenalty (elapsedDays : R) : R :=
  ((if Rlt_dec 90 elapsedDays then 20 else 0)
   + (if Rlt_dec 365 elapsedDays then 40 else 0))%R.

Definition clamp (lo hi z : Z) : Z :=
  if (z <? lo)%Z then lo else if (hi <? z)%Z then hi else z.

(** The consistency score in the words of the specification, on the time
    values of a newest-first list of dates. *)
Definition consistency_spec (now : Z) (ts : list Z) : Z :=
  if (length ts <? 3)%nat then 50%Z
  else
    let cv := coefficientOfVariation (dayGaps ts) in
    let elapsedDays := ((IZR now - IZR (hd 0%Z ts)) / msPerDay)%R in
    clamp 0 100 (round (100 - cv * 66 - stalenessPenalty elapsedDays)).

(** Statistics of a blog whose first post is dated a hundred years of 365
    days after the clock reading [clock]: nothing else is known about it, and
    its consistency is the neutral 50 of a blog with fewer than three posts. *)
Definition statsOfFutureBlog (clock : Z) : BlogStats :=
  {| totalPosts := Fin 0;
     totalPages := Fin 0;
     totalComments := Fin 0;
     avgCommentsPerPost := Fin 0;
     avgWordsPerPost := Fin 0;
     avgWordsPerPage := Fin 0;
     avgImagesPerPost := Fin 0;
     avgDaysBetweenPosts := Fin 0;
     consistencyScore := Fin 50;
     followersCount := Fin 0;
     firstPostDate := ValidDate (clock + 100 * (1000 * 60 * 60 * 24 * 365));
     lastPostDate := ValidDate (clock + 100 * (1000 * 60 * 60 * 24 * 365)) |}.

(** Statistics as the orchestrator can produce them on sound data: counts
    and averages are not negative, the consistency score is within its range,
    the follower count is a natural number, the first post is not dated after
    the clock reading. *)
Record plausibleStats (clock : Z) (stats : BlogStats) : Prop := {
  ps_words : exists r, avgWordsPerPost stats = Fin r /\ (0 <= r)%R;
  ps_images : exists r, avgImagesPerPost stats = Fin r /\ (0 <= r)%R;
  ps_posts : exists r, totalPosts stats = Fin r /\ (0 <= r)%R;
  ps_comments : exists r, avgCommentsPerPost stats = Fin r /\ (0 <= r)%R;
  ps_pages : exists r, totalPages stats = Fin r /\ (0 <= r)%R;
  ps_consistency : exists r, consistencyScore stats = Fin r /\ (0 <= r <= 100)%R;
  ps_followers : exists n : nat, followersCount stats = ofNat n;
  ps_first : exists t, firstPostDate stats = ValidDate t /\ (t <= clock)%Z
}.

(** The log of requests after running [m] from [log]. *)
Definition logAfter {A : Type} (m : M A) (log : Log) : Log := snd (m log).

(** Each value once, where it is first seen: a value is kept when it has not
    occurred before. *)
Fixpoint keepNew (seen l : list jsstring) : list jsstring :=
  match l with
  | [] => []
  | t :: rest =>
      if Set_has seen t then keepNew seen rest
      else t :: keepNew (t :: seen) rest
  end.

Definition firstSeen (l : list jsstring) : list jsstring := keepNew [] l.

(** The labels of all posts of a feed, in feed order. *)
Definition allPostTags (entries : list Entry) : list jsstring :=
  flat_map (fun e => post_tags (processEntry e)) entries.

(** The date of the oldest post of the local sample, or the clock reading
    when the sample is empty. *)
Definition oldestLocalDate (rt : Runtime) (entries : list Entry) : Date :=
  last (List.map (fun e => parseDate rt (entry_published e)) entries)
       (ValidDate (now rt)).

(** The size of the local sample of posts. *)
Definition LOCAL_SAMPLE : Z := 25.

(** The fields a refresh keeps. *)
Definition sameIdentity (b b' : BlogMetadata) : Prop :=
  id b' = id b /\ url b' = url b /\ feedUrl b' = feedUrl b /\
  category b' = category b /\ sentimentScore b' = sentimentScore b /\
  language b' = language b /\ isFavorite b' = isFavorite b /\
  addedAt b' = addedAt b.

(** The reading of the history rule with the sample size as the threshold:
    after a posts feed that reports no more posts than the local sample, the
    pages feed is the last request of the analysis. *)
Definition historyOnlyAboveSample (rt : Runtime) (blogUrl : jsstring) : Prop :=
  forall postsFeed log1 t,
    fetchJsonFeed rt (normalizeUrl blogUrl) Posts 25 1 []
    = (Ok (Some postsFeed), log1) ->
    reportedTotal (Some postsFeed) = Some t ->
    (t <= LOCAL_SAMPLE)%Z ->
    logAfter (analyzeBlogAndFetch rt blogUrl) []
    = logAfter (fetchJsonFeed rt (normalizeUrl blogUrl) Pages 10 1)
        (logAfter (fetchHtml rt (normalizeUrl blogUrl)) log1).

(** The reading of the label rule with the cap on the stored list. *)
Definition storedTagsCapped (rt : Runtime) (st : AppState) : Prop :=
  forall newBlog log',
    addBlogBody rt st [] = (Ok newBlog, log') ->
    length (tags newBlog) <= 15.

(** ** Further vocabulary *)

(** The error the outer [catch] of [analyzeBlogAndFetch] throws for the
    error it caught. *)
Definition friendlyError (rt : Runtime) (error : JsError) : JsError :=
  let msg := toLowerCase rt (err_message error) in
  if includes msg (js "failed to fetch") || includes msg (js "network error")
  then newError NETWORK_ERROR
  else error.

(** The [RangeError] of [toISOString] on an invalid date. *)
Definition INVALID_TIME_VALUE : JsError :=
  {| err_name := js "RangeError"; err_message := js "Invalid time value" |}.

(** A URL fetched through one of the relays. *)
Definition viaRelay (rt : Runtime) (u : jsstring) : Prop :=
  exists proxyBase targetUrl, In proxyBase PROXIES /\ u = relayUrl rt targetUrl proxyBase.

(** The dates of the posts of the local sample, newest first. *)
Definition localDates (rt : Runtime) (postsFeed : Feed) : list Date :=
  List.map (fun e => parseDate rt (entry_published e)) (entriesOf (Some postsFeed)).

(** The date of the newest post of the local sample, or the clock reading
    when the sample is empty. *)
Definition newestLocalDate (rt : Runtime) (postsFeed : Feed) : Date :=
  hd (ValidDate (now rt)) (localDates rt postsFeed).

(** The snapshot assembled from the fetched material once both dates are
    known to be valid. *)
Definition snapshotOf (rt : Runtime) (postsFeed : Feed) (htmlContent : jsstring)
    (pagesFeed : option Feed) (firstMs lastMs : Z) : Analysis :=
  let processedPosts := List.map processEntry (entriesOf (Some postsFeed)) in
  let stats :=
    buildStats rt (reportedTotal (Some postsFeed)) (reportedTotal pagesFeed)
      processedPosts (entriesOf pagesFeed) (localDates rt postsFeed)
      (ValidDate firstMs) (ValidDate lastMs) htmlContent in
  {| a_title := orDefault (feed_title postsFeed) (js "Untitled Blog");
     a_description := orDefault (feed_subtitle postsFeed) [];
     a_lastBuildDate := ValidDate lastMs;
     a_posts := firstn MAX_RECENT_POSTS processedPosts;
     a_status := if (lastMs <? sixMonthsBefore rt (now rt))%Z then Inactive else Active;
     a_stats := stats;
     a_qualityScore := calculateQualityScore (now rt) stats;
     a_tags :=
       firstn 15
         (fold_left (fun s p => fold_left Set_add (post_tags p) s) processedPosts []) |}.

(** Words separated by single spaces. *)
Fixpoint joinWords (ws : list jsstring) : jsstring :=
  match ws with
  | [] => []
  | w :: rest =>
      match rest with
      | [] => w
      | _ :: _ => w ++ SPACE :: joinWords rest
      end
  end.

(** A word: not empty, no white space, no [<]. *)
Definition isWord (w : jsstring) : Prop :=
  w <> [] /\ forallb (fun c => negb (isWhiteSpace c) && negb (N.eqb c LT)) w = true.

(** A piece of markup: an image tag opener followed by text, or text; the
    text has no [<]. *)
Inductive Piece : Type :=
| ImgTag (opener rest : jsstring)
| Text (text : jsstring).

Definition isImgOpener (o : jsstring) : Prop :=
  exists i m g,
    o = [LT; i; m; g] /\ eqbIgnoreCase 105%N i = true /\
    eqbIgnoreCase 109%N m = true /\ eqbIgnoreCase 103%N g = true.

Definition noLT (s : jsstring) : Prop := forallb (fun c => negb (N.eqb c LT)) s = true.

Definition wellFormedPiece (p : Piece) : Prop :=
  match p with
  | ImgTag opener rest => isImgOpener opener /\ noLT rest
  | Text text => noLT text
  end.

Definition renderPiece (p : Piece) : jsstring :=
  match p with
  | ImgTag opener rest => opener ++ rest
  | Text text => text
  end.

Definition isImgTag (p : Piece) : bool :=
  match p with
  | ImgTag _ _ => true
  | Text _ => false
  end.

(** From [log] to [log'], between [lo] and [hi] requests were issued, all of
    them through relays, and nothing was taken from the log. *)
Definition issues (rt : Runtime) (lo hi : nat) (log log' : Log) : Prop :=
  exists ext,
    log' = log ++ ext /\ lo <= length ext <= hi /\ Forall (viaRelay rt) ext.

(** The distances, in days, between adjacent dates, in any order. *)
Definition absDayGaps (ts : list Z) : list R :=
  adjacent (fun a b => Rabs (IZR a - IZR b) / msPerDay)%R ts.

(** The consistency score of valid dates in any order: the gaps are taken as
    distances, the staleness is measured from the first date of the list. *)
Definition consistency_any_order (now : Z) (ts : list Z) : Z :=
  if (length ts <? 3)%nat then 50%Z
  else
    let cv := coefficientOfVariation (absDayGaps ts) in
    let elapsedDays := ((IZR now - IZR (hd 0%Z ts)) / msPerDay)%R in
    clamp 0 100 (round (100 - cv * 66 - stalenessPenalty elapsedDays)).

Definition timeOf (d : Date) : Z :=
  match d with
  | ValidDate ms => ms
  | InvalidDate => 0%Z
  end.

(** The record a refresh, successful or not, makes of a record. *)
Definition refreshRecord (rt : Runtime) (blogId : jsstring)
    (outcome : Result Analysis) (b : BlogMetadata) : BlogMetadata :=
  match outcome with
  | Ok a => if jsstring_eqb (id b) blogId then refreshed rt a b else b
  | Throw _ => b
  end.

(** Two collections hold, position by position, records of the same
    identity. *)
Definition sameIdentities (before after : list BlogMetadata) : Prop :=
  Forall2 sameIdentity before after.

(** ** The consistency score in double precision, in the words of the
    specification *)

Module DoubleFormula.
Import Floats.
Local Open Scope float_scope.

(** The sum of a list, accumulated from the left, starting from 0. *)
Definition sum (l : list float) : float := fold_left add l 0.

(** The gaps, in days, between adjacent dates. *)
Definition dayGaps (dates : list Date) : list float :=
  adjacent
    (fun a b => abs (Double.getTime a - Double.getTime b) / Double.MS_PER_DAY)
    dates.

Definition mean (l : list float) : float := sum l / Double.ofNat (length l).

(** Population standard deviation. *)
Definition populationStdDev (l : list float) : float :=
  sqrt (sum (List.map (fun g => (g - mean l) * (g - mean l)) l)
        / Double.ofNat (length l)).

Definition coefficientOfVariation (l : list float) : float :=
  if mean l =? 0 then 0 else populationStdDev l / mean l.

(** 20 off past 90 days, then a further 40 off past 365 days. *)
Definition penalised (elapsedDays score : float) : float :=
  let score := if 90 <? elapsedDays then score - 20 else score in
  if 365 <? elapsedDays then score - 40 else score.

Definition clamp (x : float) : float := Double.Math_max 0 (Double.Math_min 100 x).

(** The score of three dates or more: the first date of the list is the
    newest. *)
Definition consistency (now : Z) (dates : list Date) : float :=
  let cv := coefficientOfVariation (dayGaps dates) in
  let elapsedDays :=
    (Double.ofZ now - Double.getTime (hd InvalidDate dates)) / Double.MS_PER_DAY in
  clamp (Double.Math_round (penalised elapsedDays (100 - cv * 66))).

End DoubleFormula.

(** The time values a [Date] can hold. *)
Definition timeValue (t : Z) : Prop :=
  (- 8640000000000000 <= t <= 8640000000000000)%Z.

(** C1 as stated: on newest-first dates the code returns the value of the
    exactly computed formula. *)
Definition returnsExactFormula : Prop :=
  forall (now : Z) (ts : list Z),
    timeValue now -> Forall timeValue ts -> newestFirst ts ->
    Double.calculateConsistencyScore now (List.map ValidDate ts)
    = Double.ofZ (consistency_spec now ts).

(** A record with another time of the last check. *)
Definition withLastCheckedAt (d : Date) (b : BlogMetadata) : BlogMetadata :=
  {| id := id b;
     url := url b;
     feedUrl := feedUrl b;
     title := title b;
     description := description b;
     lastBuildDate := lastBuildDate b;
     category := category b;
     tags := tags b;
     status := status b;
     isFavorite := isFavorite b;
     sentimentScore := sentimentScore b;
     qualityScore := qualityScore b;
     language := language b;
     addedAt := addedAt b;
     lastCheckedAt := d;
     posts := posts b;
     stats := stats b |}.

(** ** A concrete environment

    A blog with two posts, dated 10 and 20 days before the clock reading,
    one comment each, [totalResults = 2], no pages and no follower widget;
    the first relay answers every request.  It is used to run the model. *)

Module Example.

(** [encodeURIComponent] on ASCII text: letters, digits and [-_.!~*'()] are
    kept, any other code unit becomes [%XX]. *)
Definition isUnreserved (c : codeunit) : bool :=
  ((N.leb 65 c && N.leb c 90) || (N.leb 97 c && N.leb c 122) || isDigit c
   || existsb (N.eqb c) [45; 95; 46; 33; 126; 42; 39; 40; 41])%N%bool.

Definition hexDigit (n : N) : codeunit :=
  (if n <? 10 then 48 + n else 55 + n)%N.

Definition encodeAscii (s : jsstring) : jsstring :=
  flat_map
    (fun c => if isUnreserved c then [c]
              else [37%N; hexDigit (c / 16); hexDigit (c mod 16)])
    s.

(** [toLowerCase] on ASCII text. *)
Definition lowerAscii (s : jsstring) : jsstring :=
  List.map (fun c => if (N.leb 65 c && N.leb c 90)%N then (c + 32)%N else c) s.

(** 2025-11-02T00:00:00.000Z *)
Definition clock : Z := 1762041600000.

Definition day : Z := 1000 * 60 * 60 * 24.

(** [new Date] on the timestamps that occur in the example feeds. *)
Definition dateTable : list (jsstring * Z) :=
  [ (js "2025-10-23T00:00:00.000Z", clock - 10 * day);
    (js "2025-10-13T00:00:00.000Z", clock - 20 * day);
    (js "2025-10-03T00:00:00.000Z", clock - 30 * day);
    (js "2125-10-09T00:00:00.000Z", clock + 100 * (day * 365));
    (js "2025-01-01T00:00:00.000Z", clock - 305 * day) ]%Z.

Fixpoint lookupDate (table : list (jsstring * Z)) (s : jsstring) : Date :=
  match table with
  | [] => InvalidDate
  | (k, ms) :: rest => if jsstring_eqb k s then ValidDate ms else lookupDate rest s
  end.

Definition entry (published content : string) (terms : list jsstring) : Entry :=
  {| entry_title := Some (js "A post");
     entry_content := Some (js content);
     entry_summary := None;
     entry_published := Some (js published);
     entry_id := Some (js ("tag:blogger.com,1999:post-" ++ published));
     entry_thr_total := Some (Some (js "1"));
     entry_link :=
       Some [ {| rel := Some (js "alternate"); type := Some (js "text/html");
                 href := Some (js "https://example.blogspot.com/p.html");
                 link_title := Some (js "A post") |} ];
     entry_category := Some terms |}.

Definition newer : Entry :=
  entry "2025-10-23T00:00:00.000Z" "<p>Hello world</p>" [js "go"; js "web"].

Definition older : Entry :=
  entry "2025-10-13T00:00:00.000Z" "<p>Hello again, world</p>" [js "web"].

Definition feedOf (total : string) (entries : list Entry) : Feed :=
  {| feed_title := Some (js "Example Blog");
     feed_subtitle := Some (js "About examples");
     feed_totalResults := Some (js total);
     feed_entry := Some entries |}.

Definition respond (text : string) (body : JsonBody) : FetchOutcome :=
  Resolved {| resp_status := 200; resp_text := js text; resp_json := body |}.

Definition HTML_SYNTAX_ERROR : JsError :=
  {| err_name := js "SyntaxError"; err_message := js "Unexpected token '<'" |}.

Definition FAILED_TO_FETCH : JsError :=
  {| err_name := js "TypeError"; err_message := js "Failed to fetch" |}.

(** The answers of the network, by the number of the request. *)
Definition network (posts history : Feed) (n : nat) (_ : jsstring) : FetchOutcome :=
  match n with
  | 0 => respond "{...}" (JsonFeed posts)
  | 1 => respond "<html><body>Example Blog</body></html>" (JsonFails HTML_SYNTAX_ERROR)
  | 2 => respond "{...}" (JsonFeed (feedOf "0" []))
  | 3 => respond "{...}" (JsonFeed history)
  | _ => Rejected FAILED_TO_FETCH
  end.

Definition classification : ClassificationResult :=
  {| cls_category := js "Technology";
     cls_tags := [js "web"; js "tutorial"];
     cls_sentimentScore := Fin 70;
     cls_language := js "English";
     cls_summary := js "A blog of examples." |}.

Definition world (fetch : nat -> jsstring -> FetchOutcome) : Runtime :=
  {| now := clock;
     fetch := fetch;
     encodeURIComponent := encodeAscii;
     toLowerCase := lowerAscii;
     parseDate := fun s => match s with
                           | Some s => lookupDate dateTable s
                           | None => InvalidDate
                           end;
     sixMonthsBefore := fun t => (t - 184 * day)%Z;
     matchGroup1 := fun _ _ => None;
     randomUUID := js "3f2c8a52-6d1e-4b7a-9f0e-2b1c5d7e8a90";
     API_KEY := Some (js "key");
     generateContent := fun _ _ _ => Some classification |}.

(** The two-post blog. *)
Definition rt : Runtime :=
  world (network (feedOf "2" [newer; older]) (feedOf "2" [older])).

(** A blog of ten posts, of which the feed returns the two newest. *)
Definition rt10 : Runtime :=
  world (network (feedOf "10" [newer; older]) (feedOf "10" [older])).

(** Fifteen distinct labels on one post. *)
Definition labels : list jsstring :=
  List.map (fun n => js "label-" ++ numberToString (Z.of_nat n)) (seq 1 15).

Definition rtLabels : Runtime :=
  world (network
           (feedOf "1" [entry "2025-10-23T00:00:00.000Z" "<p>Hello world</p>" labels])
           (feedOf "1" [])).

(** Seven posts in the feed, ten days apart. *)
Definition sevenPosts : Feed :=
  feedOf "7" [newer; older; older; older; older; older; older].

Definition rt7 : Runtime := world (network sevenPosts (feedOf "7" [older])).

(** The two-post blog, with an oldest post dated a hundred years ahead. *)
Definition rtFuture : Runtime :=
  world (network (feedOf "2" [newer; older])
           (feedOf "2" [entry "2125-10-09T00:00:00.000Z" "<p>Scheduled</p>" []])).

(** The first relay is unreachable, the second answers 503, the third
    answers. *)
Definition payload : Response :=
  {| resp_status := 200; resp_text := js "payload"; resp_json := JsonNoFeed |}.

Definition unavailable (status : Z) : Response :=
  {| resp_status := status; resp_text := js "unavailable"; resp_json := JsonNoFeed |}.

Definition rtFlaky : Runtime :=
  world (fun n _ =>
           match n with
           | 0 => Rejected FAILED_TO_FETCH
           | 1 => Resolved (unavailable 503)
           | _ => Resolved payload
           end).

(** Every relay is reached and answers 500, except the last, which times
    out. *)
Definition ABORTED : JsError :=
  {| err_name := js "AbortError"; err_message := js "The user aborted a request." |}.

Definition rtTimeout : Runtime :=
  world (fun n _ =>
           match n with
           | 3 => Rejected ABORTED
           | _ => Resolved (unavailable 500)
           end).

Definition rtAll500 : Runtime := world (fun _ _ => Resolved (unavailable 500)).

(** Only the posts feed arrives: every later request fails. *)
Definition rtPostsOnly : Runtime :=
  world (fun n _ =>
           match n with
           | 0 => respond "{...}" (JsonFeed (feedOf "2" [newer; older]))
           | _ => Rejected FAILED_TO_FETCH
           end).

(** A blog without posts. *)
Definition rtEmpty : Runtime :=
  world (network (feedOf "0" []) (feedOf "0" [])).

(** A relay answers the feed request with a page of HTML. *)
Definition rtHtmlPage : Runtime :=
  world (fun _ _ =>
           respond "<!DOCTYPE html><html><body>Not found</body></html>"
                   (JsonFails HTML_SYNTAX_ERROR)).

(** A blog whose only post is ten months old. *)
Definition rtOld : Runtime :=
  world (network
           (feedOf "1" [entry "2025-01-01T00:00:00.000Z" "<p>Goodbye</p>" []])
           (feedOf "1" [])).

(** No relay answers. *)
Definition rtDown : Runtime := world (fun _ _ => Rejected FAILED_TO_FETCH).

Definition blogUrl : jsstring := js "example.blogspot.com/".

Definition emptyState : AppState :=
  {| blogs := []; view := Add; newBlogUrl := blogUrl; addError := [] |}.

(** A record of the collection, as stored by an earlier run. *)
Definition stored : BlogMetadata :=
  {| id := js "3f2c8a52-6d1e-4b7a-9f0e-2b1c5d7e8a90";
     url := js "https://example.blogspot.com";
     feedUrl := js "https://example.blogspot.com/feeds/posts/default?alt=json";
     title := js "Example Blog (old title)";
     description := js "";
     lastBuildDate := ValidDate (clock - 30 * day);
     category := js "Technology";
     tags := [js "tutorial"; js "go"];
     status := Active;
     isFavorite := true;
     sentimentScore := Fin 70;
     qualityScore := Fin 12;
     language := js "English";
     addedAt := ValidDate (clock - 40 * day);
     lastCheckedAt := ValidDate (clock - 30 * day);
     posts := [];
     stats := statsOfFutureBlog (clock - 200 * (day * 365)) |}.

Definition other : BlogMetadata :=
  {| id := js "b1946ac9-2492-4d2f-8c5a-7a7f0e3d9c11";
     url := js "https://other.blogspot.com";
     feedUrl := js "https://other.blogspot.com/feeds/posts/default?alt=json";
     title := js "Other Blog";
     description := js "";
     lastBuildDate := ValidDate (clock - 3 * day);
     category := js "Travel";
     tags := [js "maps"];
     status := Active;
     isFavorite := false;
     sentimentScore := Fin 55;
     qualityScore := Fin 20;
     language := js "Spanish";
     addedAt := ValidDate (clock - 50 * day);
     lastCheckedAt := ValidDate (clock - 3 * day);
     posts := [];
     stats := statsOfFutureBlog (clock - 200 * (day * 365)) |}.

Definition library : AppState :=
  {| blogs := [other; stored]; view := Directory; newBlogUrl := []; addError := [] |}.

(** The form holds the URL of the stored blog, written without its scheme. *)
Definition duplicateForm : AppState :=
  {| blogs := [other; stored]; view := Add; newBlogUrl := blogUrl; addError := [] |}.

(** The form holds the URL of a blog the collection does not have. *)
Definition freshForm : AppState :=
  {| blogs := [other]; view := Add; newBlogUrl := blogUrl; addError := [] |}.


(** Text with two images, one tag in capitals. *)
Definition markup : list Piece :=
  [ Text (js "Hello ");
    ImgTag (js "<img") (js " src='a.png'> and ");
    ImgTag (js "<IMG") (js " SRC='b.png' />");
    Text (js " bye") ].

Definition threeWords : list jsstring := [js "Hello"; js "again,"; js "world"].

Definition hour : Z := 1000 * 60 * 60.

(** Three posts dated 2025-10-23T00:00Z, 2025-10-13T19:00Z and
    2025-10-12T00:00Z: gaps of 221 and 43 hours. *)
Definition uneven : list Z :=
  [clock - 10 * day; clock - 19 * day - 5 * hour; clock - 21 * day]%Z.

(** Three posts, seven days apart, the newest ten days old. *)
Definition weekly : list Z :=
  [clock - 10 * day; clock - 17 * day; clock - 24 * day]%Z.

End Example.

(** * Properties *)

(** ** Strings *)

Lemma jsstring_eqb_true (a b : jsstring) : jsstring_eqb a b = true <-> a = b.
Proof.
  unfold jsstring_eqb. destruct (list_eq_dec N.eq_dec a b); split; congruence.
Qed.

Lemma jsstring_eqb_false (a b : jsstring) : jsstring_eqb a b = false <-> a <> b.
Proof.
  unfold jsstring_eqb. destruct (list_eq_dec N.eq_dec a b); split; congruence.
Qed.

Lemma jsstring_eqb_refl (a : jsstring) : jsstring_eqb a a = true.
Proof. now apply jsstring_eqb_true. Qed.

Lemma empty_or_last (s : jsstring) : s = [] \/ exists l c, s = l ++ [c].
Proof.
  destruct s as [|a s]; [now left | right].
  destruct (exists_last (l := a :: s)) as (l & c & E); [discriminate|].
  now exists l, c.
Qed.

Lemma startsWith_app (p s : jsstring) : startsWith (p ++ s) p = true.
Proof.
  unfold startsWith. apply jsstring_eqb_true.
  rewrite firstn_app, firstn_all, Nat.sub_diag. simpl. apply app_nil_r.
Qed.

Lemma startsWith_inv (s p : jsstring) :
  startsWith s p = true -> exists r, s = p ++ r.
Proof.
  unfold startsWith. intros H. apply jsstring_eqb_true in H.
  exists (skipn (length p) s). rewrite <- H at 1. symmetry. apply firstn_skipn.
Qed.

Lemma dropWhile_keep p c (r : jsstring) :
  p c = false -> dropWhile p (c :: r) = c :: r.
Proof. intros H. simpl. now rewrite H. Qed.

Lemma dropWhileEnd_nil p : dropWhileEnd p [] = [].
Proof. reflexivity. Qed.

Lemma dropWhileEnd_snoc p (l : jsstring) c :
  dropWhileEnd p (l ++ [c]) = if p c then dropWhileEnd p l else l ++ [c].
Proof.
  unfold dropWhileEnd. rewrite rev_app_distr. simpl.
  destruct (p c); [reflexivity|].
  simpl. now rewrite rev_involutive.
Qed.

Lemma dropWhileEnd_keep p (l : jsstring) c :
  p c = false -> dropWhileEnd p (l ++ [c]) = l ++ [c].
Proof. intros H. rewrite dropWhileEnd_snoc. now rewrite H. Qed.

(** What is left after dropping at the end is empty or ends with a kept
    code unit. *)
Lemma dropWhileEnd_last p (s : jsstring) :
  dropWhileEnd p s = [] \/
  exists l c, dropWhileEnd p s = l ++ [c] /\ p c = false.
Proof.
  induction s as [|c l IH] using rev_ind.
  - now left.
  - rewrite dropWhileEnd_snoc. destruct (p c) eqn:E; [exact IH|].
    right. now exists l, c.
Qed.

Lemma dropWhileEnd_prefix p (s : jsstring) :
  exists r, s = dropWhileEnd p s ++ r.
Proof.
  induction s as [|c l IH] using rev_ind.
  - now exists [].
  - rewrite dropWhileEnd_snoc. destruct (p c).
    + destruct IH as [r E]. exists (r ++ [c]). rewrite app_assoc. now rewrite <- E.
    + exists []. now rewrite app_nil_r.
Qed.

Lemma dropWhileEnd_cons_keep p c (r : jsstring) :
  p c = false -> exists r', dropWhileEnd p (c :: r) = c :: r'.
Proof.
  intros H. induction r as [|d l IH] using rev_ind.
  - exists []. apply (dropWhileEnd_keep p [] c H).
  - change (c :: l ++ [d]) with ((c :: l) ++ [d]).
    rewrite dropWhileEnd_snoc. destruct (p d); [exact IH|].
    now exists (l ++ [d]).
Qed.

Lemma endsWith_nil (p : jsstring) : p <> [] -> endsWith [] p = false.
Proof.
  intros H. unfold endsWith. simpl. apply jsstring_eqb_false. congruence.
Qed.

Lemma endsWith_snoc (l : jsstring) c d :
  endsWith (l ++ [c]) [d] = N.eqb c d.
Proof.
  unfold endsWith. rewrite length_app. simpl.
  replace (length l + 1 - 1) with (length l) by lia.
  rewrite skipn_app, skipn_all, Nat.sub_diag. simpl.
  destruct (N.eqb_spec c d) as [->|N].
  - apply jsstring_eqb_refl.
  - apply jsstring_eqb_false. congruence.
Qed.

Lemma slice_0_m1_snoc (l : jsstring) c : slice_0_m1 (l ++ [c]) = l.
Proof.
  unfold slice_0_m1. rewrite length_app. simpl.
  replace (length l + 1 - 1) with (length l) by lia.
  rewrite firstn_app, firstn_all, Nat.sub_diag. simpl. apply app_nil_r.
Qed.

(** ** URL normaliser *)

(** The loop is the removal of every trailing slash, for every amount of
    fuel that is at least the length of the string. *)
Lemma stripLoop_spec (fuel : nat) (s : jsstring) :
  length s <= fuel -> stripLoop fuel s = stripTrailingSlashes s.
Proof.
  revert s. induction fuel as [|fuel IH]; intros s Hlen.
  - destruct s; [reflexivity | simpl in Hlen; lia].
  - destruct (empty_or_last s) as [->|(l & c & ->)].
    + reflexivity.
    + simpl. change (js "/") with [SLASH]. rewrite endsWith_snoc.
      unfold stripTrailingSlashes. rewrite dropWhileEnd_snoc.
      unfold isSlash. destruct (N.eqb c SLASH).
      * rewrite slice_0_m1_snoc. apply IH.
        rewrite length_app in Hlen. simpl in Hlen. lia.
      * reflexivity.
Qed.

(** The loop has left the string when it stops: no slash remains at the end. *)
Lemma stripLoop_exits (s : jsstring) :
  endsWith (stripLoop (length s) s) (js "/") = false.
Proof.
  rewrite stripLoop_spec by lia.
  destruct (dropWhileEnd_last isSlash s) as [E|(l & c & E & Hc)];
    unfold stripTrailingSlashes; rewrite E.
  - now apply endsWith_nil.
  - change (js "/") with [SLASH]. rewrite endsWith_snoc. exact Hc.
Qed.

Lemma normalizeUrl_refines (x : jsstring) : normalizeUrl x = normalize_spec x.
Proof.
  unfold normalizeUrl, normalize_spec.
  rewrite stripLoop_spec by lia.
  now destruct (startsWith (stripTrailingSlashes (trim x)) (js "http")).
Qed.

(** C5: the normaliser trims, removes every trailing slash, and prefixes
    [https://] exactly when the result does not start with [http]; the two
    examples of the specification evaluate as stated. *)
Theorem normalizeUrl_correct :
  (forall x : jsstring,
     let t := stripTrailingSlashes (trim x) in
     normalizeUrl x = if startsWith t (js "http") then t else js "https://" ++ t)
  /\ normalizeUrl (js "example.com/") = js "https://example.com"
  /\ normalizeUrl (js " http://x.com///") = js "http://x.com".
Proof.
  split; [|split].
  - intros x. apply normalizeUrl_refines.
  - reflexivity.
  - reflexivity.
Qed.

(** *** What trimming and stripping remove *)

Lemma dropWhile_decompose p (s : jsstring) :
  exists r, s = r ++ dropWhile p s /\ forallb p r = true.
Proof.
  induction s as [|c s IH].
  - now exists [].
  - simpl. destruct (p c) eqn:E.
    + destruct IH as (r & Hr & Hp). exists (c :: r). simpl.
      rewrite E, Hp. split; [now rewrite <- Hr | reflexivity].
    + now exists [].
Qed.

Lemma dropWhile_head p (s : jsstring) :
  match dropWhile p s with
  | [] => True
  | c :: _ => p c = false
  end.
Proof.
  induction s as [|c s IH]; simpl; [exact I|].
  destruct (p c) eqn:E; [exact IH | exact E].
Qed.

Lemma dropWhileEnd_decompose p (s : jsstring) :
  exists r, s = dropWhileEnd p s ++ r /\ forallb p r = true.
Proof.
  induction s as [|c l IH] using rev_ind.
  - now exists [].
  - rewrite dropWhileEnd_snoc. destruct (p c) eqn:E.
    + destruct IH as (r & Hr & Hp). exists (r ++ [c]). split.
      * rewrite app_assoc. now rewrite <- Hr.
      * rewrite forallb_app, Hp. simpl. now rewrite E.
    + exists []. now rewrite app_nil_r.
Qed.

(** [trim] removes white space, and only white space, from both ends. *)
Lemma trim_spec (s : jsstring) :
  exists before after,
    s = before ++ trim s ++ after /\
    forallb isWhiteSpace before = true /\
    forallb isWhiteSpace after = true /\
    (trim s = [] \/
     exists first l last,
       hd_error (trim s) = Some first /\ isWhiteSpace first = false /\
       trim s = l ++ [last] /\ isWhiteSpace last = false).
Proof.
  unfold trim.
  destruct (dropWhile_decompose isWhiteSpace s) as (before & Hb & Pb).
  destruct (dropWhileEnd_decompose isWhiteSpace (dropWhile isWhiteSpace s))
    as (after & Ha & Pa).
  exists before, after. split; [now rewrite <- Ha|]. split; [exact Pb|].
  split; [exact Pa|].
  destruct (dropWhileEnd_last isWhiteSpace (dropWhile isWhiteSpace s))
    as [E|(l & c & E & Hc)]; [now left | right].
  pose proof (dropWhile_head isWhiteSpace s) as Hh.
  destruct (dropWhile isWhiteSpace s) as [|h t] eqn:Ed.
  - rewrite dropWhileEnd_nil in E. destruct l; discriminate E.
  - destruct (dropWhileEnd_cons_keep isWhiteSpace h t Hh) as [r' Er].
    exists h, l, c. rewrite Er. split; [reflexivity|].
    split; [exact Hh|]. split; [now rewrite <- Er | exact Hc].
Qed.

(** Stripping removes a run of slashes at the end, and leaves no slash
    there. *)
Lemma stripTrailingSlashes_spec (s : jsstring) :
  exists n,
    s = stripTrailingSlashes s ++ repeat SLASH n /\
    endsWith (stripTrailingSlashes s) (js "/") = false.
Proof.
  unfold stripTrailingSlashes.
  destruct (dropWhileEnd_decompose isSlash s) as (r & Hr & Pr).
  exists (length r). split.
  - rewrite Hr at 1. f_equal.
    clear Hr. induction r as [|c r IH]; [reflexivity|].
    simpl in Pr. apply andb_true_iff in Pr. destruct Pr as [Hc Pr].
    apply N.eqb_eq in Hc. simpl. now rewrite <- IH, Hc.
  - destruct (dropWhileEnd_last isSlash s) as [E|(l & c & E & Hc)]; rewrite E.
    + now apply endsWith_nil.
    + change (js "/") with [SLASH]. rewrite endsWith_snoc. exact Hc.
Qed.

(** *** Idempotence *)

Lemma trim_fix (h : codeunit) (m : jsstring) (c : codeunit) :
  isWhiteSpace h = false -> isWhiteSpace c = false ->
  trim (h :: m ++ [c]) = h :: m ++ [c].
Proof.
  intros Hh Hc. unfold trim. rewrite dropWhile_keep by exact Hh.
  apply (dropWhileEnd_keep isWhiteSpace (h :: m) c Hc).
Qed.

(** A string that starts with [http] and ends with a code unit that is
    neither white space nor a slash is left as it is. *)
Lemma normalize_spec_fix (y r l : jsstring) (c : codeunit) :
  y = js "http" ++ r -> y = l ++ [c] ->
  isWhiteSpace c = false -> isSlash c = false ->
  normalize_spec y = y.
Proof.
  intros Hhttp Hlast Hws Hsl.
  assert (Htrim : trim y = y).
  { destruct l as [|a m].
    - rewrite Hlast in Hhttp. discriminate Hhttp.
    - rewrite Hlast in Hhttp. injection Hhttp as -> _.
      rewrite Hlast. now apply trim_fix. }
  unfold normalize_spec. rewrite Htrim.
  assert (Hstrip : stripTrailingSlashes y = y).
  { rewrite Hlast. now apply dropWhileEnd_keep. }
  rewrite Hstrip. rewrite Hhttp at 1. now rewrite startsWith_app.
Qed.

(** The result of the normaliser starts with [http] and ends as the
    trimmed, slash-stripped input does. *)
Lemma normalize_spec_shape (x : jsstring) :
  let t := stripTrailingSlashes (trim x) in
  (exists r, normalize_spec x = js "http" ++ r) /\
  (forall l c, t = l ++ [c] -> exists l', normalize_spec x = l' ++ [c]).
Proof.
  intros t. unfold normalize_spec. fold t.
  destruct (startsWith t (js "http")) eqn:E.
  - split.
    + now apply startsWith_inv.
    + intros l c ->. now exists l.
  - split.
    + now exists (js "s://" ++ t).
    + intros l c ->. exists (js "https://" ++ l). now rewrite app_assoc.
Qed.

Lemma normalizeUrl_idempotent_if (x l : jsstring) (c : codeunit) :
  stripTrailingSlashes (trim x) = l ++ [c] ->
  isWhiteSpace c = false ->
  normalizeUrl (normalizeUrl x) = normalizeUrl x.
Proof.
  intros Ht Hws. rewrite !normalizeUrl_refines.
  destruct (normalize_spec_shape x) as [[r Hr] Hl].
  destruct (Hl l c Ht) as [l' Hl'].
  apply normalize_spec_fix with (r := r) (l := l') (c := c); [exact Hr|exact Hl'|exact Hws|].
  destruct (dropWhileEnd_last isSlash (trim x)) as [E|(l0 & c0 & E & Hc0)];
    unfold stripTrailingSlashes in Ht; rewrite E in Ht.
  - destruct l; discriminate Ht.
  - apply app_inj_tail in Ht. destruct Ht as [_ ->]. exact Hc0.
Qed.

(** When the trimmed, slash-stripped input ends with white space, the second
    pass trims it away, and the result differs. *)
Lemma normalize_spec_shrinks (y r l : jsstring) (c : codeunit) :
  y = js "http" ++ r -> y = l ++ [c] -> isWhiteSpace c = true ->
  normalize_spec y <> y.
Proof.
  intros Hhttp Hlast Hws Heq.
  assert (Hdrop : dropWhile isWhiteSpace y = y).
  { rewrite Hhttp. reflexivity. }
  assert (Htrim : trim y = dropWhileEnd isWhiteSpace l).
  { unfold trim. rewrite Hdrop, Hlast, dropWhileEnd_snoc. now rewrite Hws. }
  assert (Hpre : exists rest, y = stripTrailingSlashes (trim y) ++ rest /\ rest <> []).
  { rewrite Htrim.
    destruct (dropWhileEnd_prefix isWhiteSpace l) as [r1 E1].
    destruct (dropWhileEnd_prefix isSlash (dropWhileEnd isWhiteSpace l)) as [r2 E2].
    exists (r2 ++ r1 ++ [c]). split.
    - unfold stripTrailingSlashes. rewrite Hlast.
      rewrite app_assoc, (app_assoc _ r1). rewrite <- E2.
      now rewrite <- E1.
    - intros N. destruct r2; [destruct r1|]; discriminate N. }
  destruct Hpre as (rest & Hy & Hrest).
  unfold normalize_spec in Heq.
  set (t' := stripTrailingSlashes (trim y)) in *.
  destruct (startsWith t' (js "http")) eqn:Est.
  - assert (Heq' : t' ++ [] = t' ++ rest).
    { rewrite app_nil_r. transitivity y; [exact Heq | exact Hy]. }
    apply app_inv_head in Heq'. now subst rest.
  - assert (Hlen : length t' < 4).
    { destruct (Nat.lt_ge_cases (length t') 4) as [L|L]; [exact L|exfalso].
      assert (F : firstn 4 y = firstn 4 t').
      { rewrite Hy at 1. rewrite firstn_app.
        replace (4 - length t') with 0 by lia. simpl. apply app_nil_r. }
      rewrite Hhttp in F. simpl in F.
      unfold startsWith in Est. apply jsstring_eqb_false in Est.
      apply Est. simpl. now rewrite <- F. }
    assert (Hy' : y = js "https://" ++ t') by (now symmetry).
    assert (Ht' : t' = firstn (length t') y).
    { rewrite Hy at 1. rewrite firstn_app, firstn_all, Nat.sub_diag.
      simpl. now rewrite app_nil_r. }
    rewrite Hy' in Ht'.
    destruct t' as [|a [|b [|d [|e t'']]]]; simpl in Ht', Hlen; try lia.
    + rewrite Hlast in Hy'. simpl in Hy'.
      change [104; 116; 116; 112; 115; 58; 47; 47]%N
        with ([104; 116; 116; 112; 115; 58; 47]%N ++ [47%N]) in Hy'.
      apply app_inj_tail in Hy'. destruct Hy' as [_ ->]. discriminate Hws.
    + injection Ht' as ->. rewrite Hlast in Hy'. simpl in Hy'.
      change [104; 116; 116; 112; 115; 58; 47; 47; 104]%N
        with ([104; 116; 116; 112; 115; 58; 47; 47]%N ++ [104%N]) in Hy'.
      apply app_inj_tail in Hy'. destruct Hy' as [_ ->]. discriminate Hws.
    + injection Ht' as -> ->. rewrite Hlast in Hy'. simpl in Hy'.
      change [104; 116; 116; 112; 115; 58; 47; 47; 104; 116]%N
        with ([104; 116; 116; 112; 115; 58; 47; 47; 104]%N ++ [116%N]) in Hy'.
      apply app_inj_tail in Hy'. destruct Hy' as [_ ->]. discriminate Hws.
    + injection Ht' as -> -> ->. rewrite Hlast in Hy'. simpl in Hy'.
      change [104; 116; 116; 112; 115; 58; 47; 47; 104; 116; 116]%N
        with ([104; 116; 116; 112; 115; 58; 47; 47; 104; 116]%N ++ [116%N]) in Hy'.
      apply app_inj_tail in Hy'. destruct Hy' as [_ ->]. discriminate Hws.
Qed.

(** C9, as the code has it: a second pass of the normaliser changes nothing
    exactly when the trimmed, slash-stripped input is not empty and does not
    end with white space. *)
Theorem normalizeUrl_idempotent_iff (x : jsstring) :
  normalizeUrl (normalizeUrl x) = normalizeUrl x <->
  exists l c, stripTrailingSlashes (trim x) = l ++ [c] /\ isWhiteSpace c = false.
Proof.
  split.
  - intros H. rewrite !normalizeUrl_refines in H.
    destruct (empty_or_last (stripTrailingSlashes (trim x))) as [E|(l & c & E)].
    + exfalso. unfold normalize_spec in H at 2 3. rewrite E in H.
      vm_compute in H. discriminate H.
    + exists l, c. split; [exact E|].
      destruct (isWhiteSpace c) eqn:Hws; [exfalso|reflexivity].
      destruct (normalize_spec_shape x) as [[r Hr] Hl].
      destruct (Hl l c E) as [l' Hl'].
      exact (@normalize_spec_shrinks _ r l' c Hr Hl' Hws H).
  - intros (l & c & E & Hws). exact (@normalizeUrl_idempotent_if x l c E Hws).
Qed.

(** C9 as stated fails: the empty input is normalised to [https://], and
    that to [https:]. *)
Lemma normalizeUrl_not_idempotent :
  normalizeUrl (js "") = js "https://" /\
  normalizeUrl (normalizeUrl (js "")) = js "https:" /\
  ~ (forall x : jsstring, normalizeUrl (normalizeUrl x) = normalizeUrl x).
Proof.
  split; [reflexivity|]. split; [reflexivity|].
  intros H. specialize (H (js "")). vm_compute in H. discriminate H.
Qed.

(** A slash after white space exposes the white space to the second pass. *)
Example normalizeUrl_twice_space_slash :
  normalizeUrl (js "a /") = js "https://a " /\
  normalizeUrl (normalizeUrl (js "a /")) = js "https://a".
Proof. split; reflexivity. Qed.

Example normalizeUrl_twice_plain :
  normalizeUrl (normalizeUrl (js " example.com/ ")) = normalizeUrl (js " example.com/ ").
Proof. reflexivity. Qed.

(** ** Relay fetcher *)

Section ProxyLoop.

Variable rt : Runtime.
Variable enc : jsstring.

Lemma proxyLoop_cons (p : jsstring) (rest : list jsstring)
    (lastError : option JsError) (log : Log) :
  proxyLoop rt enc (p :: rest) lastError log
  = match fetch rt (length log) (p ++ enc) with
    | Resolved response =>
        if ok response then (Ok response, log ++ [p ++ enc])
        else proxyLoop rt enc rest
               (Some (newError (js "Proxy returned status "
                                ++ numberToString (resp_status response))))
               (log ++ [p ++ enc])
    | Rejected e => proxyLoop rt enc rest (Some e) (log ++ [p ++ enc])
    end.
Proof.
  cbn [proxyLoop]. unfold bind, doFetch.
  destruct (fetch rt (length log) (p ++ enc)) as [response|e]; [|reflexivity].
  now destruct (ok response).
Qed.

(** The loop stops at the first relay that answers with a success status and
    returns that response; otherwise it tries every relay and throws the
    error of the last one. *)
Lemma proxyLoop_spec (proxies : list jsstring) :
  forall (lastError : option JsError) (log : Log),
    (exists k response,
        k < length proxies /\
        (forall i, i < k -> attemptFails (attemptOutcome rt enc log proxies i) = true) /\
        attemptOutcome rt enc log proxies k = Resolved response /\
        ok response = true /\
        proxyLoop rt enc proxies lastError log
        = (Ok response, log ++ List.map (fun p => p ++ enc) (firstn (S k) proxies)))
    \/
    ((forall i, i < length proxies -> attemptFails (attemptOutcome rt enc log proxies i) = true) /\
     proxyLoop rt enc proxies lastError log
     = (Throw match proxies with
              | [] => match lastError with
                      | Some e => e
                      | None => newError ALL_PROXIES_FAILED
                      end
              | _ => errorOf (attemptOutcome rt enc log proxies (length proxies - 1))
              end,
        log ++ List.map (fun p => p ++ enc) proxies)).
Proof.
  induction proxies as [|p rest IH]; intros lastError log.
  - right. split; [intros i Hi; inversion Hi|].
    simpl. unfold throw. now rewrite app_nil_r.
  - assert (Hshift : forall i, attemptOutcome rt enc (log ++ [p ++ enc]) rest i
                               = attemptOutcome rt enc log (p :: rest) (S i)).
    { intros i. unfold attemptOutcome. rewrite length_app. simpl.
      now replace (length log + 1 + i) with (length log + S i) by lia. }
    assert (Hhead : attemptOutcome rt enc log (p :: rest) 0 = fetch rt (length log) (p ++ enc)).
    { unfold attemptOutcome. simpl. now rewrite Nat.add_0_r. }
    assert (Hlog : forall l : list jsstring,
               (log ++ [p ++ enc]) ++ List.map (fun q => q ++ enc) l
               = log ++ List.map (fun q => q ++ enc) (p :: l)).
    { intros l. now rewrite <- app_assoc. }
    rewrite proxyLoop_cons.
    destruct (fetch rt (length log) (p ++ enc)) as [response|e] eqn:Ef.
    + destruct (ok response) eqn:Eok.
      * left. exists 0, response. repeat split.
        -- simpl. lia.
        -- intros i Hi. inversion Hi.
        -- now rewrite Hhead.
        -- exact Eok.
      * specialize (IH (Some (newError (js "Proxy returned status "
                                        ++ numberToString (resp_status response))))
                       (log ++ [p ++ enc])).
        destruct IH as [(k & r & Hk & Hfail & Hout & Hok & Hrun)|(Hfail & Hrun)].
        -- left. exists (S k), r. repeat split.
           ++ simpl. lia.
           ++ intros [|i] Hi.
              ** rewrite Hhead. simpl. now rewrite Eok.
              ** rewrite <- Hshift. apply Hfail. lia.
           ++ now rewrite <- Hshift.
           ++ exact Hok.
           ++ rewrite Hrun. now rewrite Hlog.
        -- right. split.
           ++ intros [|i] Hi.
              ** rewrite Hhead. simpl. now rewrite Eok.
              ** rewrite <- Hshift. apply Hfail. simpl in Hi. lia.
           ++ rewrite Hrun, Hlog. f_equal. f_equal.
              destruct rest as [|q rest'].
              ** simpl. now rewrite Hhead.
              ** rewrite Hshift. simpl. now rewrite Nat.sub_0_r.
    + specialize (IH (Some e) (log ++ [p ++ enc])).
      destruct IH as [(k & r & Hk & Hfail & Hout & Hok & Hrun)|(Hfail & Hrun)].
      * left. exists (S k), r. repeat split.
        -- simpl. lia.
        -- intros [|i] Hi.
           ++ now rewrite Hhead.
           ++ rewrite <- Hshift. apply Hfail. lia.
        -- now rewrite <- Hshift.
        -- exact Hok.
        -- rewrite Hrun. now rewrite Hlog.
      * right. split.
        -- intros [|i] Hi.
           ++ now rewrite Hhead.
           ++ rewrite <- Hshift. apply Hfail. simpl in Hi. lia.
        -- rewrite Hrun, Hlog. f_equal. f_equal.
           destruct rest as [|q rest'].
           ++ simpl. now rewrite Hhead.
           ++ rewrite Hshift. simpl. now rewrite Nat.sub_0_r.
Qed.

End ProxyLoop.

(** The loop on the fixed relay list, from the start of [fetchWithProxy]. *)
Lemma fetchWithProxy_cases (rt : Runtime) (targetUrl : jsstring) (log : Log) :
  let outcome i :=
    fetch rt (length log + i) (relayUrl rt targetUrl (nth i PROXIES [])) in
  (exists k response,
      k < length PROXIES /\
      (forall i, i < k -> attemptFails (outcome i) = true) /\
      outcome k = Resolved response /\
      ok response = true /\
      fetchWithProxy rt targetUrl log
      = (Ok response,
         log ++ List.map (relayUrl rt targetUrl) (firstn (S k) PROXIES)))
  \/
  ((forall i, i < length PROXIES -> attemptFails (outcome i) = true) /\
   fetchWithProxy rt targetUrl log
   = (Throw (errorOf (outcome (length PROXIES - 1))),
      log ++ List.map (relayUrl rt targetUrl) PROXIES)).
Proof.
  exact (proxyLoop_spec rt (encodeURIComponent rt (cacheBust rt targetUrl))
           PROXIES None log).
Qed.


(** ** Numbers *)

Lemma round_spec (x : R) (z : Z) :
  (IZR z - / 2 <= x < IZR z + / 2)%R -> round x = z.
Proof.
  intros [H1 H2]. unfold round. symmetry. apply Int_part_spec. lra.
Qed.

Lemma round_IZR (z : Z) : round (IZR z) = z.
Proof. apply round_spec. lra. Qed.

Lemma sumR_cons (x : R) (l : list R) : sumR (x :: l) = (x + sumR l)%R.
Proof. reflexivity. Qed.

Lemma fold_left_nadd (l : list R) (a : R) :
  fold_left (fun x y => x + y)%num (List.map Fin l) (Fin a) = Fin (a + sumR l).
Proof.
  revert a. induction l as [|g l IH]; intros a; simpl.
  - f_equal. lra.
  - rewrite IH. f_equal. lra.
Qed.

Lemma fold_left_squares (m : R) (l : list R) (a : R) :
  fold_left (fun x y => x + Math_pow (y - Fin m) 2)%num (List.map Fin l) (Fin a)
  = Fin (a + sumR (List.map (fun g => (g - m) ^ 2)%R l)).
Proof.
  revert a. induction l as [|g l IH]; intros a.
  - simpl. f_equal. ring.
  - cbn [List.map fold_left nadd nsub Math_pow lift1 lift2].
    rewrite IH, sumR_cons. f_equal. ring.
Qed.

Lemma sumR_squares_nonneg (m : R) (l : list R) :
  (0 <= sumR (List.map (fun g => (g - m) ^ 2) l))%R.
Proof.
  induction l as [|g l IH]; [simpl; lra|].
  cbn [List.map]. rewrite sumR_cons.
  pose proof (pow2_ge_0 (g - m)). lra.
Qed.

Lemma clamp_max_min (z : Z) :
  Math_max (Fin 0) (Math_min (Fin 100) (ofZ z)) = ofZ (clamp 0 100 z).
Proof.
  unfold Math_max, Math_min, ofZ, lift2, clamp. f_equal.
  destruct (Z.ltb_spec z 0) as [L|L].
  - apply IZR_lt in L. rewrite Rmin_right by lra. apply Rmax_left. lra.
  - apply IZR_le in L. destruct (Z.ltb_spec 100 z) as [U|U].
    + apply IZR_lt in U. rewrite Rmin_left by lra. apply Rmax_right. lra.
    + apply IZR_le in U. rewrite Rmin_right by lra. apply Rmax_right. lra.
Qed.

(** ** Consistency score *)

Lemma map_adjacent {A B : Type} (f : A -> A -> B) (d : A) (l : list A) :
  List.map (fun i => f (nth i l d) (nth (i + 1) l d)) (seq 0 (length l - 1))
  = adjacent f l.
Proof.
  induction l as [|a [|b l] IH]; [reflexivity | reflexivity |].
  replace (length (a :: b :: l) - 1) with (S (length (b :: l) - 1))
    by (simpl; lia).
  rewrite <- cons_seq, <- seq_shift, map_cons, map_map.
  change (adjacent f (a :: b :: l)) with (f a b :: adjacent f (b :: l)).
  rewrite <- IH. reflexivity.
Qed.

Lemma adjacent_length {A B : Type} (f : A -> A -> B) (l : list A) :
  length (adjacent f l) = length l - 1.
Proof.
  induction l as [|a [|b l] IH]; [reflexivity | reflexivity |].
  change (adjacent f (a :: b :: l)) with (f a b :: adjacent f (b :: l)).
  simpl length in *. rewrite IH. lia.
Qed.

(** On valid, newest-first dates the gaps of the loop are the day gaps. *)
Lemma gaps_of_valid (ts : list Z) :
  newestFirst ts ->
  adjacent (fun a b => Math_abs (getTime a - getTime b) / MS_PER_DAY)%num
           (List.map ValidDate ts)
  = List.map Fin (dayGaps ts).
Proof.
  unfold dayGaps.
  induction ts as [|a [|b l] IH]; intros H; [reflexivity | reflexivity |].
  destruct H as [Hab Hrest].
  change (List.map ValidDate (a :: b :: l))
    with (ValidDate a :: List.map ValidDate (b :: l)).
  change (adjacent ?f (ValidDate a :: List.map ValidDate (b :: l)))
    with (f (ValidDate a) (ValidDate b) :: adjacent f (List.map ValidDate (b :: l))).
  rewrite (IH Hrest).
  change (adjacent ?f (a :: b :: l)) with (f a b :: adjacent f (b :: l)).
  cbn [List.map]. f_equal.
  cbn [getTime ofZ nsub ndiv lift2 Math_abs lift1 MS_PER_DAY]. f_equal.
  unfold msPerDay. rewrite Rabs_right; [reflexivity|].
  apply IZR_le in Hab. lra.
Qed.

Lemma mean_of_loop (gaps : list R) :
  (fold_left (fun a b => a + b) (List.map Fin gaps) (Fin 0)
   / ofNat (length gaps))%num
  = Fin (mean gaps).
Proof.
  rewrite fold_left_nadd. cbn [ofNat ndiv lift2]. unfold mean.
  f_equal. f_equal. lra.
Qed.

Lemma stdDev_of_loop (gaps : list R) :
  0 < length gaps ->
  Math_sqrt
    (fold_left (fun a b => a + Math_pow (b - Fin (mean gaps)) 2)
       (List.map Fin gaps) (Fin 0)
     / ofNat (length gaps))%num
  = Fin (populationStdDev gaps).
Proof.
  intros Hlen. rewrite fold_left_squares. cbn [ofNat ndiv lift2 Math_sqrt].
  rewrite Rplus_0_l.
  destruct (Rlt_dec _ 0) as [Hneg|_]; [exfalso|reflexivity].
  revert Hneg. apply Rle_not_lt.
  apply Rmult_le_pos; [apply sumR_squares_nonneg|].
  apply Rlt_le, Rinv_0_lt_compat, lt_0_INR. exact Hlen.
Qed.

Lemma cv_of_loop (gaps : list R) :
  (if strictEq (Fin (mean gaps)) (Fin 0) then Fin 0
   else (Fin (populationStdDev gaps) / Fin (mean gaps))%num)
  = Fin (coefficientOfVariation gaps).
Proof.
  unfold strictEq, coefficientOfVariation.
  now destruct (Req_dec_T (mean gaps) 0).
Qed.

Lemma gt_Fin (x y : R) : gt (Fin x) (Fin y) = if Rlt_dec y x then true else false.
Proof. reflexivity. Qed.

(** The formula in exact arithmetic: with real numbers for the doubles of
    the code, the score of a newest-first list of dates is 50 when there are
    fewer than three dates, and otherwise [100 - cv * 66 - p], rounded and
    clamped to [0,100], with [cv] the population standard deviation of the
    day gaps over their mean (0 when the mean is 0) and [p] the cumulative
    staleness penalty of 20 past 90 days and 40 more past 365 days.  The
    code itself rounds every operation, and its value can differ where the
    exact score is at a rounding boundary. *)
Theorem calculateConsistencyScore_correct (now : Z) (ts : list Z) :
  newestFirst ts ->
  calculateConsistencyScore now (List.map ValidDate ts)
  = ofZ (consistency_spec now ts).
Proof.
  intros Hsorted. unfold calculateConsistencyScore, consistency_spec.
  cbv zeta.
  rewrite (map_adjacent
             (fun a b => Math_abs (getTime a - getTime b) / MS_PER_DAY)%num
             InvalidDate (List.map ValidDate ts)).
  rewrite (@gaps_of_valid ts Hsorted).
  rewrite !length_map.
  destruct (Nat.ltb_spec (length ts) 3) as [Hlen|Hlen]; [reflexivity|].
  assert (Hn : length (dayGaps ts) = length ts - 1) by apply adjacent_length.
  destruct (Nat.eqb_spec (length (dayGaps ts)) 0) as [E|_]; [lia|].
  set (gaps := dayGaps ts) in *.
  rewrite (mean_of_loop gaps).
  rewrite (stdDev_of_loop gaps) by lia.
  rewrite (cv_of_loop gaps).
  destruct ts as [|t0 ts']; [simpl in Hlen; lia|].
  cbn [List.map nth hd getTime ofZ nsub nmul ndiv lift2 MS_PER_DAY].
  fold msPerDay.
  set (elapsed := ((IZR now - IZR t0) / msPerDay)%R).
  rewrite !gt_Fin. unfold stalenessPenalty.
  set (cv := coefficientOfVariation gaps).
  destruct (Rlt_dec 90 elapsed), (Rlt_dec 365 elapsed);
    cbn [nsub lift2 Math_round]; rewrite clamp_max_min;
    do 3 f_equal; lra.
Qed.

(** ** Consistency score, in double precision *)

Lemma fold_left_map_r {A B C : Type} (f : A -> C -> A) (g : B -> C)
    (l : list B) (a : A) :
  fold_left (fun x y => f x (g y)) l a = fold_left f (List.map g l) a.
Proof.
  revert a. induction l as [|b l IH]; intros a; [reflexivity|].
  cbn [fold_left List.map]. apply IH.
Qed.

Lemma nth_0_hd {A : Type} (l : list A) (d : A) : nth 0 l d = hd d l.
Proof. now destruct l. Qed.

(** C1, as the code has it: fewer than three dates give exactly 50, whatever
    the dates; three dates or more give the formula of the specification
    with every operation in double precision: the gaps of adjacent dates in
    days, their mean (the sum from the left over the count), the population
    standard deviation over the mean as [cv] (0 when the mean is 0),
    [100 - cv * 66], 20 off past 90 days since the first date and then 40
    more past 365 days, [Math.round], the clamp to [0,100]. *)
Theorem calculateConsistencyScore_in_doubles (now : Z) (dates : list Date) :
  (length dates < 3 ->
   Double.calculateConsistencyScore now dates = Double.ofZ 50) /\
  (3 <= length dates ->
   Double.calculateConsistencyScore now dates = DoubleFormula.consistency now dates).
Proof.
  unfold Double.calculateConsistencyScore. split; intros Hlen.
  - destruct (Nat.ltb_spec (length dates) 3) as [_|F]; [reflexivity | lia].
  - destruct (Nat.ltb_spec (length dates) 3) as [F|_]; [lia|].
    cbv zeta.
    rewrite (map_adjacent
               (fun a b =>
                  PrimFloat.div
                    (Double.Math_abs
                       (PrimFloat.sub (Double.getTime a) (Double.getTime b)))
                    Double.MS_PER_DAY)
               InvalidDate dates).
    change (adjacent _ dates) with (DoubleFormula.dayGaps dates).
    set (gaps := DoubleFormula.dayGaps dates).
    assert (Hn : length gaps = length dates - 1) by apply adjacent_length.
    destruct (Nat.eqb_spec (length gaps) 0) as [E|_]; [lia|].
    rewrite nth_0_hd.
    unfold DoubleFormula.consistency, DoubleFormula.coefficientOfVariation,
      DoubleFormula.populationStdDev, DoubleFormula.penalised,
      DoubleFormula.clamp, DoubleFormula.mean, DoubleFormula.sum.
    fold gaps. cbv zeta.
    rewrite <- (fold_left_map_r PrimFloat.add
                  (fun g =>
                     PrimFloat.mul
                       (PrimFloat.sub g
                          (PrimFloat.div (fold_left PrimFloat.add gaps PrimFloat.zero)
                                         (Double.ofNat (length gaps))))
                       (PrimFloat.sub g
                          (PrimFloat.div (fold_left PrimFloat.add gaps PrimFloat.zero)
                                         (Double.ofNat (length gaps)))))
                  gaps).
    reflexivity.
Qed.

(** ** Quality score *)

Lemma round_bounds (x : R) (lo hi : Z) :
  (IZR lo <= x <= IZR hi)%R -> (lo <= round x <= hi)%Z.
Proof.
  intros [Hlo Hhi]. unfold round.
  destruct (base_Int_part (x + / 2)) as [H1 H2].
  set (z := Int_part (x + / 2)) in *.
  assert (L : (IZR (lo - 1) < IZR z)%R) by (rewrite minus_IZR; lra).
  assert (U : (IZR z < IZR (hi + 1))%R) by (rewrite plus_IZR; lra).
  apply lt_IZR in L. apply lt_IZR in U. lia.
Qed.

Lemma Rmin_100_range (x : R) : (0 <= x)%R -> (0 <= Rmin 100 x <= 100)%R.
Proof.
  intros H. split.
  - apply Rmin_glb; lra.
  - apply Rmin_l.
Qed.

Lemma ln_10_pos : (0 < ln 10)%R.
Proof. rewrite <- ln_1. apply ln_increasing; lra. Qed.

Lemma log10_nonneg (x : R) : (1 <= x)%R -> (0 <= ln x / ln 10)%R.
Proof.
  intros H. apply Rmult_le_pos.
  - rewrite <- ln_1. destruct (Req_dec 1 x) as [<-|N]; [lra|].
    apply Rlt_le, ln_increasing; lra.
  - apply Rlt_le, Rinv_0_lt_compat, ln_10_pos.
Qed.

(** C2 at a first-post date in the future: the longevity term is not bounded
    below, and the score is negative. *)
Theorem calculateQualityScore_future_first_post (clock : Z) :
  calculateQualityScore clock (statsOfFutureBlog clock) = ofZ (-192).
Proof.
  unfold calculateQualityScore, statsOfFutureBlog.
  cbn [avgWordsPerPost avgImagesPerPost totalPosts consistencyScore
       avgCommentsPerPost followersCount firstPostDate totalPages
       getTime ofZ nadd nsub nmul ndiv lift2 Math_min gt strictEq Math_round].
  destruct (Rlt_dec 0 0) as [F|_]; [lra|].
  destruct (Req_dec_T 0 0) as [_|F]; [|lra].
  cbn [nadd nsub nmul ndiv lift2 Math_round ofZ]. do 2 f_equal.
  rewrite !plus_IZR, !mult_IZR.
  replace (Rmin 100 (0 / 800 * 100)) with 0%R
    by (rewrite Rmin_right; lra).
  replace (Rmin 100 (0 / 3 * 100)) with 0%R
    by (rewrite Rmin_right; lra).
  replace (Rmin 100 (0 / 100 * 100)) with 0%R
    by (rewrite Rmin_right; lra).
  replace (Rmin 100 (0 * 10)) with 0%R
    by (rewrite Rmin_right; lra).
  replace (Rmin 100 (0 * 20)) with 0%R
    by (rewrite Rmin_right; lra).
  replace ((IZR clock - (IZR clock + 100 * (1000 * 60 * 60 * 24 * 365)))
           / (1000 * 60 * 60 * 24 * 365))%R with (-100)%R by (field; lra).
  rewrite Rmin_right by lra.
  apply round_spec. lra.
Qed.

(** X7: On plausible statistics the score is an integer of [0,100]. *)
Lemma calculateQualityScore_range (clock : Z) (stats : BlogStats) :
  plausibleStats clock stats ->
  exists z, calculateQualityScore clock stats = ofZ z /\ (0 <= z <= 100)%Z.
Proof.
  intros [(w & Ew & Hw) (i & Ei & Hi) (p & Ep & Hp) (c & Ec & Hc)
          (g & Eg & Hg) (k & Ek & Hk) (n & En) (t & Et & Ht)].
  unfold calculateQualityScore. rewrite Ew, Ei, Ep, Ec, Eg, Ek, En, Et.
  cbn [getTime ofZ ofNat nadd nsub nmul ndiv lift2 Math_min gt strictEq
       Math_log10].
  set (ws := Rmin 100 (w / 800 * 100)).
  set (ims := Rmin 100 (i / 3 * 100)).
  set (ps := Rmin 100 (p / 100 * 100)).
  set (cs := Rmin 100 (c * 10)).
  set (gs := Rmin 100 (g * 20)).
  set (ls := Rmin 100 ((IZR clock - IZR t) / (1000 * 60 * 60 * 24 * 365) * 20)).
  assert (Hws : (0 <= ws <= 100)%R) by (apply Rmin_100_range; lra).
  assert (His : (0 <= ims <= 100)%R) by (apply Rmin_100_range; lra).
  assert (Hps : (0 <= ps <= 100)%R) by (apply Rmin_100_range; lra).
  assert (Hcs : (0 <= cs <= 100)%R) by (apply Rmin_100_range; lra).
  assert (Hgs : (0 <= gs <= 100)%R) by (apply Rmin_100_range; lra).
  assert (Hls : (0 <= ls <= 100)%R).
  { apply Rmin_100_range. apply IZR_le in Ht.
    apply Rmult_le_pos; [|lra].
    apply Rmult_le_pos; [lra|].
    apply Rlt_le, Rinv_0_lt_compat. lra. }
  destruct (Rlt_dec 0 (INR n)) as [Hpos|Hzero].
  - destruct (Req_dec_T (INR n) 0) as [E|_]; [lra|].
    cbn [nadd nsub nmul ndiv lift2 Math_min Math_round].
    set (fs := Rmin 100 (ln (INR n) / ln 10 * 25)).
    assert (Hfs : (0 <= fs <= 100)%R).
    { apply Rmin_100_range.
      assert (1 <= INR n)%R.
      { destruct n as [|n']; [simpl in Hpos; lra|].
        rewrite S_INR. pose proof (pos_INR n'). lra. }
      pose proof (log10_nonneg H). lra. }
    eexists. split; [reflexivity|].
    apply round_bounds. simpl IZR. lra.
  - destruct (Req_dec_T (INR n) 0) as [_|N].
    + cbn [nadd nsub nmul ndiv lift2 Math_min Math_round].
      eexists. split; [reflexivity|].
      apply round_bounds. simpl IZR. lra.
    + exfalso. pose proof (pos_INR n). lra.
Qed.

(** ** Effects *)

Lemma tryCatch_ret_total {A : Type} (m : M A) (d : A) (log : Log) :
  exists a, tryCatch m (fun _ => ret d) log = (Ok a, logAfter m log).
Proof.
  unfold tryCatch, logAfter, ret.
  destruct (m log) as [[a|e] log']; simpl; eauto.
Qed.

Lemma logAfter_tryCatch_ret {A : Type} (m : M A) (d : A) (log : Log) :
  logAfter (tryCatch m (fun _ => ret d)) log = logAfter m log.
Proof.
  unfold tryCatch, logAfter, ret. now destruct (m log) as [[a|e] log'].
Qed.

Lemma bind_ok_inv {A B : Type} (m : M A) (k : A -> M B) (log log' : Log) (b : B) :
  bind m k log = (Ok b, log') ->
  exists a log1, m log = (Ok a, log1) /\ k a log1 = (Ok b, log').
Proof.
  unfold bind. destruct (m log) as [[a|e] log1]; intros H.
  - now exists a, log1.
  - discriminate H.
Qed.

Lemma logAfter_bind_ok {A B : Type} (m : M A) (k : A -> M B)
    (log log1 : Log) (a : A) :
  m log = (Ok a, log1) -> logAfter (bind m k) log = logAfter (k a) log1.
Proof. intros H. unfold logAfter, bind. now rewrite H. Qed.

Lemma toISOString_ok_inv (d d' : Date) (log log' : Log) :
  toISOString d log = (Ok d', log') -> d' = d /\ log' = log.
Proof.
  destruct d; simpl; unfold throw, ret; intros H; inversion H; auto.
Qed.

Lemma toISOString_log (d : Date) (log : Log) : logAfter (toISOString d) log = log.
Proof. now destruct d. Qed.

(** ** Relay fetcher and feed reader: requests issued *)

(** Any fetch through the relays starts with a request to the first relay. *)
Lemma fetchWithProxy_first_request (rt : Runtime) (targetUrl : jsstring) (log : Log) :
  exists rest,
    logAfter (fetchWithProxy rt targetUrl) log
    = log ++ relayUrl rt targetUrl (nth 0 PROXIES []) :: rest.
Proof.
  unfold logAfter.
  destruct (fetchWithProxy_cases rt targetUrl log)
    as [(k & response & _ & _ & _ & _ & E)|(_ & E)]; rewrite E; simpl snd.
  - destruct k; eexists; reflexivity.
  - eexists. reflexivity.
Qed.

Lemma fetchJsonFeed_log (rt : Runtime) (baseUrl : jsstring) (t : FeedType)
    (maxResults startIndex : Z) (log : Log) :
  logAfter (fetchJsonFeed rt baseUrl t maxResults startIndex) log
  = logAfter (fetchWithProxy rt (feedUrlOf baseUrl t maxResults startIndex)) log.
Proof.
  unfold logAfter, fetchJsonFeed, bind.
  destruct (fetchWithProxy rt _ log) as [[response|e] log']; [|reflexivity].
  destruct (resp_json response); try reflexivity.
  now destruct (_ || _).
Qed.

Lemma fetchJsonFeed_first_request (rt : Runtime) (baseUrl : jsstring) (t : FeedType)
    (maxResults startIndex : Z) (log : Log) :
  exists rest,
    logAfter (fetchJsonFeed rt baseUrl t maxResults startIndex) log
    = log ++ relayUrl rt (feedUrlOf baseUrl t maxResults startIndex)
                      (nth 0 PROXIES []) :: rest.
Proof. rewrite fetchJsonFeed_log. apply fetchWithProxy_first_request. Qed.

(** ** Orchestrator *)

Lemma assembleAnalysis_log (rt : Runtime) (postsFeed : Feed) (html : jsstring)
    (pagesFeed : option Feed) (creation : option jsstring) (log : Log) :
  logAfter (assembleAnalysis rt postsFeed html pagesFeed creation) log = log.
Proof.
  unfold logAfter, assembleAnalysis, bind.
  destruct (firstPostDateOf _ _ _); [reflexivity|]. simpl.
  destruct (if (0 <? _)%nat then _ else _); reflexivity.
Qed.

Lemma nth_last_default {A : Type} (l : list A) (d d' : A) :
  l <> [] -> nth (length l - 1) l d = last l d'.
Proof.
  induction l as [|a [|b l] IH]; intros H; [congruence | reflexivity |].
  change (last (a :: b :: l) d') with (last (b :: l) d').
  rewrite <- IH by discriminate.
  simpl length. replace (S (S (length l)) - 1) with (S (S (length l) - 1)) by lia.
  reflexivity.
Qed.

Lemma fold_tags_flat_map (posts : list BlogPost) (acc : list jsstring) :
  fold_left (fun s p => fold_left Set_add (post_tags p) s) posts acc
  = fold_left Set_add (flat_map post_tags posts) acc.
Proof.
  revert acc. induction posts as [|p posts IH]; intros acc; [reflexivity|].
  simpl. rewrite fold_left_app. apply IH.
Qed.

(** What a successful assembly returns, as far as the post list, the labels
    and the first-post date go. *)
Lemma assembleAnalysis_ok (rt : Runtime) (postsFeed : Feed) (html : jsstring)
    (pagesFeed : option Feed) (creation : option jsstring)
    (log log' : Log) (a : Analysis) :
  assembleAnalysis rt postsFeed html pagesFeed creation log = (Ok a, log') ->
  let entries := entriesOf (Some postsFeed) in
  a_posts a = firstn MAX_RECENT_POSTS (List.map processEntry entries) /\
  a_tags a = firstn 15 (Set_fromArray (allPostTags entries)) /\
  firstPostDate (a_stats a)
  = firstPostDateOf rt creation
      (List.map (fun e => parseDate rt (entry_published e)) entries).
Proof.
  intros H entries. unfold assembleAnalysis in H.
  apply bind_ok_inv in H. destruct H as (firstIso & l1 & H1 & H).
  apply bind_ok_inv in H. destruct H as (lastIso & l2 & H2 & H).
  apply bind_ok_inv in H. destruct H as (buildIso & l3 & H3 & H).
  apply toISOString_ok_inv in H1. destruct H1 as [-> ->].
  unfold ret in H. inversion H; subst a log'. clear H.
  cbn [a_posts a_tags a_stats buildStats firstPostDate].
  fold entries. split; [reflexivity|]. split.
  - rewrite fold_tags_flat_map. unfold Set_fromArray, allPostTags.
    now rewrite flat_map_concat_map, map_map, <- flat_map_concat_map.
  - now rewrite map_map.
Qed.

Lemma analyzeBlogAndFetch_ok_inv (rt : Runtime) (blogUrl : jsstring)
    (log log' : Log) (a : Analysis) :
  analyzeBlogAndFetch rt blogUrl log = (Ok a, log') ->
  analyzeBody rt (normalizeUrl blogUrl) log = (Ok a, log').
Proof.
  unfold analyzeBlogAndFetch, tryCatch.
  destruct (analyzeBody rt (normalizeUrl blogUrl) log) as [[a'|e] l]; [auto|].
  destruct (_ || _); unfold throw; discriminate.
Qed.

Lemma analyzeBlogAndFetch_log (rt : Runtime) (blogUrl : jsstring) (log : Log) :
  logAfter (analyzeBlogAndFetch rt blogUrl) log
  = logAfter (analyzeBody rt (normalizeUrl blogUrl)) log.
Proof.
  unfold logAfter, analyzeBlogAndFetch, tryCatch.
  destruct (analyzeBody rt (normalizeUrl blogUrl) log) as [[a'|e] l]; [reflexivity|].
  now destruct (_ || _).
Qed.

(** The optional history fetch is skipped when the reported total is not
    above 1, and is one feed request otherwise. *)
Lemma fetchCreationDate_skipped (rt : Runtime) (cleanUrl : jsstring)
    (totalPosts : option Z) (log : Log) :
  intGt totalPosts (Some 1%Z) = false ->
  fetchCreationDate rt cleanUrl totalPosts log = (Ok None, log).
Proof.
  unfold fetchCreationDate, intGt. destruct totalPosts as [t|]; [|reflexivity].
  intros H. apply Z.ltb_ge in H.
  destruct (Z.ltb_spec 0 t); [|reflexivity].
  destruct (Z.ltb_spec 1 (Z.min t 500)); [lia|reflexivity].
Qed.

Lemma fetchCreationDate_issued (rt : Runtime) (cleanUrl : jsstring)
    (t : Z) (log : Log) :
  intGt (Some t) (Some 1%Z) = true ->
  logAfter (fetchCreationDate rt cleanUrl (Some t)) log
  = logAfter (fetchJsonFeed rt cleanUrl Posts 1 (Z.min t 500)) log.
Proof.
  unfold fetchCreationDate, intGt. intros H. apply Z.ltb_lt in H.
  destruct (Z.ltb_spec 0 t); [|lia].
  destruct (Z.ltb_spec 1 (Z.min t 500)); [|lia].
  unfold logAfter, bind.
  destruct (fetchJsonFeed rt cleanUrl Posts 1 (Z.min t 500) log) as [[[f|]|e] l];
    reflexivity.
Qed.

(** A successful analysis, step by step. *)
Lemma analyzeBody_ok_inv (rt : Runtime) (cleanUrl : jsstring)
    (log log' : Log) (a : Analysis) :
  analyzeBody rt cleanUrl log = (Ok a, log') ->
  exists postsFeed log1 html pagesFeed creation,
    fetchJsonFeed rt cleanUrl Posts 25 1 log = (Ok (Some postsFeed), log1) /\
    assembleAnalysis rt postsFeed html pagesFeed creation log' = (Ok a, log') /\
    (intGt (reportedTotal (Some postsFeed)) (Some 1%Z) = false -> creation = None).
Proof.
  unfold analyzeBody. intros H.
  apply bind_ok_inv in H. destruct H as ([postsFeed|] & log1 & H1 & H);
    [|discriminate H].
  apply bind_ok_inv in H. destruct H as (html & log2 & H2 & H).
  apply bind_ok_inv in H. destruct H as (pagesFeed & log3 & H3 & H).
  apply bind_ok_inv in H. destruct H as (creation & log4 & H4 & H).
  assert (E : log4 = log').
  { pose proof (assembleAnalysis_log rt postsFeed html pagesFeed creation log4) as L.
    unfold logAfter in L. rewrite H in L. simpl in L. now symmetry. }
  subst log4.
  exists postsFeed, log1, html, pagesFeed, creation.
  split; [exact H1|]. split; [exact H|].
  intros Hskip. unfold tryCatch in H4.
  rewrite (fetchCreationDate_skipped rt cleanUrl _ log3 Hskip) in H4.
  now inversion H4.
Qed.

(** The requests of an analysis whose posts feed arrived: the page of the
    blog, the pages feed, then the optional history fetch. *)
Lemma analyzeBody_log (rt : Runtime) (cleanUrl : jsstring)
    (log log1 : Log) (postsFeed : Feed) :
  fetchJsonFeed rt cleanUrl Posts 25 1 log = (Ok (Some postsFeed), log1) ->
  logAfter (analyzeBody rt cleanUrl) log
  = logAfter (fetchCreationDate rt cleanUrl (reportedTotal (Some postsFeed)))
      (logAfter (fetchJsonFeed rt cleanUrl Pages 10 1)
         (logAfter (fetchHtml rt cleanUrl) log1)).
Proof.
  intros H1. unfold analyzeBody.
  rewrite (@logAfter_bind_ok _ _ _ _ _ _ _ H1).
  destruct (tryCatch_ret_total (fetchHtml rt cleanUrl) [] log1) as [html Ehtml].
  rewrite (@logAfter_bind_ok _ _ _ _ _ _ _ Ehtml).
  destruct (tryCatch_ret_total (fetchJsonFeed rt cleanUrl Pages 10 1) None
              (logAfter (fetchHtml rt cleanUrl) log1)) as [pagesFeed Epages].
  rewrite (@logAfter_bind_ok _ _ _ _ _ _ _ Epages).
  destruct (tryCatch_ret_total
              (fetchCreationDate rt cleanUrl (reportedTotal (Some postsFeed))) None
              (logAfter (fetchJsonFeed rt cleanUrl Pages 10 1)
                 (logAfter (fetchHtml rt cleanUrl) log1))) as [creation Ecre].
  rewrite (@logAfter_bind_ok _ _ _ _ _ _ _ Ecre).
  apply assembleAnalysis_log.
Qed.

(** C4, as the code has it: the history fetch, one post from start index
    [min(totalPosts, 500)], is issued exactly when the reported total exceeds
    1; otherwise the pages feed is the last request, and the first-post date
    of a successful analysis is the date of the oldest post of the local
    sample (the clock reading when there is none). *)
Theorem history_fetch_condition (rt : Runtime) (blogUrl : jsstring)
    (log log1 : Log) (postsFeed : Feed) :
  let cleanUrl := normalizeUrl blogUrl in
  fetchJsonFeed rt cleanUrl Posts 25 1 log = (Ok (Some postsFeed), log1) ->
  let total := reportedTotal (Some postsFeed) in
  let log3 := logAfter (fetchJsonFeed rt cleanUrl Pages 10 1)
                (logAfter (fetchHtml rt cleanUrl) log1) in
  (intGt total (Some 1%Z) = true ->
   exists t rest,
     total = Some t /\
     logAfter (analyzeBlogAndFetch rt blogUrl) log
     = logAfter (fetchJsonFeed rt cleanUrl Posts 1 (Z.min t 500)) log3 /\
     logAfter (analyzeBlogAndFetch rt blogUrl) log
     = log3 ++ relayUrl rt (feedUrlOf cleanUrl Posts 1 (Z.min t 500))
                        (nth 0 PROXIES []) :: rest)
  /\
  (intGt total (Some 1%Z) = false ->
   logAfter (analyzeBlogAndFetch rt blogUrl) log = log3 /\
   forall a log',
     analyzeBlogAndFetch rt blogUrl log = (Ok a, log') ->
     firstPostDate (a_stats a)
     = oldestLocalDate rt (entriesOf (Some postsFeed))).
Proof.
  intros cleanUrl H1 total log3.
  assert (Hlog : logAfter (analyzeBlogAndFetch rt blogUrl) log
                 = logAfter (fetchCreationDate rt cleanUrl total) log3).
  { rewrite analyzeBlogAndFetch_log. now apply analyzeBody_log. }
  split.
  - intros Hgt. destruct total as [t|] eqn:Et; [|discriminate Hgt].
    destruct (fetchJsonFeed_first_request rt cleanUrl Posts 1 (Z.min t 500) log3)
      as [rest Hrest].
    exists t, rest. split; [reflexivity|].
    rewrite Hlog, (fetchCreationDate_issued rt cleanUrl t log3 Hgt).
    split; [reflexivity | exact Hrest].
  - intros Hskip. split.
    + rewrite Hlog. unfold logAfter.
      now rewrite (fetchCreationDate_skipped rt cleanUrl total log3 Hskip).
    + intros a log' Ha.
      apply analyzeBlogAndFetch_ok_inv, analyzeBody_ok_inv in Ha.
      destruct Ha as (pf & l1 & html & pagesFeed & creation & F1 & Hasm & Hcre).
      fold cleanUrl in F1. rewrite H1 in F1. inversion F1; subst pf l1.
      rewrite (Hcre Hskip) in Hasm.
      apply assembleAnalysis_ok in Hasm. destruct Hasm as (_ & _ & ->).
      unfold firstPostDateOf, oldestLocalDate. cbn [truthy].
      set (dates := List.map _ _).
      destruct dates as [|d ds] eqn:Ed; [reflexivity|].
      change (0 <? length (d :: ds))%nat with true. cbv iota.
      apply nth_last_default. discriminate.
Qed.

(** C10: the posts of the snapshot are the first [MAX_RECENT_POSTS = 5] of
    the processed feed entries, in feed order; there are never more than
    five, however many entries the feed returned. *)
Theorem snapshot_posts_prefix (rt : Runtime) (blogUrl : jsstring)
    (log log' : Log) (a : Analysis) :
  analyzeBlogAndFetch rt blogUrl log = (Ok a, log') ->
  exists postsFeed log1,
    fetchJsonFeed rt (normalizeUrl blogUrl) Posts 25 1 log
    = (Ok (Some postsFeed), log1) /\
    let processedPosts := List.map processEntry (entriesOf (Some postsFeed)) in
    a_posts a = firstn MAX_RECENT_POSTS processedPosts /\
    MAX_RECENT_POSTS = 5 /\
    length (a_posts a) = Nat.min 5 (length (entriesOf (Some postsFeed))) /\
    length (a_posts a) <= 5.
Proof.
  intros Ha. apply analyzeBlogAndFetch_ok_inv, analyzeBody_ok_inv in Ha.
  destruct Ha as (pf & l1 & html & pagesFeed & creation & F1 & Hasm & _).
  exists pf, l1. split; [exact F1|].
  apply assembleAnalysis_ok in Hasm. destruct Hasm as (Hposts & _ & _).
  intros processedPosts. fold processedPosts in Hposts.
  split; [exact Hposts|]. split; [reflexivity|].
  rewrite Hposts, length_firstn. unfold processedPosts.
  rewrite length_map. unfold MAX_RECENT_POSTS. split; [reflexivity | lia].
Qed.

(** ** Ordered sets *)

Lemma Set_has_In (s : list jsstring) (t : jsstring) :
  Set_has s t = true <-> In t s.
Proof.
  unfold Set_has. rewrite existsb_exists. split.
  - intros (x & Hx & E). apply jsstring_eqb_true in E. now subst.
  - intros H. exists t. split; [exact H | apply jsstring_eqb_refl].
Qed.

Lemma Set_has_not_In (s : list jsstring) (t : jsstring) :
  Set_has s t = false <-> ~ In t s.
Proof.
  rewrite <- Set_has_In. destruct (Set_has s t); split; congruence.
Qed.

Lemma keepNew_ext (l : list jsstring) :
  forall s1 s2,
    (forall t, Set_has s1 t = Set_has s2 t) -> keepNew s1 l = keepNew s2 l.
Proof.
  induction l as [|t rest IH]; intros s1 s2 H; [reflexivity|].
  simpl. rewrite (H t). destruct (Set_has s2 t); [now apply IH|].
  f_equal. apply IH. intros x. unfold Set_has in *. simpl. now rewrite H.
Qed.

(** Adding the values one by one to a set produces the values not seen
    before, each at its first occurrence, after the values already there. *)
Lemma fold_Set_add (l : list jsstring) :
  forall acc, fold_left Set_add l acc = acc ++ keepNew acc l.
Proof.
  induction l as [|t rest IH]; intros acc; simpl.
  - now rewrite app_nil_r.
  - rewrite IH. unfold Set_add. destruct (Set_has acc t); [reflexivity|].
    rewrite <- app_assoc. simpl. do 2 f_equal.
    apply keepNew_ext. intros x. unfold Set_has.
    rewrite existsb_app. simpl. now rewrite orb_false_r, orb_comm.
Qed.

Lemma Set_fromArray_firstSeen (l : list jsstring) : Set_fromArray l = firstSeen l.
Proof. unfold Set_fromArray. now rewrite fold_Set_add. Qed.

Lemma keepNew_In (l : list jsstring) :
  forall seen t, In t (keepNew seen l) <-> In t l /\ ~ In t seen.
Proof.
  induction l as [|x rest IH]; intros seen t; simpl; [tauto|].
  destruct (Set_has seen x) eqn:E.
  - apply Set_has_In in E. rewrite IH. split.
    + tauto.
    + intros [[->|H] N]; [contradiction | tauto].
  - apply Set_has_not_In in E. simpl. rewrite IH. simpl. split.
    + intros [->|[H N]]; [tauto|]. split; [tauto|]. intros F. apply N. now right.
    + intros [[->|H] N]; [now left|].
      destruct (list_eq_dec N.eq_dec x t) as [->|D]; [now left|].
      right. split; [exact H|]. intros [F|F]; [congruence | contradiction].
Qed.

Lemma keepNew_NoDup (l : list jsstring) : forall seen, NoDup (keepNew seen l).
Proof.
  induction l as [|x rest IH]; intros seen; simpl; [constructor|].
  destruct (Set_has seen x); [apply IH|].
  constructor; [|apply IH].
  rewrite keepNew_In. simpl. tauto.
Qed.

Lemma keepNew_length (l : list jsstring) :
  forall seen, length (keepNew seen l) <= length l.
Proof.
  induction l as [|x rest IH]; intros seen; simpl; [lia|].
  destruct (Set_has seen x); simpl.
  - specialize (IH seen). lia.
  - specialize (IH (x :: seen)). lia.
Qed.

Lemma firstSeen_In (l : list jsstring) (t : jsstring) : In t (firstSeen l) <-> In t l.
Proof. unfold firstSeen. rewrite keepNew_In. simpl. tauto. Qed.

Lemma orDefault_some_nil (d : jsstring) : orDefault (Some d) [] = d.
Proof. now destruct d. Qed.

(** ** Adding a blog *)

Lemma addBlogBody_ok_inv (rt : Runtime) (st : AppState) (log log' : Log)
    (newBlog : BlogMetadata) :
  addBlogBody rt st log = (Ok newBlog, log') ->
  exists analysisData,
    analyzeBlogAndFetch rt (normalizeUrl (newBlogUrl st)) log
    = (Ok analysisData, log') /\
    newBlog
    = newBlogOf rt (normalizeUrl (newBlogUrl st)) analysisData
        (classifyBlogWithGemini rt (a_title analysisData)
           (a_description analysisData) (a_posts analysisData)).
Proof.
  unfold addBlogBody. destruct (existsb _ _); [discriminate|].
  intros H. apply bind_ok_inv in H. destruct H as (a & l1 & Ha & H).
  destruct (a_title a) eqn:Et; [discriminate H|].
  rewrite orDefault_some_nil in H. unfold ret in H. inversion H; subst.
  exists a. split; [exact Ha|]. first [reflexivity | now rewrite <- Et].
Qed.

(** C3, as the code has it: the stored labels of an added blog are the
    labels of the analysis followed by those of the classifier, each once
    and where first seen.  The cap of 15 is on the labels of the analysis;
    the union is not cut, and has at most 15 entries more than the
    classifier returned. *)
Theorem added_blog_tags (rt : Runtime) (st : AppState) (log log' : Log)
    (newBlog : BlogMetadata) :
  newBlogUrl st <> [] ->
  addBlogBody rt st log = (Ok newBlog, log') ->
  (exists update,
      handleAddBlog rt st log = (Ok update, log') /\
      forall prev, blogs (update prev) = newBlog :: blogs prev)
  /\
  exists analysisData postsFeed log1,
    analyzeBlogAndFetch rt (normalizeUrl (newBlogUrl st)) log
    = (Ok analysisData, log') /\
    fetchJsonFeed rt (normalizeUrl (normalizeUrl (newBlogUrl st))) Posts 25 1 log
    = (Ok (Some postsFeed), log1) /\
    let classifierTags :=
      cls_tags (classifyBlogWithGemini rt (a_title analysisData)
                  (a_description analysisData) (a_posts analysisData)) in
    a_tags analysisData
    = firstn 15 (firstSeen (allPostTags (entriesOf (Some postsFeed)))) /\
    tags newBlog = firstSeen (a_tags analysisData ++ classifierTags) /\
    NoDup (tags newBlog) /\
    (forall t, In t (tags newBlog)
               <-> In t (a_tags analysisData) \/ In t classifierTags) /\
    length (a_tags analysisData) <= 15 /\
    length (tags newBlog) <= 15 + length classifierTags.
Proof.
  intros Hurl Hbody. split.
  - unfold handleAddBlog. destruct (newBlogUrl st) eqn:Eu; [congruence|].
    cbv iota. unfold tryCatch, bind. rewrite Hbody.
    eexists. split; [reflexivity|]. intros prev. reflexivity.
  - destruct (addBlogBody_ok_inv _ _ _ Hbody) as (a & Ha & ->).
    pose proof Ha as Hinv.
    apply analyzeBlogAndFetch_ok_inv, analyzeBody_ok_inv in Hinv.
    destruct Hinv as (pf & l1 & html & pagesFeed & creation & F1 & Hasm & _).
    apply assembleAnalysis_ok in Hasm. destruct Hasm as (_ & Htags & _).
    exists a, pf, l1. split; [exact Ha|]. split; [exact F1|].
    intros classifierTags. cbn [tags newBlogOf]. fold classifierTags.
    rewrite Set_fromArray_firstSeen in Htags.
    rewrite Set_fromArray_firstSeen.
    assert (Hcap : length (a_tags a) <= 15).
    { rewrite Htags, length_firstn. lia. }
    split; [exact Htags|]. split; [reflexivity|].
    split; [apply keepNew_NoDup|].
    split; [intros t; rewrite firstSeen_In; apply in_app_iff|].
    split; [exact Hcap|].
    unfold firstSeen.
    pose proof (keepNew_length (a_tags a ++ classifierTags) []) as L.
    rewrite length_app in L. lia.
Qed.

(** ** Refreshing a blog *)

(** C7: when the analysis of a single-blog refresh fails, the handler issues
    no state update: whatever the state is when it finishes, every record of
    the collection, and every other part of the state, stays as it is. *)
Theorem failed_refresh_changes_nothing (rt : Runtime) (st : AppState)
    (blogId : jsstring) (blog : BlogMetadata) (log log' : Log) (e : JsError) :
  find (fun b => jsstring_eqb (id b) blogId) (blogs st) = Some blog ->
  analyzeBlogAndFetch rt (url blog) log = (Throw e, log') ->
  exists update,
    handleRefreshBlog rt st blogId log = (Ok update, log') /\
    forall prev : AppState,
      update prev = prev /\
      forall i, nth_error (blogs (update prev)) i = nth_error (blogs prev) i.
Proof.
  intros Hfind Hfail. unfold handleRefreshBlog. rewrite Hfind.
  unfold tryCatch, bind. rewrite Hfail.
  eexists. split; [reflexivity|]. intros prev. split; reflexivity.
Qed.

Lemma refreshed_sameIdentity (rt : Runtime) (a : Analysis) (b : BlogMetadata) :
  sameIdentity b (refreshed rt a b).
Proof. repeat split. Qed.

Lemma sameIdentity_refl (b : BlogMetadata) : sameIdentity b b.
Proof. repeat split. Qed.

(** C8: a successful refresh keeps, in every record, the identifier, the URL,
    the feed URL, the category, the sentiment score, the language, the
    favourite mark and the date of addition.  Records with another identifier
    are kept whole; in the refreshed ones the title, description, last build
    date, posts, status, statistics and quality score are those of the
    analysis, the labels are the previous ones followed by the new ones,
    each once, and the date of the last check is the clock reading. *)
Theorem refresh_frame (rt : Runtime) (st : AppState)
    (blogId : jsstring) (blog : BlogMetadata) (log log' : Log) (a : Analysis) :
  find (fun b => jsstring_eqb (id b) blogId) (blogs st) = Some blog ->
  analyzeBlogAndFetch rt (url blog) log = (Ok a, log') ->
  exists update,
    handleRefreshBlog rt st blogId log = (Ok update, log') /\
    forall prev : AppState,
      view (update prev) = view prev /\
      newBlogUrl (update prev) = newBlogUrl prev /\
      addError (update prev) = addError prev /\
      length (blogs (update prev)) = length (blogs prev) /\
      forall i b,
        nth_error (blogs prev) i = Some b ->
        exists b',
          nth_error (blogs (update prev)) i = Some b' /\
          sameIdentity b b' /\
          (id b <> blogId -> b' = b) /\
          (id b = blogId ->
           title b' = a_title a /\
           description b' = a_description a /\
           lastBuildDate b' = a_lastBuildDate a /\
           posts b' = a_posts a /\
           status b' = a_status a /\
           stats b' = a_stats a /\
           qualityScore b' = a_qualityScore a /\
           tags b' = firstSeen (tags b ++ a_tags a) /\
           lastCheckedAt b' = ValidDate (now rt)).
Proof.
  intros Hfind Hok. unfold handleRefreshBlog. rewrite Hfind.
  unfold tryCatch, bind. rewrite Hok.
  eexists. split; [reflexivity|]. intros prev.
  unfold setBlogs. cbn [view newBlogUrl addError blogs].
  repeat split; try reflexivity.
  - apply length_map.
  - intros i b Hb. rewrite nth_error_map, Hb. cbn [option_map].
    eexists. split; [reflexivity|].
    destruct (jsstring_eqb (id b) blogId) eqn:E.
    + apply jsstring_eqb_true in E. split; [apply refreshed_sameIdentity|].
      split; [congruence|]. intros _. cbn [refreshed title description
        lastBuildDate posts status stats qualityScore tags lastCheckedAt].
      rewrite orDefault_some_nil, Set_fromArray_firstSeen.
      repeat split.
    + apply jsstring_eqb_false in E. split; [apply sameIdentity_refl|].
      split; [reflexivity | congruence].
Qed.

(** ** The model at work

    Runs of the model in the environment of [Example]. *)

Lemma dayGaps_weekly : dayGaps Example.weekly = [7; 7]%R.
Proof.
  unfold dayGaps, Example.weekly, Example.day, msPerDay. cbn [adjacent].
  rewrite !minus_IZR, !mult_IZR. repeat f_equal; lra.
Qed.

Lemma consistency_spec_weekly : consistency_spec Example.clock Example.weekly = 100%Z.
Proof.
  unfold consistency_spec.
  change (length Example.weekly <? 3)%nat with false. cbv iota.
  rewrite dayGaps_weekly.
  assert (Hmean : mean [7; 7]%R = 7%R).
  { unfold mean, sumR. simpl. lra. }
  assert (Hsd : populationStdDev [7; 7]%R = 0%R).
  { unfold populationStdDev. rewrite Hmean. unfold sumR. simpl.
    replace ((7 - 7) * ((7 - 7) * 1) + ((7 - 7) * ((7 - 7) * 1) + 0))%R with 0%R by lra.
    unfold Rdiv. rewrite Rmult_0_l. apply sqrt_0. }
  assert (Hcv : coefficientOfVariation [7; 7]%R = 0%R).
  { unfold coefficientOfVariation. rewrite Hmean, Hsd.
    destruct (Req_dec_T 7 0); lra. }
  rewrite Hcv.
  assert (Hel : ((IZR Example.clock - IZR (hd 0%Z Example.weekly)) / msPerDay = 10)%R).
  { unfold Example.weekly, Example.day, msPerDay. cbn [hd].
    rewrite !minus_IZR, !mult_IZR. lra. }
  rewrite Hel. unfold stalenessPenalty.
  destruct (Rlt_dec 90 10); [lra|]. destruct (Rlt_dec 365 10); [lra|].
  replace (100 - 0 * 66 - (0 + 0))%R with (IZR 100) by lra.
  rewrite round_IZR. reflexivity.
Qed.

(** Three posts seven days apart, the newest ten days old: no variation and
    no staleness, the score in exact arithmetic is 100. *)
Lemma calculateConsistencyScore_weekly :
  newestFirst Example.weekly /\
  calculateConsistencyScore Example.clock (List.map ValidDate Example.weekly)
  = Fin 100.
Proof.
  assert (H : newestFirst Example.weekly).
  { unfold Example.weekly, Example.clock, Example.day. simpl. lia. }
  split; [exact H|].
  rewrite (@calculateConsistencyScore_correct Example.clock Example.weekly H).
  rewrite consistency_spec_weekly. reflexivity.
Defined.

Lemma dayGaps_uneven : dayGaps Example.uneven = [221 / 24; 43 / 24]%R.
Proof.
  unfold dayGaps, Example.uneven, Example.day, Example.hour, msPerDay.
  cbn [adjacent].
  rewrite !minus_IZR, !mult_IZR. f_equal; [lra | f_equal; lra].
Qed.

(** The exact score of the uneven posts is 55.5, which rounds to 56. *)
Lemma consistency_spec_uneven : consistency_spec Example.clock Example.uneven = 56%Z.
Proof.
  unfold consistency_spec.
  change (length Example.uneven <? 3)%nat with false. cbv iota.
  rewrite dayGaps_uneven.
  assert (Hmean : mean [221 / 24; 43 / 24]%R = (11 / 2)%R).
  { unfold mean, sumR. simpl. lra. }
  assert (Hsd : populationStdDev [221 / 24; 43 / 24]%R = (89 / 24)%R).
  { unfold populationStdDev. rewrite Hmean. unfold sumR. simpl.
    replace (((221 / 24 - 11 / 2) * ((221 / 24 - 11 / 2) * 1)
              + ((43 / 24 - 11 / 2) * ((43 / 24 - 11 / 2) * 1) + 0)) / (1 + 1))%R
      with ((89 / 24) * (89 / 24))%R by lra.
    apply sqrt_square. lra. }
  assert (Hcv : coefficientOfVariation [221 / 24; 43 / 24]%R = (89 / 132)%R).
  { unfold coefficientOfVariation. rewrite Hmean, Hsd.
    destruct (Req_dec_T (11 / 2) 0); lra. }
  rewrite Hcv.
  assert (Hel : ((IZR Example.clock - IZR (hd 0%Z Example.uneven)) / msPerDay = 10)%R).
  { unfold Example.uneven, Example.day, msPerDay. cbn [hd].
    rewrite !minus_IZR, !mult_IZR. lra. }
  rewrite Hel. unfold stalenessPenalty.
  destruct (Rlt_dec 90 10); [lra|]. destruct (Rlt_dec 365 10); [lra|].
  rewrite (@round_spec _ 56%Z) by lra. reflexivity.
Qed.

(** C1 as stated fails: for posts dated 2025-10-23T00:00Z, 2025-10-13T19:00Z
    and 2025-10-12T00:00Z, analysed on 2025-11-02, the exactly computed
    formula gives 56 (the score is 55.5), and the code, whose operations are
    rounded, returns 55. *)
Lemma exact_formula_off_by_rounding :
  newestFirst Example.uneven /\
  Forall timeValue (Example.clock :: Example.uneven) /\
  consistency_spec Example.clock Example.uneven = 56%Z /\
  Double.calculateConsistencyScore Example.clock (List.map ValidDate Example.uneven)
  = Double.ofZ 55 /\
  ~ returnsExactFormula.
Proof.
  assert (Hsorted : newestFirst Example.uneven).
  { unfold Example.uneven, Example.clock, Example.day, Example.hour. simpl. lia. }
  assert (Htimes : Forall timeValue (Example.clock :: Example.uneven)).
  { unfold timeValue, Example.uneven, Example.clock, Example.day, Example.hour.
    repeat constructor; lia. }
  assert (Hcode : Double.calculateConsistencyScore Example.clock
                    (List.map ValidDate Example.uneven) = Double.ofZ 55).
  { vm_compute. reflexivity. }
  split; [exact Hsorted|]. split; [exact Htimes|].
  split; [exact consistency_spec_uneven|]. split; [exact Hcode|].
  intros H. inversion Htimes as [|? ? Hclock Huneven]; subst.
  specialize (H Example.clock Example.uneven Hclock Huneven Hsorted).
  rewrite Hcode, consistency_spec_uneven in H.
  apply (f_equal (fun x => PrimFloat.eqb x (Double.ofZ 55))) in H.
  vm_compute in H. discriminate H.
Qed.

(** The two-post blog reports a total of 2: the history fetch is issued, as
    the fourth request, from start index 2. *)
Lemma history_fetch_two_posts :
  exists log1 rest,
    fetchJsonFeed Example.rt (normalizeUrl Example.blogUrl) Posts 25 1 []
    = (Ok (Some (Example.feedOf "2" [Example.newer; Example.older])), log1) /\
    logAfter (analyzeBlogAndFetch Example.rt Example.blogUrl) []
    = logAfter (fetchJsonFeed Example.rt (normalizeUrl Example.blogUrl) Pages 10 1)
        (logAfter (fetchHtml Example.rt (normalizeUrl Example.blogUrl)) log1)
      ++ relayUrl Example.rt
           (feedUrlOf (normalizeUrl Example.blogUrl) Posts 1 2)
           (nth 0 PROXIES []) :: rest.
Proof.
  pose proof (@history_fetch_condition Example.rt Example.blogUrl [] _ _ eq_refl)
    as [Hissued _].
  destruct (Hissued eq_refl) as (t & rest & Et & _ & Hlog).
  injection Et as <-.
  eexists. exists rest. split; [reflexivity | exact Hlog].
Defined.

(** C4 as stated fails: a reported total of 10 does not exceed the local
    sample of 25, and the history fetch is issued all the same, from start
    index 10. *)
Lemma history_fetch_below_sample_size :
  reportedTotal (Some (Example.feedOf "10" [Example.newer; Example.older]))
  = Some 10%Z /\
  (10 <= LOCAL_SAMPLE)%Z /\
  nth_error (logAfter (analyzeBlogAndFetch Example.rt10 Example.blogUrl) []) 3
  = Some (relayUrl Example.rt10
            (feedUrlOf (js "https://example.blogspot.com") Posts 1 10)
            (js "https://corsproxy.io/?")) /\
  ~ historyOnlyAboveSample Example.rt10 Example.blogUrl.
Proof.
  split; [reflexivity|]. split; [discriminate|]. split; [reflexivity|].
  intros H.
  specialize (H (Example.feedOf "10" [Example.newer; Example.older]) _ 10%Z
                eq_refl eq_refl).
  assert (L : (10 <= LOCAL_SAMPLE)%Z) by discriminate.
  apply H in L. apply (f_equal (@length jsstring)) in L.
  vm_compute in L. discriminate L.
Qed.

(** Seven entries in the feed, five posts in the snapshot. *)
Lemma snapshot_posts_of_seven :
  exists a log',
    analyzeBlogAndFetch Example.rt7 Example.blogUrl [] = (Ok a, log') /\
    length (entriesOf (Some Example.sevenPosts)) = 7 /\
    length (a_posts a) = 5.
Proof.
  pose proof (@snapshot_posts_prefix Example.rt7 Example.blogUrl [] _ _ eq_refl)
    as (pf & l1 & F1 & _ & _ & Hlen & _).
  injection F1 as <- _.
  eexists. eexists. split; [reflexivity|]. split; [reflexivity | exact Hlen].
Defined.

(** The labels [go], [web] of the analysis and [web], [tutorial] of the
    classifier are stored as [go], [web], [tutorial]. *)
Lemma added_blog_tags_example :
  exists newBlog log',
    addBlogBody Example.rt Example.emptyState [] = (Ok newBlog, log') /\
    tags newBlog = [js "go"; js "web"; js "tutorial"] /\
    (exists update,
        handleAddBlog Example.rt Example.emptyState [] = (Ok update, log') /\
        forall prev, blogs (update prev) = newBlog :: blogs prev) /\
    length (tags newBlog) <= 15 + 2.
Proof.
  assert (Hurl : newBlogUrl Example.emptyState <> []) by discriminate.
  pose proof (@added_blog_tags Example.rt Example.emptyState [] _ _ Hurl eq_refl)
    as [Hstored (a & pf & l1 & Ha & _ & _ & _ & _ & _ & _ & Hlen)].
  eexists. eexists. split; [reflexivity|]. split; [reflexivity|].
  split; [exact Hstored | exact Hlen].
Defined.

(** C3 as stated fails: fifteen labels from the analysis and two from the
    classifier are stored as seventeen. *)
Lemma stored_tags_exceed_cap :
  (exists newBlog log',
      addBlogBody Example.rtLabels Example.emptyState [] = (Ok newBlog, log') /\
      tags newBlog = Example.labels ++ [js "web"; js "tutorial"] /\
      length (tags newBlog) = 17) /\
  ~ storedTagsCapped Example.rtLabels Example.emptyState.
Proof.
  split.
  - eexists. eexists. split; [reflexivity|]. split; reflexivity.
  - intros H. specialize (H _ _ eq_refl). vm_compute in H. lia.
Qed.

(** No relay answers: the refresh of the stored blog fails and the library
    stays as it is. *)
Lemma failed_refresh_example :
  exists update log',
    handleRefreshBlog Example.rtDown Example.library (id Example.stored) []
    = (Ok update, log') /\
    length log' = 4 /\
    update Example.library = Example.library.
Proof.
  pose proof (@failed_refresh_changes_nothing Example.rtDown Example.library
                (id Example.stored) Example.stored [] _ _ eq_refl eq_refl)
    as (update & Hrun & Hprev).
  exists update. eexists. split; [exact Hrun|]. split; [reflexivity|].
  exact (proj1 (Hprev Example.library)).
Defined.

(** A refresh of the stored blog: the other record is untouched, the stored
    one keeps its category, sentiment, language, favourite mark and dates of
    addition, and its labels become [tutorial], [go], [web]. *)
Lemma refresh_example :
  exists update log',
    handleRefreshBlog Example.rt Example.library (id Example.stored) []
    = (Ok update, log') /\
    nth_error (blogs (update Example.library)) 0 = Some Example.other /\
    exists b',
      nth_error (blogs (update Example.library)) 1 = Some b' /\
      sameIdentity Example.stored b' /\
      tags b' = [js "tutorial"; js "go"; js "web"] /\
      title b' = js "Example Blog".
Proof.
  pose proof (@refresh_frame Example.rt Example.library
                (id Example.stored) Example.stored [] _ _ eq_refl eq_refl)
    as (update & Hrun & Hprev).
  destruct (Hprev Example.library) as (_ & _ & _ & _ & Hrec).
  destruct (Hrec 0 Example.other eq_refl) as (o' & Ho & _ & Hkeep & _).
  destruct (Hrec 1 Example.stored eq_refl) as (b' & Hb & Hid & _ & Hnew).
  destruct (Hnew eq_refl) as (Htitle & _ & _ & _ & _ & _ & _ & Htags & _).
  exists update. eexists. split; [exact Hrun|]. split.
  - rewrite Ho. f_equal. apply Hkeep. discriminate.
  - exists b'. split; [exact Hb|]. split; [exact Hid|].
    split; [rewrite Htags; reflexivity | rewrite Htitle; reflexivity].
Defined.

(** ** Checks on concrete inputs *)

Example normalizeUrl_http_token :
  normalizeUrl (js "httpbin.org/") = js "httpbin.org" /\
  normalizeUrl (js "HTTP://x.com") = js "https://HTTP://x.com".
Proof. split; reflexivity. Qed.

(** Two relays fail, the third answers: three requests, in the order of the
    list, and the answer of the third, as received. *)
Example relay_third_answers :
  fetchWithProxy Example.rtFlaky (js "https://example.blogspot.com") []
  = (Ok Example.payload,
     List.map (relayUrl Example.rtFlaky (js "https://example.blogspot.com"))
       (firstn 3 PROXIES)).
Proof. reflexivity. Qed.

(** Every relay fails: four requests, and the error of the last attempt. *)
Example relay_all_fail :
  fetchWithProxy Example.rtTimeout (js "https://example.blogspot.com") []
  = (Throw Example.ABORTED,
     List.map (relayUrl Example.rtTimeout (js "https://example.blogspot.com"))
       PROXIES)
  /\
  fetchWithProxy Example.rtAll500 (js "https://example.blogspot.com") []
  = (Throw (newError (js "Proxy returned status 500")),
     List.map (relayUrl Example.rtAll500 (js "https://example.blogspot.com"))
       PROXIES).
Proof. split; reflexivity. Qed.

Example countWords_hello : countWords (js "<p>Hello world</p>") = 2%Z.
Proof. reflexivity. Qed.

Example countWords_empty : countWords (js "") = 0%Z.
Proof. reflexivity. Qed.

Example countImages_two : countImages (js "<img src=a><IMG src=b>") = 2%Z.
Proof. reflexivity. Qed.

Example parseInt10_examples :
  parseInt10 (Some (js " 42 comments")) = Some 42%Z /\
  parseInt10 (Some (js "-7")) = Some (-7)%Z /\
  parseInt10 (Some (js "n/a")) = None /\
  parseInt10 None = None.
Proof. repeat split. Qed.

(** Fewer than three dates score 50, whatever the dates are, valid or not,
    ordered or not. *)
Lemma calculateConsistencyScore_few_dates (clock : Z) (dates : list Date) :
  length dates < 3 -> calculateConsistencyScore clock dates = Fin 50.
Proof.
  intros H. unfold calculateConsistencyScore.
  now destruct (Nat.ltb_spec (length dates) 3) as [_|L]; [|lia].
Qed.

(** An invalid date among three or more makes the score [NaN]. *)
Example calculateConsistencyScore_invalid_date (clock a b : Z) :
  calculateConsistencyScore clock [ValidDate a; InvalidDate; ValidDate b] = NaN.
Proof.
  unfold calculateConsistencyScore. cbn.
  repeat destruct (Rlt_dec _ _); reflexivity.
Qed.

(** The code on doubles: even gaps of seven days score 100 while the newest
    post is recent, 80 when it is more than 90 days old and 40 when it is
    more than 365 days old; three posts on one day have a mean gap of 0 and
    score 100; an invalid date among three makes the score [NaN]. *)
Example calculateConsistencyScore_double_runs :
  Double.calculateConsistencyScore Example.clock (List.map ValidDate Example.weekly)
  = Double.ofZ 100 /\
  Double.calculateConsistencyScore (Example.clock + 90 * Example.day)
    (List.map ValidDate Example.weekly)
  = Double.ofZ 80 /\
  Double.calculateConsistencyScore (Example.clock + 365 * Example.day)
    (List.map ValidDate Example.weekly)
  = Double.ofZ 40 /\
  Double.calculateConsistencyScore Example.clock
    (List.map ValidDate [Example.clock; Example.clock; Example.clock])
  = Double.ofZ 100 /\
  PrimFloat.is_nan
    (Double.calculateConsistencyScore Example.clock
       [ValidDate Example.clock; InvalidDate; ValidDate 0])
  = true.
Proof. repeat split; vm_compute; reflexivity. Qed.

(** [Math.round] on doubles: a tie goes up, also below zero, and the largest
    double below one half goes down. *)
Example Math_round_double_runs :
  Double.Math_round (PrimFloat.div (Double.ofZ 111) (Double.ofZ 2)) = Double.ofZ 56 /\
  Double.Math_round (PrimFloat.div (Double.ofZ (-5)) (Double.ofZ 2)) = Double.ofZ (-2) /\
  Double.Math_round (PrimFloat.next_down (PrimFloat.div (Double.ofZ 1) (Double.ofZ 2)))
  = Double.ofZ 0.
Proof. repeat split; vm_compute; reflexivity. Qed.

(** The orchestrator hands such statistics to the scoring engine: a feed
    whose oldest post is dated a hundred years ahead gives a snapshot with a
    negative quality score. *)
Example analysis_of_future_blog :
  exists a log',
    analyzeBlogAndFetch Example.rtFuture Example.blogUrl [] = (Ok a, log') /\
    firstPostDate (a_stats a)
    = ValidDate (Example.clock + 100 * (Example.day * 365)) /\
    a_qualityScore a = ofZ (-189).
Proof.
  eexists. eexists. split; [reflexivity|]. split; [reflexivity|].
  cbv -[Rplus Rminus Rmult Rdiv Rinv IZR INR Rabs sqrt Rmin Rmax Rlt_dec
        Req_dec_T Int_part ln pow Rle_dec round].
  destruct (Req_dec_T 0 0) as [_|N]; [|lra].
  replace (INR 2) with 2%R by (simpl; lra).
  replace (round (5 / 2)) with 3%Z by (symmetry; apply round_spec; lra).
  replace (round (0 / 2 * 10)) with 0%Z by (symmetry; apply round_spec; lra).
  replace (round (2 / 2 * 10)) with 10%Z by (symmetry; apply round_spec; lra).
  do 2 f_equal.
  rewrite (Rmin_right 100 (3 / 800 * 100)) by lra.
  rewrite (Rmin_right 100 (0 / 10 / 3 * 100)) by lra.
  rewrite (Rmin_right 100 (2 / 100 * 100)) by lra.
  rewrite (Rmin_right 100 (10 / 10 * 10)) by lra.
  rewrite (Rmin_right 100 (0 * 20)) by lra.
  rewrite Rmin_right by lra.
  apply round_spec. lra.
Qed.

(** The two-post blog of the specification: totals, averages, status and
    the neutral consistency score. *)
Example analysis_of_two_post_blog :
  exists a log',
    analyzeBlogAndFetch Example.rt Example.blogUrl [] = (Ok a, log') /\
    a_title a = js "Example Blog" /\
    a_status a = Active /\
    a_tags a = [js "go"; js "web"] /\
    List.map wordCount (a_posts a) = [2; 3]%Z /\
    totalPosts (a_stats a) = Fin 2 /\
    totalComments (a_stats a) = Fin 2 /\
    avgCommentsPerPost (a_stats a) = Fin 1 /\
    followersCount (a_stats a) = Fin 0 /\
    consistencyScore (a_stats a) = Fin 50 /\
    firstPostDate (a_stats a) = ValidDate (Example.clock - 20 * Example.day) /\
    lastPostDate (a_stats a) = ValidDate (Example.clock - 10 * Example.day).
Proof.
  eexists. eexists. split; [reflexivity|].
  repeat (split; [reflexivity|]).
  split.
  { cbv -[Rplus Rminus Rmult Rdiv Rinv IZR INR round].
    replace (INR 2) with 2%R by (simpl; lra).
    replace (round (2 / 2 * 10)) with 10%Z by (symmetry; apply round_spec; lra).
    f_equal. lra. }
  repeat (split; [reflexivity|]). reflexivity.
Qed.

(** * Further properties *)

(** ** The orchestrator, in full *)

Lemma localDates_of_posts (rt : Runtime) (postsFeed : Feed) :
  List.map (fun p => parseDate rt (pubDate p))
           (List.map processEntry (entriesOf (Some postsFeed)))
  = localDates rt postsFeed.
Proof. unfold localDates. now rewrite map_map. Qed.

(** The assembly succeeds exactly when the first and the last post date are
    valid, and then returns the snapshot. *)
Lemma assembleAnalysis_eq (rt : Runtime) (postsFeed : Feed) (html : jsstring)
    (pagesFeed : option Feed) (creation : option jsstring) (log : Log) :
  assembleAnalysis rt postsFeed html pagesFeed creation log
  = match firstPostDateOf rt creation (localDates rt postsFeed),
          newestLocalDate rt postsFeed with
    | ValidDate f, ValidDate l =>
        (Ok (snapshotOf rt postsFeed html pagesFeed f l), log)
    | _, _ => (Throw INVALID_TIME_VALUE, log)
    end.
Proof.
  unfold assembleAnalysis, newestLocalDate. rewrite localDates_of_posts.
  set (dates := localDates rt postsFeed).
  assert (Hlast : (if (0 <? length dates)%nat then nth 0 dates InvalidDate
                   else ValidDate (now rt))
                  = hd (ValidDate (now rt)) dates).
  { now destruct dates. }
  rewrite Hlast. unfold bind.
  destruct (firstPostDateOf rt creation dates) as [|f]; [reflexivity|].
  destruct (hd (ValidDate (now rt)) dates) as [|l]; reflexivity.
Qed.

Lemma analyzeBlogAndFetch_catch (rt : Runtime) (blogUrl : jsstring) (log : Log) :
  analyzeBlogAndFetch rt blogUrl log
  = match analyzeBody rt (normalizeUrl blogUrl) log with
    | (Ok a, l) => (Ok a, l)
    | (Throw e, l) => (Throw (friendlyError rt e), l)
    end.
Proof.
  unfold analyzeBlogAndFetch, tryCatch, friendlyError.
  destruct (analyzeBody rt (normalizeUrl blogUrl) log) as [[a|e] l]; [reflexivity|].
  now destruct (_ || _).
Qed.

Lemma bind_ok {A B : Type} (m : M A) (k : A -> M B) (log log1 : Log) (a : A) :
  m log = (Ok a, log1) -> bind m k log = k a log1.
Proof. intros H. unfold bind. now rewrite H. Qed.

Lemma bind_throw {A B : Type} (m : M A) (k : A -> M B) (log log1 : Log)
    (e : JsError) :
  m log = (Throw e, log1) -> bind m k log = (Throw e, log1).
Proof. intros H. unfold bind. now rewrite H. Qed.

(** After the posts feed has arrived, the three optional fetches deliver
    some material, whatever their outcome, and the rest is the assembly. *)
Lemma analyzeBody_after_posts (rt : Runtime) (cleanUrl : jsstring)
    (log log1 : Log) (postsFeed : Feed) :
  fetchJsonFeed rt cleanUrl Posts 25 1 log = (Ok (Some postsFeed), log1) ->
  exists html pagesFeed creation,
    analyzeBody rt cleanUrl log
    = assembleAnalysis rt postsFeed html pagesFeed creation
        (logAfter (fetchCreationDate rt cleanUrl (reportedTotal (Some postsFeed)))
           (logAfter (fetchJsonFeed rt cleanUrl Pages 10 1)
              (logAfter (fetchHtml rt cleanUrl) log1))) /\
    (intGt (reportedTotal (Some postsFeed)) (Some 1%Z) = false -> creation = None).
Proof.
  intros H1.
  destruct (tryCatch_ret_total (fetchHtml rt cleanUrl) [] log1) as [html Ehtml].
  destruct (tryCatch_ret_total (fetchJsonFeed rt cleanUrl Pages 10 1) None
              (logAfter (fetchHtml rt cleanUrl) log1)) as [pagesFeed Epages].
  destruct (tryCatch_ret_total
              (fetchCreationDate rt cleanUrl (reportedTotal (Some postsFeed))) None
              (logAfter (fetchJsonFeed rt cleanUrl Pages 10 1)
                 (logAfter (fetchHtml rt cleanUrl) log1))) as [creation Ecre].
  exists html, pagesFeed, creation. split.
  - unfold analyzeBody.
    erewrite bind_ok by exact H1. cbv iota beta.
    erewrite bind_ok by exact Ehtml.
    erewrite bind_ok by exact Epages.
    erewrite bind_ok by exact Ecre. reflexivity.
  - intros Hskip. unfold tryCatch in Ecre.
    rewrite (fetchCreationDate_skipped rt cleanUrl _ _ Hskip) in Ecre.
    now inversion Ecre.
Qed.

(** A successful analysis is the snapshot of a posts feed that arrived. *)
Lemma analyzeBlogAndFetch_ok_snapshot (rt : Runtime) (blogUrl : jsstring)
    (log log' : Log) (a : Analysis) :
  analyzeBlogAndFetch rt blogUrl log = (Ok a, log') ->
  exists postsFeed log1 html pagesFeed creation f l,
    fetchJsonFeed rt (normalizeUrl blogUrl) Posts 25 1 log
    = (Ok (Some postsFeed), log1) /\
    firstPostDateOf rt creation (localDates rt postsFeed) = ValidDate f /\
    newestLocalDate rt postsFeed = ValidDate l /\
    a = snapshotOf rt postsFeed html pagesFeed f l.
Proof.
  intros Ha. apply analyzeBlogAndFetch_ok_inv, analyzeBody_ok_inv in Ha.
  destruct Ha as (pf & l1 & html & pagesFeed & creation & F1 & Hasm & _).
  rewrite assembleAnalysis_eq in Hasm.
  destruct (firstPostDateOf rt creation (localDates rt pf)) as [|f] eqn:Ef;
    [discriminate Hasm|].
  destruct (newestLocalDate rt pf) as [|l] eqn:El; [discriminate Hasm|].
  inversion Hasm; subst.
  exists pf, l1, html, pagesFeed, creation, f, l. repeat split; assumption.
Qed.

(** ** Requests *)

Lemma issues_refl (rt : Runtime) (log : Log) : issues rt 0 0 log log.
Proof. exists []. rewrite app_nil_r. repeat split; auto. Qed.

Lemma issues_trans (rt : Runtime) (a b c d : nat) (l1 l2 l3 : Log) :
  issues rt a b l1 l2 -> issues rt c d l2 l3 -> issues rt (a + c) (b + d) l1 l3.
Proof.
  intros (e1 & -> & [La Lb] & F1) (e2 & -> & [Lc Ld] & F2).
  exists (e1 ++ e2). rewrite app_assoc, length_app. repeat split; try lia.
  apply Forall_app. now split.
Qed.

Lemma issues_weaken (rt : Runtime) (a b a' b' : nat) (l1 l2 : Log) :
  a' <= a -> b <= b' -> issues rt a b l1 l2 -> issues rt a' b' l1 l2.
Proof.
  intros Ha Hb (e & -> & [L U] & F). exists e. repeat split; try lia. exact F.
Qed.

Lemma firstn_incl {A : Type} (n : nat) (l : list A) : incl (firstn n l) l.
Proof.
  intros x Hx. rewrite <- (firstn_skipn n l). apply in_or_app. now left.
Qed.

Lemma viaRelay_map (rt : Runtime) (targetUrl : jsstring) (proxies : list jsstring) :
  incl proxies PROXIES ->
  Forall (viaRelay rt) (List.map (relayUrl rt targetUrl) proxies).
Proof.
  intros H. apply Forall_forall. intros u Hu. apply in_map_iff in Hu.
  destruct Hu as (p & <- & Hp). exists p, targetUrl. split; [now apply H | reflexivity].
Qed.

Lemma fetchWithProxy_issues (rt : Runtime) (targetUrl : jsstring) (log : Log) :
  issues rt 1 4 log (logAfter (fetchWithProxy rt targetUrl) log).
Proof.
  unfold logAfter.
  destruct (fetchWithProxy_cases rt targetUrl log)
    as [(k & response & Hk & _ & _ & _ & E)|(_ & E)]; rewrite E; simpl snd.
  - exists (List.map (relayUrl rt targetUrl) (firstn (S k) PROXIES)).
    split; [reflexivity|]. split.
    + rewrite length_map, length_firstn. simpl length in *. lia.
    + apply viaRelay_map. apply firstn_incl.
  - exists (List.map (relayUrl rt targetUrl) PROXIES).
    split; [reflexivity|]. split.
    + rewrite length_map. simpl. lia.
    + apply viaRelay_map. apply incl_refl.
Qed.

Lemma fetchJsonFeed_issues (rt : Runtime) (baseUrl : jsstring) (t : FeedType)
    (maxResults startIndex : Z) (log : Log) :
  issues rt 1 4 log (logAfter (fetchJsonFeed rt baseUrl t maxResults startIndex) log).
Proof. rewrite fetchJsonFeed_log. apply fetchWithProxy_issues. Qed.

Lemma fetchHtml_log (rt : Runtime) (baseUrl : jsstring) (log : Log) :
  logAfter (fetchHtml rt baseUrl) log = logAfter (fetchWithProxy rt baseUrl) log.
Proof.
  unfold fetchHtml. rewrite logAfter_tryCatch_ret.
  unfold logAfter, bind. now destruct (fetchWithProxy rt baseUrl log) as [[r|e] l].
Qed.

Lemma fetchHtml_issues (rt : Runtime) (baseUrl : jsstring) (log : Log) :
  issues rt 1 4 log (logAfter (fetchHtml rt baseUrl) log).
Proof. rewrite fetchHtml_log. apply fetchWithProxy_issues. Qed.

Lemma fetchCreationDate_issues (rt : Runtime) (cleanUrl : jsstring)
    (totalPosts : option Z) (log : Log) :
  issues rt 0 4 log (logAfter (fetchCreationDate rt cleanUrl totalPosts) log).
Proof.
  destruct (intGt totalPosts (Some 1%Z)) eqn:E.
  - destruct totalPosts as [t|]; [|discriminate E].
    rewrite (fetchCreationDate_issued rt cleanUrl t log E).
    eapply issues_weaken; [| |apply fetchJsonFeed_issues]; lia.
  - unfold logAfter. rewrite (fetchCreationDate_skipped rt cleanUrl _ log E).
    eapply issues_weaken; [| |apply issues_refl]; lia.
Qed.

Lemma analyzeBody_failure (rt : Runtime) (cleanUrl : jsstring) (log : Log) :
  (forall postsFeed,
      fst (fetchJsonFeed rt cleanUrl Posts 25 1 log) <> Ok (Some postsFeed)) ->
  exists e,
    analyzeBody rt cleanUrl log
    = (Throw e, logAfter (fetchJsonFeed rt cleanUrl Posts 25 1) log) /\
    (fst (fetchJsonFeed rt cleanUrl Posts 25 1 log) = Throw e \/
     fst (fetchJsonFeed rt cleanUrl Posts 25 1 log) = Ok None /\
     e = newError NO_FEED_DATA).
Proof.
  intros H. unfold analyzeBody, logAfter, bind.
  destruct (fetchJsonFeed rt cleanUrl Posts 25 1 log) as [[[pf|]|e] l1]; simpl in *.
  - exfalso. now apply (H pf).
  - exists (newError NO_FEED_DATA). split; [reflexivity | right; now split].
  - exists e. split; [reflexivity | now left].
Qed.

(** X8: When the posts feed does not arrive, the analysis fails with the error of
    that fetch (or with the no-feed error when the payload has no feed),
    reworded when it reads as a connectivity failure; no further request is
    issued. *)
Theorem posts_feed_failure_aborts (rt : Runtime) (blogUrl : jsstring) (log : Log) :
  (forall postsFeed,
      fst (fetchJsonFeed rt (normalizeUrl blogUrl) Posts 25 1 log)
      <> Ok (Some postsFeed)) ->
  exists e,
    analyzeBlogAndFetch rt blogUrl log
    = (Throw (friendlyError rt e),
       logAfter (fetchJsonFeed rt (normalizeUrl blogUrl) Posts 25 1) log) /\
    (fst (fetchJsonFeed rt (normalizeUrl blogUrl) Posts 25 1 log) = Throw e \/
     fst (fetchJsonFeed rt (normalizeUrl blogUrl) Posts 25 1 log) = Ok None /\
     e = newError NO_FEED_DATA).
Proof.
  intros H. destruct (analyzeBody_failure rt (normalizeUrl blogUrl) log H)
    as (e & Hrun & Hcase).
  exists e. split; [|exact Hcase].
  rewrite analyzeBlogAndFetch_catch, Hrun. reflexivity.
Qed.

Lemma firstPostDateOf_none (rt : Runtime) (postsFeed : Feed) :
  firstPostDateOf rt None (localDates rt postsFeed)
  = oldestLocalDate rt (entriesOf (Some postsFeed)).
Proof.
  unfold firstPostDateOf, oldestLocalDate, localDates. cbn [truthy].
  set (dates := List.map _ _).
  destruct dates as [|d ds] eqn:Ed; [reflexivity|].
  change (0 <? length (d :: ds))%nat with true. cbv iota.
  apply nth_last_default. discriminate.
Qed.

(** X9: Once the posts feed has arrived, no failure of the page, pages-feed or
    history fetch aborts the analysis: it succeeds, or fails on an invalid
    post date.  Without a history lookup it succeeds exactly when the newest
    and the oldest post of the local sample have valid dates. *)
Theorem secondary_failures_do_not_abort (rt : Runtime) (blogUrl : jsstring)
    (log log1 : Log) (postsFeed : Feed) :
  fetchJsonFeed rt (normalizeUrl blogUrl) Posts 25 1 log
  = (Ok (Some postsFeed), log1) ->
  ((exists a, fst (analyzeBlogAndFetch rt blogUrl log) = Ok a) \/
   fst (analyzeBlogAndFetch rt blogUrl log)
   = Throw (friendlyError rt INVALID_TIME_VALUE))
  /\
  (intGt (reportedTotal (Some postsFeed)) (Some 1%Z) = false ->
   ((exists a, fst (analyzeBlogAndFetch rt blogUrl log) = Ok a) <->
    (exists f l,
        oldestLocalDate rt (entriesOf (Some postsFeed)) = ValidDate f /\
        newestLocalDate rt postsFeed = ValidDate l))).
Proof.
  intros H1.
  destruct (analyzeBody_after_posts rt (normalizeUrl blogUrl) log H1)
    as (html & pagesFeed & creation & Hbody & Hcre).
  rewrite analyzeBlogAndFetch_catch, Hbody, assembleAnalysis_eq.
  split.
  - destruct (firstPostDateOf rt creation (localDates rt postsFeed)) as [|f];
      [now right|].
    destruct (newestLocalDate rt postsFeed) as [|l]; [now right|].
    left. eexists. reflexivity.
  - intros Hskip. rewrite (Hcre Hskip), firstPostDateOf_none.
    destruct (oldestLocalDate rt (entriesOf (Some postsFeed))) as [|f].
    + split; [intros [a Ha]; discriminate Ha | intros (f & l & F & _); discriminate F].
    + destruct (newestLocalDate rt postsFeed) as [|l].
      * split; [intros [a Ha]; discriminate Ha
               | intros (f' & l & _ & L); discriminate L].
      * split; [intros _; now exists f, l | intros _; eexists; reflexivity].
Qed.

Lemma analysis_requests_shared (rt : Runtime) (blogUrl : jsstring) (log : Log) :
  issues rt 1 16 log (logAfter (analyzeBlogAndFetch rt blogUrl) log).
Proof.
  rewrite analyzeBlogAndFetch_log.
  set (cleanUrl := normalizeUrl blogUrl).
  pose proof (fetchJsonFeed_issues rt cleanUrl Posts 25 1 log) as Hposts.
  destruct (fetchJsonFeed rt cleanUrl Posts 25 1 log) as [[[pf|]|e] l1] eqn:E.
  - rewrite (@analyzeBody_log rt cleanUrl log l1 pf E).
    replace l1 with (logAfter (fetchJsonFeed rt cleanUrl Posts 25 1) log)
      by (unfold logAfter; now rewrite E).
    apply (issues_weaken (a := 1 + (1 + (1 + 0))) (b := 4 + (4 + (4 + 4))));
      [lia | lia |].
    eapply issues_trans; [exact Hposts|].
    eapply issues_trans; [apply fetchHtml_issues|].
    eapply issues_trans; [apply fetchJsonFeed_issues|].
    apply fetchCreationDate_issues.
  - destruct (analyzeBody_failure rt cleanUrl log) as (e & Hrun & _).
    { intros pf. rewrite E. discriminate. }
    unfold logAfter at 1. rewrite Hrun. simpl snd.
    eapply issues_weaken; [| |exact Hposts]; lia.
  - destruct (analyzeBody_failure rt cleanUrl log) as (e' & Hrun & _).
    { intros pf. rewrite E. discriminate. }
    unfold logAfter at 1. rewrite Hrun. simpl snd.
    eapply issues_weaken; [| |exact Hposts]; lia.
Qed.


(** X15: The status of a snapshot is never [Unreachable]: it is [Inactive] when
    the newest post of the local sample is dated before six months ago, and
    [Active] otherwise; the last build date and the last post date are the
    date of that post (the clock reading for an empty sample). *)
Theorem snapshot_status (rt : Runtime) (blogUrl : jsstring)
    (log log' : Log) (a : Analysis) :
  analyzeBlogAndFetch rt blogUrl log = (Ok a, log') ->
  exists postsFeed log1 lastMs,
    fetchJsonFeed rt (normalizeUrl blogUrl) Posts 25 1 log
    = (Ok (Some postsFeed), log1) /\
    newestLocalDate rt postsFeed = ValidDate lastMs /\
    a_lastBuildDate a = ValidDate lastMs /\
    lastPostDate (a_stats a) = ValidDate lastMs /\
    a_status a
    = (if (lastMs <? sixMonthsBefore rt (now rt))%Z then Inactive else Active) /\
    a_status a <> Unreachable.
Proof.
  intros Ha. apply analyzeBlogAndFetch_ok_snapshot in Ha.
  destruct Ha as (pf & l1 & html & pagesFeed & creation & f & l & F1 & _ & Hl & ->).
  exists pf, l1, l. split; [exact F1|]. split; [exact Hl|].
  cbn [snapshotOf a_lastBuildDate a_stats a_status buildStats lastPostDate].
  repeat split; try reflexivity.
  destruct (l <? sixMonthsBefore rt (now rt))%Z; discriminate.
Qed.

Lemma NoDup_firstn {A : Type} (n : nat) (l : list A) : NoDup l -> NoDup (firstn n l).
Proof.
  revert n. induction l as [|x l IH]; intros n H.
  - now rewrite firstn_nil.
  - destruct n as [|n]; [constructor|]. simpl.
    inversion H as [|? ? Hx Hl]; subst. constructor.
    + intros F. apply Hx. now apply (firstn_incl n l).
    + now apply IH.
Qed.

(** X16: The title of a snapshot is never empty, and its labels are labels of the
    posts of the feed: at most fifteen, no label twice. *)
Theorem snapshot_title_and_tags (rt : Runtime) (blogUrl : jsstring)
    (log log' : Log) (a : Analysis) :
  analyzeBlogAndFetch rt blogUrl log = (Ok a, log') ->
  exists postsFeed log1,
    fetchJsonFeed rt (normalizeUrl blogUrl) Posts 25 1 log
    = (Ok (Some postsFeed), log1) /\
    a_title a <> [] /\
    (feed_title postsFeed = None -> a_title a = js "Untitled Blog") /\
    NoDup (a_tags a) /\
    length (a_tags a) <= 15 /\
    forall t,
      In t (a_tags a) ->
      exists entry terms,
        In entry (entriesOf (Some postsFeed)) /\
        entry_category entry = Some terms /\ In t terms.
Proof.
  intros Ha. apply analyzeBlogAndFetch_ok_snapshot in Ha.
  destruct Ha as (pf & l1 & html & pagesFeed & creation & f & l & F1 & _ & _ & ->).
  exists pf, l1. split; [exact F1|].
  cbn [snapshotOf a_title a_tags].
  rewrite fold_tags_flat_map.
  change (fold_left Set_add ?x []) with (Set_fromArray x).
  rewrite Set_fromArray_firstSeen.
  split; [|split; [|split; [|split]]].
  - destruct (feed_title pf) as [[|c r]|]; discriminate.
  - now intros ->.
  - apply NoDup_firstn, keepNew_NoDup.
  - rewrite length_firstn. lia.
  - intros t Ht. pose proof (@firstn_incl _ 15 _ t Ht) as Ht'.
    apply (proj1 (firstSeen_In _ _)) in Ht'.
    rewrite flat_map_concat_map, map_map, <- flat_map_concat_map in Ht'.
    apply in_flat_map in Ht'. destruct Ht' as (entry & He & Ht').
    rename Ht' into Hin. clear Ht. rename Hin into Ht.
    cbn [processEntry post_tags] in Ht.
    destruct (entry_category entry) as [terms|] eqn:Ec; [|contradiction].
    now exists entry, terms.
Qed.

(** ** Scoring engine, on any dates *)

Lemma absGaps_of_valid (ts : list Z) :
  adjacent (fun a b => Math_abs (getTime a - getTime b) / MS_PER_DAY)%num
           (List.map ValidDate ts)
  = List.map Fin (absDayGaps ts).
Proof.
  unfold absDayGaps.
  induction ts as [|a [|b l] IH]; [reflexivity | reflexivity |].
  change (List.map ValidDate (a :: b :: l))
    with (ValidDate a :: List.map ValidDate (b :: l)).
  change (adjacent ?f (ValidDate a :: List.map ValidDate (b :: l)))
    with (f (ValidDate a) (ValidDate b) :: adjacent f (List.map ValidDate (b :: l))).
  rewrite IH.
  change (adjacent ?f (a :: b :: l)) with (f a b :: adjacent f (b :: l)).
  reflexivity.
Qed.

Lemma clamp_range (z : Z) : (0 <= clamp 0 100 z <= 100)%Z.
Proof.
  unfold clamp. destruct (Z.ltb_spec z 0); [lia|].
  destruct (Z.ltb_spec 100 z); lia.
Qed.

Lemma calculateConsistencyScore_valid (now : Z) (ts : list Z) :
  calculateConsistencyScore now (List.map ValidDate ts)
  = ofZ (consistency_any_order now ts).
Proof.
  unfold calculateConsistencyScore, consistency_any_order.
  cbv zeta.
  rewrite (map_adjacent
             (fun a b => Math_abs (getTime a - getTime b) / MS_PER_DAY)%num
             InvalidDate (List.map ValidDate ts)).
  rewrite absGaps_of_valid.
  rewrite !length_map.
  destruct (Nat.ltb_spec (length ts) 3) as [Hlen|Hlen]; [reflexivity|].
  assert (Hn : length (absDayGaps ts) = length ts - 1) by apply adjacent_length.
  destruct (Nat.eqb_spec (length (absDayGaps ts)) 0) as [E|_]; [lia|].
  set (gaps := absDayGaps ts) in *.
  rewrite (mean_of_loop gaps).
  rewrite (stdDev_of_loop gaps) by lia.
  rewrite (cv_of_loop gaps).
  destruct ts as [|t0 ts']; [simpl in Hlen; lia|].
  cbn [List.map nth hd getTime ofZ nsub nmul ndiv lift2 MS_PER_DAY].
  fold msPerDay.
  set (elapsed := ((IZR now - IZR t0) / msPerDay)%R).
  rewrite !gt_Fin. unfold stalenessPenalty.
  set (cv := coefficientOfVariation gaps).
  destruct (Rlt_dec 90 elapsed), (Rlt_dec 365 elapsed);
    cbn [nsub lift2 Math_round]; rewrite clamp_max_min;
    do 3 f_equal; lra.
Qed.

Lemma all_valid_dates (dates : list Date) :
  ~ In InvalidDate dates -> dates = List.map ValidDate (List.map timeOf dates).
Proof.
  induction dates as [|d dates IH]; intros H; [reflexivity|].
  simpl. destruct d as [|ms].
  - exfalso. apply H. now left.
  - f_equal. apply IH. intros F. apply H. now right.
Qed.

Lemma fold_left_nadd_NaN (l : list number) : fold_left (fun a b => a + b)%num l NaN = NaN.
Proof. induction l as [|x l IH]; [reflexivity | exact IH]. Qed.

Lemma fold_left_nadd_has_NaN (l : list number) (acc : number) :
  In NaN l -> fold_left (fun a b => a + b)%num l acc = NaN.
Proof.
  revert acc. induction l as [|x l IH]; intros acc H; [contradiction|].
  simpl. destruct H as [->|H].
  - replace (acc + NaN)%num with NaN by (now destruct acc).
    apply fold_left_nadd_NaN.
  - now apply IH.
Qed.

Lemma gap_with_invalid (dates : list Date) :
  2 <= length dates -> In InvalidDate dates ->
  In NaN (adjacent (fun a b => Math_abs (getTime a - getTime b) / MS_PER_DAY)%num
            dates).
Proof.
  induction dates as [|a [|b l] IH]; intros Hlen Hin;
    [simpl in Hlen; lia | simpl in Hlen; lia |].
  change (adjacent ?f (a :: b :: l)) with (f a b :: adjacent f (b :: l)).
  destruct Hin as [->|Hin]; [now left|].
  destruct b as [|mb]; [left; now destruct a|].
  right. apply IH; [|exact Hin].
  destruct Hin as [F|Hin]; [discriminate F|].
  destruct l; [contradiction | simpl; lia].
Qed.

(** X6: The consistency score is [NaN] exactly when there are three dates or
    more and one of them is invalid; in every other case it is an integer
    from 0 to 100, whatever the order of the dates and the clock reading. *)
Theorem calculateConsistencyScore_range (now : Z) (dates : list Date) :
  (3 <= length dates /\ In InvalidDate dates ->
   calculateConsistencyScore now dates = NaN)
  /\
  (length dates < 3 \/ ~ In InvalidDate dates ->
   exists z, calculateConsistencyScore now dates = ofZ z /\ (0 <= z <= 100)%Z).
Proof.
  split.
  - intros [Hlen Hin]. unfold calculateConsistencyScore. cbv zeta.
    rewrite (map_adjacent
               (fun a b => Math_abs (getTime a - getTime b) / MS_PER_DAY)%num
               InvalidDate dates).
    destruct (Nat.ltb_spec (length dates) 3) as [L|_]; [lia|].
    rewrite adjacent_length.
    destruct (Nat.eqb_spec (length dates - 1) 0) as [E|_]; [lia|].
    rewrite (fold_left_nadd_has_NaN _ (Fin 0)) by (apply gap_with_invalid; [lia|exact Hin]).
    cbn [ndiv nsub nmul lift2 strictEq ofNat].
    set (sd := Math_sqrt _).
    replace (sd / NaN)%num with NaN by (now destruct sd).
    cbn [ndiv nsub nmul lift2].
    destruct (gt _ (Fin 90)), (gt _ (Fin 365)); reflexivity.
  - intros [Hlen|Hvalid].
    + exists 50%Z. split; [|lia]. unfold calculateConsistencyScore.
      now destruct (Nat.ltb_spec (length dates) 3) as [_|L]; [|lia].
    + rewrite (all_valid_dates dates Hvalid), calculateConsistencyScore_valid.
      eexists. split; [reflexivity|].
      unfold consistency_any_order.
      destruct (length (List.map timeOf dates) <? 3)%nat; [lia | apply clamp_range].
Qed.

(** ** Content analyser *)

Lemma removeTags_no_LT (s : jsstring) :
  forall inTag, ~ In LT (removeTags inTag s).
Proof.
  induction s as [|c s IH]; intros inTag; simpl; [tauto|].
  destruct inTag.
  - destruct (N.eqb c GT); apply IH.
  - destruct (N.eqb_spec c LT) as [->|N]; [apply IH|].
    simpl. intros [F|F]; [congruence | now apply (IH false)].
Qed.

(** X12: The snippet of a post is at most 150 code units of the content without
    its tags, followed by three dots, whether or not anything was cut; it
    holds no [<]. *)
Theorem snippet_shape (entry : Entry) :
  exists body,
    snippet (processEntry entry) = body ++ js "..." /\
    length body <= 150 /\
    length (snippet (processEntry entry)) <= 153 /\
    ~ In LT (snippet (processEntry entry)).
Proof.
  cbn [processEntry snippet].
  set (content := orDefault (orElse (entry_content entry) (entry_summary entry)) []).
  exists (substring_0 150 (removeTags false content)).
  assert (Hlen : length (substring_0 150 (removeTags false content)) <= 150).
  { unfold substring_0. rewrite length_firstn. lia. }
  split; [reflexivity|]. split; [exact Hlen|]. split.
  - rewrite length_app. simpl length at 2. lia.
  - intros F. apply in_app_or in F. destruct F as [F|F].
    + apply (firstn_incl 150) in F. now apply (removeTags_no_LT content false).
    + simpl in F. unfold LT in F.
      destruct F as [F|[F|[F|F]]]; try discriminate F. contradiction.
Qed.







(** *** Images *)

Lemma startsWithImg_head (c : codeunit) (r : jsstring) :
  N.eqb c LT = false -> startsWithImg (c :: r) = false.
Proof.
  intros H. destruct r as [|b [|d [|e r]]]; try reflexivity.
  simpl. now rewrite H.
Qed.

Lemma countImages_noLT_app (t s : jsstring) :
  noLT t -> countImages (t ++ s) = countImages s.
Proof.
  unfold noLT. induction t as [|c t IH]; intros H; [reflexivity|].
  simpl in H. apply andb_true_iff in H. destruct H as [Hc Ht].
  apply negb_true_iff in Hc.
  change ((c :: t) ++ s) with (c :: (t ++ s)).
  cbn [countImages]. rewrite (startsWithImg_head c (t ++ s) Hc).
  rewrite (IH Ht). reflexivity.
Qed.

Lemma eqbIgnoreCase_not_LT (lower c : codeunit) :
  In lower [105; 109; 103]%N -> eqbIgnoreCase lower c = true -> N.eqb c LT = false.
Proof.
  unfold eqbIgnoreCase, LT. intros Hl H. apply orb_true_iff in H.
  apply N.eqb_neq.
  destruct H as [H|H]; apply N.eqb_eq in H; simpl in Hl;
    destruct Hl as [<-|[<-|[<-|[]]]]; lia.
Qed.

(** X5: In markup made of text and image tag openers, in upper or lower case,
    with no other [<], the number of images is the number of openers. *)
Theorem countImages_pieces (pieces : list Piece) :
  Forall wellFormedPiece pieces ->
  countImages (flat_map renderPiece pieces)
  = Z.of_nat (length (filter isImgTag pieces)).
Proof.
  induction 1 as [|p pieces Hp _ IH]; [reflexivity|].
  cbn [flat_map filter]. destruct p as [opener rest|text].
  - destruct Hp as [(i & m & g & -> & Hi & Hm & Hg) Hrest].
    cbn [renderPiece isImgTag length].
    change (([LT; i; m; g] ++ rest) ++ flat_map renderPiece pieces)
      with (LT :: ([i; m; g] ++ rest) ++ flat_map renderPiece pieces).
    cbn [countImages].
    assert (Himg : startsWithImg (LT :: ([i; m; g] ++ rest) ++ flat_map renderPiece pieces)
                   = true).
    { simpl. now rewrite Hi, Hm, Hg. }
    rewrite Himg. rewrite countImages_noLT_app.
    + rewrite IH. lia.
    + unfold noLT in *. simpl.
      rewrite (@eqbIgnoreCase_not_LT 105%N i), (@eqbIgnoreCase_not_LT 109%N m),
        (@eqbIgnoreCase_not_LT 103%N g), Hrest; simpl; auto.
  - cbn [renderPiece isImgTag]. rewrite countImages_noLT_app by exact Hp.
    exact IH.
Qed.

(** *** Words *)

Lemma replaceTags_noLT (s : jsstring) : noLT s -> replaceTags false s = s.
Proof.
  unfold noLT. induction s as [|c s IH]; intros H; [reflexivity|].
  simpl in H. apply andb_true_iff in H. destruct H as [Hc Hs].
  apply negb_true_iff in Hc. simpl. rewrite Hc. simpl. now rewrite IH.
Qed.

Lemma isWord_parts (w : jsstring) :
  isWord w ->
  w <> [] /\
  forallb (fun c => negb (isWhiteSpace c)) w = true /\ noLT w.
Proof.
  intros [Hne H]. split; [exact Hne|]. unfold noLT.
  clear Hne. induction w as [|c w IH]; [now split|].
  simpl in H. apply andb_true_iff in H. destruct H as [Hc Hw].
  apply andb_true_iff in Hc. destruct Hc as [H1 H2].
  destruct (IH Hw) as [I1 I2]. simpl. now rewrite H1, H2, I1, I2.
Qed.

Lemma collapse_word (w : jsstring) :
  forall b s,
    forallb (fun c => negb (isWhiteSpace c)) w = true -> w <> [] ->
    collapseWhiteSpace b (w ++ s) = w ++ collapseWhiteSpace false s.
Proof.
  induction w as [|c w IH]; intros b s H Hne; [congruence|].
  simpl in H. apply andb_true_iff in H. destruct H as [Hc Hw].
  apply negb_true_iff in Hc. simpl. rewrite Hc. f_equal.
  destruct w as [|d w]; [reflexivity|].
  apply IH; [exact Hw | discriminate].
Qed.

Lemma joinWords_cons (w : jsstring) (rest : list jsstring) :
  rest <> [] -> joinWords (w :: rest) = w ++ SPACE :: joinWords rest.
Proof. destruct rest; [congruence | reflexivity]. Qed.

Lemma collapse_join (ws : list jsstring) :
  Forall isWord ws ->
  forall b, collapseWhiteSpace b (joinWords ws) = joinWords ws.
Proof.
  induction 1 as [|w rest Hw _ IH]; intros b; [reflexivity|].
  destruct (isWord_parts Hw) as (Hne & Hns & _).
  destruct rest as [|r rest].
  - simpl joinWords. rewrite <- (app_nil_r w) at 1.
    rewrite collapse_word by assumption. simpl. apply app_nil_r.
  - rewrite joinWords_cons by discriminate.
    rewrite collapse_word by assumption. f_equal.
    cbn [collapseWhiteSpace]. change (isWhiteSpace SPACE) with true. cbv iota.
    f_equal. apply IH.
Qed.

Lemma noLT_join (ws : list jsstring) : Forall isWord ws -> noLT (joinWords ws).
Proof.
  induction 1 as [|w rest Hw _ IH]; [reflexivity|].
  destruct (isWord_parts Hw) as (_ & _ & Hlt).
  destruct rest as [|r rest]; [exact Hlt|].
  rewrite joinWords_cons by discriminate. unfold noLT in *.
  rewrite forallb_app. apply andb_true_iff. split; [exact Hlt | exact IH].
Qed.

Lemma joinWords_head (w : jsstring) (rest : list jsstring) :
  isWord w ->
  exists h t, joinWords (w :: rest) = h :: t /\ isWhiteSpace h = false.
Proof.
  intros Hw. destruct (isWord_parts Hw) as (Hne & Hns & _).
  destruct w as [|h w]; [congruence|].
  simpl in Hns. apply andb_true_iff in Hns. destruct Hns as [Hh _].
  apply negb_true_iff in Hh.
  destruct rest as [|r rest].
  - now exists h, w.
  - rewrite joinWords_cons by discriminate.
    now exists h, (w ++ SPACE :: joinWords (r :: rest)).
Qed.

Lemma word_last (w : jsstring) :
  isWord w -> exists l c, w = l ++ [c] /\ isWhiteSpace c = false.
Proof.
  intros Hw. destruct (isWord_parts Hw) as (Hne & Hns & _).
  destruct (empty_or_last w) as [->|(l & c & ->)]; [congruence|].
  exists l, c. split; [reflexivity|].
  rewrite forallb_app in Hns. apply andb_true_iff in Hns.
  destruct Hns as [_ Hc]. simpl in Hc. rewrite andb_true_r in Hc.
  now apply negb_true_iff.
Qed.

Lemma joinWords_last (rest : list jsstring) :
  forall w,
    Forall isWord (w :: rest) ->
    exists l c, joinWords (w :: rest) = l ++ [c] /\ isWhiteSpace c = false.
Proof.
  induction rest as [|r rest IH]; intros w H; inversion H as [|? ? Hw Hrest]; subst.
  - simpl. now apply word_last.
  - destruct (IH r Hrest) as (l & c & E & Hc).
    rewrite joinWords_cons by discriminate. rewrite E.
    exists (w ++ SPACE :: l), c. split; [|exact Hc].
    now rewrite <- app_assoc.
Qed.

Lemma trim_id (s l t : jsstring) (h c : codeunit) :
  s = h :: t -> isWhiteSpace h = false ->
  s = l ++ [c] -> isWhiteSpace c = false ->
  trim s = s.
Proof.
  intros E1 Hh E2 Hc. unfold trim. rewrite E1 at 1.
  rewrite dropWhile_keep by exact Hh. rewrite <- E1, E2.
  now apply dropWhileEnd_keep.
Qed.

Lemma count_spaces_word (w : jsstring) :
  forallb (fun c => negb (isWhiteSpace c)) w = true ->
  count_occ N.eq_dec w SPACE = 0.
Proof.
  induction w as [|c w IH]; intros H; [reflexivity|].
  simpl in H. apply andb_true_iff in H. destruct H as [Hc Hw].
  apply negb_true_iff in Hc. simpl.
  destruct (N.eq_dec c SPACE) as [->|_]; [discriminate Hc | now apply IH].
Qed.

Lemma count_spaces_join (ws : list jsstring) :
  Forall isWord ws ->
  count_occ N.eq_dec (joinWords ws) SPACE = length ws - 1.
Proof.
  induction 1 as [|w rest Hw _ IH]; [reflexivity|].
  destruct (isWord_parts Hw) as (_ & Hns & _).
  destruct rest as [|r rest].
  - simpl. now apply count_spaces_word.
  - rewrite joinWords_cons by discriminate.
    pose proof (count_spaces_word w Hns) as Hword.
    unfold jsstring, codeunit in *.
    rewrite count_occ_app, Hword.
    rewrite count_occ_cons_eq by reflexivity. rewrite IH. simpl. lia.
Qed.

(** X4: Plain text of words separated by single spaces counts as many words as
    it has; the empty text counts none. *)
Theorem countWords_joinWords (ws : list jsstring) :
  Forall isWord ws -> countWords (joinWords ws) = Z.of_nat (length ws).
Proof.
  intros H. destruct ws as [|w rest]; [reflexivity|].
  inversion H as [|? ? Hw Hrest]; subst.
  destruct (joinWords_head rest Hw) as (h & t & Eh & Hh).
  destruct (joinWords_last H) as (l & c & El & Hc).
  assert (Htext : trim (collapseWhiteSpace false
                          (replaceTags false (joinWords (w :: rest))))
                  = joinWords (w :: rest)).
  { rewrite (replaceTags_noLT (noLT_join H)), (collapse_join H).
    exact (@trim_id _ l t h c Eh Hh El Hc). }
  pose proof (count_spaces_join H) as Hcount.
  unfold countWords. rewrite Htext.
  unfold jsstring, codeunit in *. rewrite Hcount, Eh.
  simpl length. f_equal. lia.
Qed.

(** ** Adding *)

Lemma addBlogBody_ok_fresh (rt : Runtime) (st : AppState) (log log' : Log)
    (newBlog : BlogMetadata) :
  addBlogBody rt st log = (Ok newBlog, log') ->
  ~ In (normalizeUrl (newBlogUrl st)) (List.map url (blogs st)).
Proof.
  unfold addBlogBody.
  destruct (existsb _ _) eqn:E; [discriminate|]. intros _ Hin.
  apply in_map_iff in Hin. destruct Hin as (b & Hb & Hin).
  assert (F : existsb (fun b => jsstring_eqb (url b) (normalizeUrl (newBlogUrl st)))
                (blogs st) = true).
  { apply existsb_exists. exists b. split; [exact Hin|]. now apply jsstring_eqb_true. }
  congruence.
Qed.


Lemma handleAddBlog_cases (rt : Runtime) (st : AppState) (log : Log) :
  exists update log',
    handleAddBlog rt st log = (Ok update, log') /\
    forall prev,
      (blogs (update prev) = blogs prev /\
       view (update prev) = view prev /\
       newBlogUrl (update prev) = newBlogUrl prev)
      \/
      (exists newBlog,
          blogs (update prev) = newBlog :: blogs prev /\
          url newBlog = normalizeUrl (newBlogUrl st) /\
          ~ In (url newBlog) (List.map url (blogs st)) /\
          id newBlog = randomUUID rt /\
          isFavorite newBlog = false /\
          addError (update prev) = [] /\
          newBlogUrl (update prev) = [] /\
          view (update prev) = Directory).
Proof.
  unfold handleAddBlog. destruct (newBlogUrl st) as [|c r] eqn:Eu.
  - eexists. eexists. split; [reflexivity|]. intros prev. left. repeat split; reflexivity.
  - try rewrite <- Eu. cbv iota. unfold tryCatch, bind.
    destruct (addBlogBody rt st log) as [[newBlog|e] l] eqn:E.
    + eexists. eexists. split; [reflexivity|]. intros prev. right.
      exists newBlog. split; [reflexivity|].
      pose proof (addBlogBody_ok_fresh _ _ _ E) as Hfresh.
      apply addBlogBody_ok_inv in E. destruct E as (a & _ & ->).
      cbn [newBlogOf url id isFavorite].
      repeat split; try reflexivity; exact Hfresh.
    + eexists. eexists. split; [reflexivity|]. intros prev. left. repeat split; reflexivity.
Qed.



(** X17: [handleAddBlog] catches every exception.  It leaves the collection as it
    is, or puts one record in front of it: a record with the normalised URL,
    which no record of the collection it was started with has, with the
    generated identifier and not marked as favourite; the form is then
    cleared and the directory shown. *)
Theorem handleAddBlog_outcome (rt : Runtime) (st : AppState) (log : Log) :
  exists update log',
    handleAddBlog rt st log = (Ok update, log') /\
    forall prev,
      (blogs (update prev) = blogs prev /\
       view (update prev) = view prev /\
       newBlogUrl (update prev) = newBlogUrl prev)
      \/
      (exists newBlog,
          blogs (update prev) = newBlog :: blogs prev /\
          url newBlog = normalizeUrl (newBlogUrl st) /\
          ~ In (url newBlog) (List.map url (blogs st)) /\
          id newBlog = randomUUID rt /\
          isFavorite newBlog = false /\
          addError (update prev) = [] /\
          newBlogUrl (update prev) = [] /\
          view (update prev) = Directory).
Proof. apply handleAddBlog_cases. Qed.


(** X19: A URL that normalises to the URL of a record of the collection is
    rejected before any request is issued; the collection stays as it is and
    the form shows the reason. *)
Theorem duplicate_is_rejected (rt : Runtime) (st : AppState) (log : Log) :
  newBlogUrl st <> [] ->
  In (normalizeUrl (newBlogUrl st)) (List.map url (blogs st)) ->
  exists update,
    handleAddBlog rt st log = (Ok update, log) /\
    forall prev,
      blogs (update prev) = blogs prev /\
      addError (update prev) = js "Blog already exists in your library.".
Proof.
  intros Hurl Hin.
  assert (E : existsb (fun b => jsstring_eqb (url b) (normalizeUrl (newBlogUrl st)))
                (blogs st) = true).
  { apply in_map_iff in Hin. destruct Hin as (b & Hb & Hin).
    apply existsb_exists. exists b. split; [exact Hin|]. now apply jsstring_eqb_true. }
  assert (Hbody : addBlogBody rt st log
                  = (Throw (newError (js "Blog already exists in your library.")), log)).
  { unfold addBlogBody. now rewrite E. }
  unfold handleAddBlog.
  destruct (newBlogUrl st) as [|c r] eqn:Eu; [congruence|]. cbv iota.
  unfold tryCatch, bind. rewrite Hbody.
  eexists. split; [reflexivity|]. intros prev. split; reflexivity.
Qed.

(** X20: Adding keeps the URLs of the collection distinct. *)
Theorem add_keeps_urls_distinct (rt : Runtime) (st : AppState) (log log' : Log)
    (update : Update) :
  NoDup (List.map url (blogs st)) ->
  handleAddBlog rt st log = (Ok update, log') ->
  NoDup (List.map url (blogs (update st))).
Proof.
  intros Hnd Hrun.
  destruct (handleAddBlog_cases rt st log) as (u & l & Hu & Hcases).
  rewrite Hrun in Hu. inversion Hu; subst u l.
  destruct (Hcases st) as [(-> & _)|(nb & -> & _ & Hfresh & _)]; [exact Hnd|].
  simpl. constructor; assumption.
Qed.

(** ** Refreshing, in any outcome *)

Lemma firstSeen_NoDup_id (l : list jsstring) : NoDup l -> firstSeen l = l.
Proof.
  unfold firstSeen.
  assert (G : forall seen, NoDup l -> (forall t, In t l -> ~ In t seen) ->
                           keepNew seen l = l).
  { induction l as [|x l IH]; intros seen Hnd Hdis; [reflexivity|].
    inversion Hnd as [|? ? Hx Hl]; subst. simpl.
    assert (E : Set_has seen x = false).
    { apply Set_has_not_In. apply Hdis. now left. }
    rewrite E. f_equal. apply IH; [exact Hl|].
    intros t Ht [F|F]; [now subst | apply (Hdis t); [now right | exact F]]. }
  intros H. apply G; [exact H | intros t _ F; exact F].
Qed.

Lemma keepNew_app (l1 l2 : list jsstring) :
  forall seen,
    keepNew seen (l1 ++ l2) = keepNew seen l1 ++ keepNew (rev l1 ++ seen) l2.
Proof.
  induction l1 as [|x l1 IH]; intros seen; [reflexivity|].
  simpl. destruct (Set_has seen x) eqn:E.
  - rewrite IH. f_equal. apply keepNew_ext. intros t.
    apply eq_true_iff_eq. rewrite !Set_has_In. simpl rev.
    rewrite !in_app_iff. simpl In. apply Set_has_In in E.
    split; [tauto|]. intros [[H|[<-|[]]]|H]; tauto.
  - simpl. rewrite IH. do 2 f_equal. apply keepNew_ext. intros t.
    apply eq_true_iff_eq. rewrite !Set_has_In. simpl rev.
    rewrite !in_app_iff. simpl In. tauto.
Qed.

Lemma keepNew_all_seen (l seen : list jsstring) :
  incl l seen -> keepNew seen l = [].
Proof.
  induction l as [|x l IH]; intros H; [reflexivity|].
  simpl. assert (E : Set_has seen x = true).
  { apply Set_has_In. apply H. now left. }
  rewrite E. apply IH. intros t Ht. apply H. now right.
Qed.

Lemma firstSeen_absorb (old new : list jsstring) :
  firstSeen (firstSeen (old ++ new) ++ new) = firstSeen (old ++ new).
Proof.
  set (l := firstSeen (old ++ new)).
  unfold firstSeen at 1. rewrite keepNew_app.
  change (keepNew [] l) with (firstSeen l).
  rewrite (@firstSeen_NoDup_id l) by apply keepNew_NoDup.
  rewrite keepNew_all_seen; [apply app_nil_r|].
  intros t Ht. apply in_or_app. left. apply -> in_rev.
  unfold l. apply firstSeen_In. apply in_or_app. now right.
Qed.

(** X21: The labels after a refresh: every stored label and every new label is
    there, none twice; stored labels that were distinct stay in front, in
    their order.  A later refresh with the same analysis keeps the labels
    and changes nothing in the record but the time of the last check, which
    becomes the clock reading of the later refresh. *)
Theorem refreshed_tags (rt : Runtime) (a : Analysis) (b : BlogMetadata) :
  NoDup (tags (refreshed rt a b)) /\
  (forall t, In t (tags (refreshed rt a b)) <-> In t (tags b) \/ In t (a_tags a)) /\
  (NoDup (tags b) -> exists added, tags (refreshed rt a b) = tags b ++ added) /\
  (forall later : Runtime,
      tags (refreshed later a (refreshed rt a b)) = tags (refreshed rt a b) /\
      refreshed later a (refreshed rt a b)
      = withLastCheckedAt (ValidDate (now later)) (refreshed rt a b)).
Proof.
  cbn [refreshed tags]. rewrite !Set_fromArray_firstSeen.
  split; [apply keepNew_NoDup|].
  split; [intros t; rewrite firstSeen_In; apply in_app_iff|].
  split.
  - intros Hnd. unfold firstSeen. rewrite keepNew_app.
    fold (firstSeen (tags b)). rewrite (firstSeen_NoDup_id Hnd). eauto.
  - intros later. split; [apply firstSeen_absorb|].
    unfold refreshed, withLastCheckedAt.
    cbn [id url feedUrl title description lastBuildDate category tags status
         isFavorite sentimentScore qualityScore language addedAt posts stats].
    rewrite !Set_fromArray_firstSeen, firstSeen_absorb. reflexivity.
Qed.

Lemma refreshRecord_sameIdentity (rt : Runtime) (blogId : jsstring)
    (outcome : Result Analysis) (b : BlogMetadata) :
  sameIdentity b (refreshRecord rt blogId outcome b).
Proof.
  destruct outcome as [a|e]; simpl; [|apply sameIdentity_refl].
  destruct (jsstring_eqb (id b) blogId);
    [apply refreshed_sameIdentity | apply sameIdentity_refl].
Qed.

Lemma sameIdentities_map (f : BlogMetadata -> BlogMetadata) (l : list BlogMetadata) :
  (forall b, sameIdentity b (f b)) -> sameIdentities l (List.map f l).
Proof.
  intros H. induction l as [|b l IH]; constructor; [apply H | exact IH].
Qed.

Lemma sameIdentities_refl (l : list BlogMetadata) : sameIdentities l l.
Proof. induction l; constructor; [apply sameIdentity_refl | assumption]. Qed.

Lemma sameIdentity_trans (a b c : BlogMetadata) :
  sameIdentity a b -> sameIdentity b c -> sameIdentity a c.
Proof.
  unfold sameIdentity. intros (A1 & A2 & A3 & A4 & A5 & A6 & A7 & A8)
                              (B1 & B2 & B3 & B4 & B5 & B6 & B7 & B8).
  repeat split; congruence.
Qed.

Lemma sameIdentities_trans (l1 l2 l3 : list BlogMetadata) :
  sameIdentities l1 l2 -> sameIdentities l2 l3 -> sameIdentities l1 l3.
Proof.
  intros H. revert l3. induction H as [|a b l1 l2 Hab _ IH]; intros l3 H23;
    inversion H23; subst; constructor.
  - eapply sameIdentity_trans; eassumption.
  - now apply IH.
Qed.

Lemma setBlogs_id (prev : AppState) : setBlogs (List.map (fun b => b)) prev = prev.
Proof. destruct prev. unfold setBlogs. simpl. now rewrite map_id. Qed.

(** What a refresh does to the state, in every case: the identifier is
    unknown (no request), the analysis fails, or it succeeds. *)
Lemma handleRefreshBlog_cases (rt : Runtime) (st : AppState) (blogId : jsstring)
    (log : Log) :
  (find (fun b => jsstring_eqb (id b) blogId) (blogs st) = None /\
   handleRefreshBlog rt st blogId log = (Ok (fun prev => prev), log))
  \/
  (exists blog update,
      find (fun b => jsstring_eqb (id b) blogId) (blogs st) = Some blog /\
      handleRefreshBlog rt st blogId log
      = (Ok update, logAfter (analyzeBlogAndFetch rt (url blog)) log) /\
      forall prev,
        update prev
        = setBlogs
            (List.map
               (refreshRecord rt blogId
                  (fst (analyzeBlogAndFetch rt (url blog) log)))) prev).
Proof.
  unfold handleRefreshBlog, logAfter.
  destruct (find _ (blogs st)) as [blog|]; [right | left; now split].
  exists blog. unfold tryCatch, bind.
  destruct (analyzeBlogAndFetch rt (url blog) log) as [[a|e] l]; simpl.
  - eexists. split; [reflexivity|]. split; [reflexivity|]. reflexivity.
  - eexists. split; [reflexivity|]. split; [reflexivity|].
    intros prev. symmetry. apply setBlogs_id.
Qed.

Lemma refresh_identities_helper (rt : Runtime) (st : AppState)
    (blogId : jsstring) (log : Log) :
  exists update log',
    handleRefreshBlog rt st blogId log = (Ok update, log') /\
    issues rt 0 16 log log' /\
    forall prev,
      sameIdentities (blogs prev) (blogs (update prev)) /\
      view (update prev) = view prev /\
      newBlogUrl (update prev) = newBlogUrl prev /\
      addError (update prev) = addError prev.
Proof.
  destruct (handleRefreshBlog_cases rt st blogId log)
    as [[Hnone Hrun]|(blog & update & Hfind & Hrun & Hupd)].
  - eexists. eexists. split; [exact Hrun|]. split.
    + eapply issues_weaken; [| |apply issues_refl]; lia.
    + intros prev. split; [apply sameIdentities_refl | now repeat split].
  - exists update. eexists. split; [exact Hrun|]. split.
    + eapply issues_weaken; [| |apply analysis_requests_shared]; lia.
    + intros prev. rewrite Hupd. split; [|now repeat split].
      apply sameIdentities_map. apply refreshRecord_sameIdentity.
Qed.

(** X22: A refresh catches every exception and issues at most sixteen requests,
    none when the identifier is unknown.  In every outcome each record of
    the collection keeps its place and its identifier, URL, feed URL,
    category, sentiment score, language, favourite mark and date of addition,
    and the rest of the state stays as it is. *)
Theorem refresh_preserves_identities (rt : Runtime) (st : AppState)
    (blogId : jsstring) (log : Log) :
  exists update log',
    handleRefreshBlog rt st blogId log = (Ok update, log') /\
    issues rt 0 16 log log' /\
    (find (fun b => jsstring_eqb (id b) blogId) (blogs st) = None -> log' = log) /\
    forall prev,
      sameIdentities (blogs prev) (blogs (update prev)) /\
      view (update prev) = view prev /\
      newBlogUrl (update prev) = newBlogUrl prev /\
      addError (update prev) = addError prev.
Proof.
  destruct (handleRefreshBlog_cases rt st blogId log)
    as [[Hnone Hrun]|(blog & update & Hfind & Hrun & Hupd)].
  - eexists. eexists. split; [exact Hrun|]. split.
    + eapply issues_weaken; [| |apply issues_refl]; lia.
    + split; [reflexivity|]. intros prev.
      split; [apply sameIdentities_refl | now repeat split].
  - exists update. eexists. split; [exact Hrun|]. split.
    + eapply issues_weaken; [| |apply analysis_requests_shared]; lia.
    + split; [rewrite Hfind; discriminate|]. intros prev. rewrite Hupd.
      split; [|now repeat split].
      apply sameIdentities_map. apply refreshRecord_sameIdentity.
Qed.

(** ** Favourites and removal *)

Lemma toggled_involutive (b : BlogMetadata) : toggled (toggled b) = b.
Proof. destruct b. unfold toggled. simpl. now rewrite negb_involutive. Qed.

(** X24: Marking twice restores the state; one marking flips the favourite mark
    of the records with the identifier and touches nothing else. *)
Theorem toggle_favorite_involutive (blogId : jsstring) (st : AppState) :
  handleToggleFavorite blogId (handleToggleFavorite blogId st) = st /\
  forall i b,
    nth_error (blogs st) i = Some b ->
    exists b',
      nth_error (blogs (handleToggleFavorite blogId st)) i = Some b' /\
      (id b <> blogId -> b' = b) /\
      (id b = blogId -> isFavorite b' = negb (isFavorite b) /\ toggled b' = b).
Proof.
  split.
  - destruct st as [bs v u e]. unfold handleToggleFavorite, setBlogs. simpl.
    f_equal. rewrite map_map. rewrite <- (map_id bs) at 2.
    apply map_ext. intros b.
    destruct (jsstring_eqb (id b) blogId) eqn:E.
    + change (id (toggled b)) with (id b). rewrite E. apply toggled_involutive.
    + now rewrite E.
  - intros i b Hb. unfold handleToggleFavorite, setBlogs. cbn [blogs].
    rewrite nth_error_map, Hb. cbn [option_map].
    eexists. split; [reflexivity|].
    destruct (jsstring_eqb (id b) blogId) eqn:E.
    + apply jsstring_eqb_true in E. split; [congruence|]. intros _.
      split; [reflexivity | apply toggled_involutive].
    + apply jsstring_eqb_false in E. split; [reflexivity | congruence].
Qed.

(** X25: A confirmed removal takes out exactly the records with the identifier;
    a declined one changes nothing;
    removing a record that was just put in front, under an identifier no
    other record has, gives back the collection. *)
Theorem delete_removes_exactly (blogId : jsstring) (st : AppState) :
  (forall b,
      In b (blogs (handleDeleteBlog true blogId st))
      <-> In b (blogs st) /\ id b <> blogId) /\
  handleDeleteBlog false blogId st = st /\
  (forall newBlog,
      id newBlog = blogId ->
      (forall b, In b (blogs st) -> id b <> blogId) ->
      blogs (handleDeleteBlog true blogId (setBlogs (cons newBlog) st))
      = blogs st).
Proof.
  split; [|split].
  - intros b. unfold handleDeleteBlog, setBlogs. cbn [blogs].
    rewrite filter_In. rewrite negb_true_iff, jsstring_eqb_false. tauto.
  - reflexivity.
  - intros nb Hid Hfresh. unfold handleDeleteBlog, setBlogs. cbn [blogs filter].
    rewrite Hid, jsstring_eqb_refl. cbn [negb].
    induction (blogs st) as [|b bs IH]; [reflexivity|].
    cbn [filter].
    assert (E : jsstring_eqb (id b) blogId = false).
    { apply jsstring_eqb_false. apply Hfresh. now left. }
    rewrite E. cbn [negb]. f_equal. apply IH.
    intros b' Hb'. apply Hfresh. now right.
Qed.

(** ** Refreshing everything *)

Lemma refreshLoop_spec (rt : Runtime) (st : AppState) (todo : list BlogMetadata) :
  forall log,
  exists update log',
    refreshLoop rt st todo log = (Ok update, log') /\
    issues rt 0 (16 * length todo) log log' /\
    forall prev,
      sameIdentities (blogs prev) (blogs (update prev)) /\
      view (update prev) = view prev /\
      newBlogUrl (update prev) = newBlogUrl prev /\
      addError (update prev) = addError prev.
Proof.
  induction todo as [|blog rest IH]; intros log.
  - eexists. eexists. split; [reflexivity|]. split; [apply issues_refl|].
    intros prev. split; [apply sameIdentities_refl | now repeat split].
  - destruct (refresh_identities_helper rt st (id blog) log)
      as (u1 & l1 & Hrun1 & Hreq1 & Hst1).
    destruct (IH l1) as (u2 & l2 & Hrun2 & Hreq2 & Hst2).
    exists (andThen u1 u2), l2. split.
    + cbn [refreshLoop]. erewrite bind_ok by exact Hrun1.
      erewrite bind_ok by exact Hrun2. reflexivity.
    + split.
      * replace (16 * length (blog :: rest)) with (16 + 16 * length rest)
          by (simpl length; lia).
        apply (issues_trans (a := 0) (c := 0) Hreq1 Hreq2).
      * intros prev. unfold andThen.
        destruct (Hst1 prev) as (S1 & V1 & N1 & A1).
        destruct (Hst2 (u1 prev)) as (S2 & V2 & N2 & A2).
        split; [eapply sameIdentities_trans; eassumption|].
        repeat split; congruence.
Qed.

(** X23: [refreshAll] catches every exception, issues at most sixteen requests
    for each record of the collection (none for an empty one), and keeps, in
    every outcome, the place and the identity of every record and the rest
    of the state. *)
Theorem refreshAll_preserves_identities (rt : Runtime) (st : AppState) (log : Log) :
  exists update log',
    refreshAll rt st log = (Ok update, log') /\
    issues rt 0 (16 * length (blogs st)) log log' /\
    forall prev,
      sameIdentities (blogs prev) (blogs (update prev)) /\
      view (update prev) = view prev /\
      newBlogUrl (update prev) = newBlogUrl prev /\
      addError (update prev) = addError prev.
Proof. apply refreshLoop_spec. Qed.

(** ** Feed reader, in every outcome *)



(** ** URL normaliser: the shape of the result *)

Lemma endsWith_slash_snoc_false (l : jsstring) (c : codeunit) :
  isSlash c = false -> endsWith (l ++ [c]) (js "/") = false.
Proof. intros H. change (js "/") with [SLASH]. now rewrite endsWith_snoc. Qed.

(** X1: The result always starts with [http].  It ends with a slash only when it
    is the bare prefix [https://], which is what blank input and input of
    slashes only give. *)
Theorem normalizeUrl_shape (x : jsstring) :
  startsWith (normalizeUrl x) (js "http") = true /\
  (endsWith (normalizeUrl x) (js "/") = true <-> normalizeUrl x = js "https://") /\
  (normalizeUrl x = js "https://" <-> stripTrailingSlashes (trim x) = []).
Proof.
  rewrite normalizeUrl_refines.
  destruct (normalize_spec_shape x) as [[r Hr] Hlast].
  split; [rewrite Hr; apply startsWith_app|].
  destruct (dropWhileEnd_last isSlash (trim x)) as [E|(l & c & E & Hc)];
    fold (stripTrailingSlashes (trim x)) in E.
  - assert (Hn : normalize_spec x = js "https://").
    { unfold normalize_spec. now rewrite E. }
    rewrite Hn, E. split; split; reflexivity.
  - destruct (Hlast l c E) as [l' Hl'].
    assert (Hends : endsWith (normalize_spec x) (js "/") = false).
    { rewrite Hl'. now apply endsWith_slash_snoc_false. }
    assert (Hne : normalize_spec x <> js "https://").
    { intros F. rewrite F in Hends. discriminate Hends. }
    rewrite Hends, E. split; split; intros H; try discriminate H; try contradiction.
    destruct l; discriminate H.
Qed.

(** ** Dashboard *)

Lemma fold_quality (scores : list Z) (bs : list BlogMetadata) (acc : R) :
  List.map qualityScore bs = List.map ofZ scores ->
  fold_left (fun a b => a + qualityScore b)%num bs (Fin acc)
  = Fin (acc + sumR (List.map IZR scores)).
Proof.
  revert scores acc. induction bs as [|b bs IH]; intros scores acc H.
  - destruct scores; [|discriminate H]. simpl. f_equal. lra.
  - destruct scores as [|q scores]; [discriminate H|].
    simpl in H. injection H as Hq Hrest.
    cbn [fold_left]. rewrite Hq. cbn [nadd lift2 ofZ].
    rewrite (IH scores _ Hrest). cbn [List.map]. rewrite sumR_cons. f_equal. lra.
Qed.

Lemma sumR_bounds (lo hi : R) (l : list R) :
  Forall (fun q => lo <= q <= hi)%R l ->
  (INR (length l) * lo <= sumR l <= INR (length l) * hi)%R.
Proof.
  induction 1 as [|q l Hq _ IH].
  - simpl. lra.
  - rewrite sumR_cons. cbn [length]. rewrite S_INR. lra.
Qed.

(** X27: The average quality of the dashboard is 0 for an empty collection; when
    every record has an integer score between two bounds, the average is an
    integer between the same bounds. *)
Theorem avgQualityScore_bounds (st : AppState) (scores : list Z) (lo hi : Z) :
  List.map qualityScore (blogs st) = List.map ofZ scores ->
  Forall (fun q => lo <= q <= hi)%Z scores ->
  (blogs st = [] -> avgQualityScore st = Fin 0) /\
  (blogs st <> [] ->
   exists z, avgQualityScore st = ofZ z /\ (lo <= z <= hi)%Z).
Proof.
  intros Hmap Hbounds. unfold avgQualityScore. split.
  - now intros ->.
  - intros Hne.
    assert (Hlen : length (blogs st) = length scores).
    { rewrite <- (length_map qualityScore), Hmap. apply length_map. }
    destruct (Nat.ltb_spec 0 (length (blogs st))) as [Hpos|Hz];
      [|destruct (blogs st); [congruence | simpl in Hz; lia]].
    rewrite (fold_quality scores (blogs st) 0 Hmap).
    cbn [ofNat ndiv lift2 Math_round]. eexists. split; [reflexivity|].
    apply round_bounds.
    assert (HR : Forall (fun q => IZR lo <= q <= IZR hi)%R (List.map IZR scores)).
    { apply Forall_map. eapply Forall_impl; [|exact Hbounds].
      intros q [L U]. split; now apply IZR_le. }
    apply sumR_bounds in HR. rewrite length_map, <- Hlen in HR.
    assert (Hn : (0 < INR (length (blogs st)))%R) by (apply lt_0_INR; exact Hpos).
    set (n := INR (length (blogs st))) in *.
    set (s := sumR (List.map IZR scores)) in *.
    replace ((0 + s) / n)%R with (s / n)%R by (f_equal; lra).
    split.
    + apply Rmult_le_reg_r with (r := n); [exact Hn|].
      unfold Rdiv. rewrite Rmult_assoc, Rinv_l by lra. lra.
    + apply Rmult_le_reg_r with (r := n); [exact Hn|].
      unfold Rdiv. rewrite Rmult_assoc, Rinv_l by lra. lra.
Qed.

(** ** Filter *)

(** X26: The favourites view shows the favourites among what the directory view
    shows for the same search text and category, in the same order. *)
Theorem favorites_view_of_directory (rt : Runtime) (st : AppState)
    (searchQuery selectedCategory : jsstring) :
  filteredBlogs rt (setView Favorites st) searchQuery selectedCategory
  = filter isFavorite
      (filteredBlogs rt (setView Directory st) searchQuery selectedCategory) /\
  forall b,
    In b (filteredBlogs rt st searchQuery selectedCategory) ->
    In b (blogs st) /\
    (selectedCategory = js "All" \/ category b = selectedCategory) /\
    (view st = Favorites -> isFavorite b = true).
Proof.
  split.
  - unfold filteredBlogs, setView. cbn [view blogs].
    induction (blogs st) as [|b bs IH]; [reflexivity|].
    cbn [filter].
    destruct (matchesSearch rt searchQuery b && matchesCategory selectedCategory b);
      cbn [andb filter].
    + destruct (isFavorite b); [now rewrite IH | exact IH].
    + exact IH.
  - intros b Hb. unfold filteredBlogs in Hb. apply filter_In in Hb.
    destruct Hb as [Hin Hf]. split; [exact Hin|].
    assert (Hm : matchesCategory selectedCategory b = true
                 /\ (view st = Favorites -> isFavorite b = true)).
    { destruct (view st);
        try (apply andb_true_iff in Hf; destruct Hf as [_ Hc];
             split; [exact Hc | discriminate]).
      apply andb_true_iff in Hf. destruct Hf as [Hf Hfav].
      apply andb_true_iff in Hf. destruct Hf as [_ Hc].
      split; [exact Hc | intros _; exact Hfav]. }
    destruct Hm as [Hc Hfav]. split; [|exact Hfav].
    unfold matchesCategory in Hc. apply orb_true_iff in Hc.
    destruct Hc as [Hc|Hc]; apply jsstring_eqb_true in Hc; auto.
Qed.

(** ** A feed without posts *)

(** X14: The snapshot of a blog whose feed has no posts: no posts and no labels,
    the consistency score of too small a sample (50), every average and the
    comment total 0, and the clock reading as the last build date and the
    last post date. *)
Theorem empty_sample_snapshot (rt : Runtime) (blogUrl : jsstring)
    (log log' log1 : Log) (a : Analysis) (postsFeed : Feed) :
  analyzeBlogAndFetch rt blogUrl log = (Ok a, log') ->
  fetchJsonFeed rt (normalizeUrl blogUrl) Posts 25 1 log
  = (Ok (Some postsFeed), log1) ->
  entriesOf (Some postsFeed) = [] ->
  a_posts a = [] /\ a_tags a = [] /\
  a_lastBuildDate a = ValidDate (now rt) /\
  lastPostDate (a_stats a) = ValidDate (now rt) /\
  consistencyScore (a_stats a) = Fin 50 /\
  totalComments (a_stats a) = Fin 0 /\
  avgCommentsPerPost (a_stats a) = Fin 0 /\
  avgWordsPerPost (a_stats a) = Fin 0 /\
  avgImagesPerPost (a_stats a) = Fin 0 /\
  avgDaysBetweenPosts (a_stats a) = Fin 0.
Proof.
  intros Ha Hfeed Hempty. apply analyzeBlogAndFetch_ok_snapshot in Ha.
  destruct Ha as (pf & l1 & html & pagesFeed & creation & f & l & F1 & _ & Hl & ->).
  rewrite Hfeed in F1. inversion F1; subst pf l1.
  unfold newestLocalDate, localDates in Hl. rewrite Hempty in Hl.
  cbn [List.map hd] in Hl. inversion Hl; subst l.
  unfold snapshotOf, localDates. rewrite Hempty.
  cbn [a_posts a_tags a_lastBuildDate a_stats buildStats List.map length
       lastPostDate consistencyScore totalComments avgCommentsPerPost
       avgWordsPerPost avgImagesPerPost avgDaysBetweenPosts fold_left
       Nat.ltb Nat.leb andb].
  rewrite !firstn_nil, andb_false_r.
  repeat split; try reflexivity.
  cbn [nmul ndiv lift2 Math_round ofZ]. f_equal.
  replace (0 * 10)%R with 0%R by lra.
  rewrite (@round_spec 0%R 0%Z) by (simpl; lra). simpl. lra.
Qed.

(** ** Content statistics *)

Lemma countWords_nonneg (html : jsstring) : (0 <= countWords html)%Z.
Proof.
  unfold countWords. destruct html; [lia|].
  destruct (trim _); lia.
Qed.

Lemma countImages_nonneg (html : jsstring) : (0 <= countImages html)%Z.
Proof.
  induction html as [|c r IH]; [simpl; lia|].
  cbn [countImages]. destruct (startsWithImg (c :: r)); lia.
Qed.

Lemma sumZ_nonneg (l : list Z) : Forall (fun z => 0 <= z)%Z l -> (0 <= sumZ l)%Z.
Proof.
  unfold sumZ. assert (G : forall acc, (0 <= acc)%Z ->
                           Forall (fun z => 0 <= z)%Z l ->
                           (0 <= fold_left Z.add l acc)%Z).
  { induction l as [|z l IH]; intros acc Hacc H; [exact Hacc|].
    inversion H; subst. cbn [fold_left]. apply IH; [lia | assumption]. }
  apply G. lia.
Qed.

Lemma round_nonneg (x : R) : (0 <= x)%R -> (0 <= round x)%Z.
Proof.
  intros H. unfold round.
  destruct (base_Int_part (x + / 2)) as [_ H2].
  set (z := Int_part (x + / 2)) in *.
  assert (L : (IZR (-1) < IZR z)%R) by lra.
  apply lt_IZR in L. lia.
Qed.

Lemma average_nonneg (s : Z) (n : nat) :
  (0 <= s)%Z -> 0 < n -> (0 <= IZR s / INR n)%R.
Proof.
  intros Hs Hn. apply IZR_le in Hs. apply lt_0_INR in Hn.
  apply Rmult_le_pos; [exact Hs|]. apply Rlt_le, Rinv_0_lt_compat, Hn.
Qed.

(** X13: In every snapshot the word and image counts of the posts are natural
    numbers, the average words of a post and of a page are natural numbers,
    and the average images of a post is a natural number of tenths: none of
    them is [NaN], whatever the feed holds. *)
Theorem snapshot_content_averages (rt : Runtime) (blogUrl : jsstring)
    (log log' : Log) (a : Analysis) :
  analyzeBlogAndFetch rt blogUrl log = (Ok a, log') ->
  Forall (fun p => (0 <= wordCount p)%Z /\ (0 <= imageCount p)%Z) (a_posts a) /\
  (exists w, avgWordsPerPost (a_stats a) = ofZ w /\ (0 <= w)%Z) /\
  (exists p, avgWordsPerPage (a_stats a) = ofZ p /\ (0 <= p)%Z) /\
  (exists k, avgImagesPerPost (a_stats a) = (ofZ k / Fin 10)%num /\ (0 <= k)%Z).
Proof.
  intros Ha. apply analyzeBlogAndFetch_ok_snapshot in Ha.
  destruct Ha as (pf & l1 & html & pagesFeed & creation & f & l & _ & _ & _ & ->).
  unfold snapshotOf.
  cbn [a_posts a_stats buildStats avgWordsPerPost avgWordsPerPage avgImagesPerPost].
  set (es := entriesOf (Some pf)).
  assert (Hw : Forall (fun z => 0 <= z)%Z (List.map wordCount (List.map processEntry es))).
  { apply Forall_map, Forall_map, Forall_forall. intros e _. apply countWords_nonneg. }
  assert (Hi : Forall (fun z => 0 <= z)%Z (List.map imageCount (List.map processEntry es))).
  { apply Forall_map, Forall_map, Forall_forall. intros e _. apply countImages_nonneg. }
  split; [|split; [|split]].
  - apply Forall_forall. intros p Hp. apply firstn_incl in Hp.
    apply in_map_iff in Hp. destruct Hp as (e & <- & _).
    split; [apply countWords_nonneg | apply countImages_nonneg].
  - destruct (Nat.ltb_spec 0 (length (List.map processEntry es))) as [Hn|_].
    + cbn [ofZ ofNat ndiv lift2 Math_round]. eexists. split; [reflexivity|].
      apply round_nonneg, average_nonneg; [now apply sumZ_nonneg | exact Hn].
    + exists 0%Z. split; [reflexivity | lia].
  - destruct (Nat.ltb_spec 0 (length (entriesOf pagesFeed))) as [Hn|_].
    + cbn [ofZ ofNat ndiv lift2 Math_round]. eexists. split; [reflexivity|].
      apply round_nonneg, average_nonneg; [|exact Hn].
      apply sumZ_nonneg, Forall_map, Forall_map, Forall_forall.
      intros e _. apply countWords_nonneg.
    + exists 0%Z. split; [reflexivity | lia].
  - destruct (Nat.ltb_spec 0 (length (List.map processEntry es))) as [Hn|_].
    + cbn [ofZ ofNat ndiv nmul lift2 Math_round]. eexists. split; [reflexivity|].
      apply round_nonneg.
      pose proof (average_nonneg (sumZ_nonneg Hi) Hn). lra.
    + exists 0%Z. split; [|lia]. cbn [ofZ ndiv lift2]. f_equal. lra.
Qed.

(** ** Further runs of the model *)

(** No relay answers: the analysis fails after the four requests for the
    posts feed, with the reworded connectivity error. *)
Lemma posts_feed_failure_down :
  exists log',
    analyzeBlogAndFetch Example.rtDown Example.blogUrl []
    = (Throw (newError NETWORK_ERROR), log') /\
    length log' = 4.
Proof.
  assert (H : forall postsFeed,
             fst (fetchJsonFeed Example.rtDown (normalizeUrl Example.blogUrl)
                    Posts 25 1 [])
             <> Ok (Some postsFeed)).
  { intros postsFeed F. discriminate F. }
  destruct (@posts_feed_failure_aborts Example.rtDown Example.blogUrl [] H)
    as (e & Hrun & _).
  eexists. split; [reflexivity | reflexivity].
Defined.

(** Only the posts feed arrives: the analysis succeeds all the same, after
    thirteen requests. *)
Lemma secondary_failures_posts_only :
  (exists a, fst (analyzeBlogAndFetch Example.rtPostsOnly Example.blogUrl []) = Ok a) /\
  length (logAfter (analyzeBlogAndFetch Example.rtPostsOnly Example.blogUrl) []) = 13.
Proof.
  destruct (@secondary_failures_do_not_abort Example.rtPostsOnly Example.blogUrl
              [] _ _ eq_refl) as [[Hok|F] _].
  - split; [exact Hok | reflexivity].
  - discriminate F.
Defined.

(** A blog whose only post is ten months old is inactive. *)
Lemma snapshot_status_old :
  exists a log',
    analyzeBlogAndFetch Example.rtOld Example.blogUrl [] = (Ok a, log') /\
    a_status a = Inactive /\
    a_lastBuildDate a = ValidDate (Example.clock - 305 * Example.day).
Proof.
  pose proof (@snapshot_status Example.rtOld Example.blogUrl [] _ _ eq_refl)
    as (pf & l1 & lastMs & F1 & Hl & Hbuild & _ & Hst & _).
  injection F1 as <- _. injection Hl as <-.
  eexists. eexists. split; [reflexivity|]. split; [exact Hst | exact Hbuild].
Defined.

(** The two-post blog: title and labels of the snapshot. *)
Lemma snapshot_title_and_tags_example :
  exists a log',
    analyzeBlogAndFetch Example.rt Example.blogUrl [] = (Ok a, log') /\
    a_title a = js "Example Blog" /\
    a_tags a = [js "go"; js "web"] /\
    NoDup (a_tags a).
Proof.
  pose proof (@snapshot_title_and_tags Example.rt Example.blogUrl [] _ _ eq_refl)
    as (pf & l1 & _ & _ & _ & Hnd & _).
  eexists. eexists. split; [reflexivity|]. split; [reflexivity|].
  split; [reflexivity | exact Hnd].
Defined.


(** Two image tags, one in capitals. *)
Lemma countImages_markup :
  countImages (flat_map renderPiece Example.markup) = 2%Z.
Proof.
  apply (@countImages_pieces Example.markup).
  repeat constructor; try reflexivity.
  - exists 105%N, 109%N, 103%N. repeat split; reflexivity.
  - exists 73%N, 77%N, 71%N. repeat split; reflexivity.
Defined.

(** Three words. *)
Lemma countWords_threeWords :
  joinWords Example.threeWords = js "Hello again, world" /\
  countWords (joinWords Example.threeWords) = 3%Z.
Proof.
  split; [reflexivity|].
  apply (@countWords_joinWords Example.threeWords).
  repeat constructor; try discriminate; reflexivity.
Defined.

(** The stored blog, entered again without its scheme and with a trailing
    slash, is rejected without a request. *)
Lemma duplicate_is_rejected_example :
  exists update,
    handleAddBlog Example.rt Example.duplicateForm [] = (Ok update, []) /\
    blogs (update Example.duplicateForm) = blogs Example.duplicateForm /\
    addError (update Example.duplicateForm)
    = js "Blog already exists in your library.".
Proof.
  assert (Hurl : newBlogUrl Example.duplicateForm <> []) by discriminate.
  assert (Hin : In (normalizeUrl (newBlogUrl Example.duplicateForm))
                  (List.map url (blogs Example.duplicateForm))).
  { right. left. reflexivity. }
  destruct (@duplicate_is_rejected Example.rt Example.duplicateForm [] Hurl Hin)
    as (update & Hrun & Hprev).
  exists update. split; [exact Hrun|]. exact (Hprev Example.duplicateForm).
Defined.

(** A blog the collection does not have is put in front of it. *)
Lemma add_keeps_urls_distinct_example :
  exists update log',
    handleAddBlog Example.rt Example.freshForm [] = (Ok update, log') /\
    List.map url (blogs (update Example.freshForm))
    = [js "https://example.blogspot.com"; js "https://other.blogspot.com"] /\
    NoDup (List.map url (blogs (update Example.freshForm))).
Proof.
  assert (Hnd : NoDup (List.map url (blogs Example.freshForm))).
  { repeat constructor. intros []. }
  pose proof (@add_keeps_urls_distinct Example.rt Example.freshForm [] _ _ Hnd eq_refl)
    as H.
  eexists. eexists. split; [reflexivity|]. split; [reflexivity | exact H].
Defined.

(** The statistics of the stored record: a first post a hundred years old
    and nothing else. *)
Lemma calculateQualityScore_range_stored :
  exists z,
    calculateQualityScore Example.clock (stats Example.stored) = ofZ z /\
    (0 <= z <= 100)%Z.
Proof.
  apply calculateQualityScore_range.
  split; try (exists 0%R; split; [reflexivity | lra]).
  - exists 50%R. split; [reflexivity | lra].
  - exists 0. reflexivity.
  - eexists. split; [reflexivity|]. unfold Example.clock, Example.day. lia.
Defined.

(** The two records of the library have scores 20 and 12. *)
Lemma avgQualityScore_library :
  exists z, avgQualityScore Example.library = ofZ z /\ (12 <= z <= 20)%Z.
Proof.
  assert (Hmap : List.map qualityScore (blogs Example.library)
                 = List.map ofZ [20; 12]%Z) by reflexivity.
  assert (Hb : Forall (fun q => 12 <= q <= 20)%Z [20; 12]%Z).
  { repeat constructor; lia. }
  apply (proj2 (@avgQualityScore_bounds Example.library [20; 12]%Z 12 20 Hmap Hb)).
  discriminate.
Defined.

(** A blog without posts. *)
Lemma empty_sample_example :
  exists a log',
    analyzeBlogAndFetch Example.rtEmpty Example.blogUrl [] = (Ok a, log') /\
    a_posts a = [] /\
    consistencyScore (a_stats a) = Fin 50 /\
    a_status a = Active.
Proof.
  pose proof (@empty_sample_snapshot Example.rtEmpty Example.blogUrl [] _ _ _ _
                eq_refl eq_refl eq_refl)
    as (Hposts & _ & _ & _ & Hc & _).
  eexists. eexists. split; [reflexivity|]. split; [exact Hposts|].
  split; [exact Hc | reflexivity].
Defined.

(** The two-post blog: the content statistics of its snapshot. *)
Lemma snapshot_content_averages_example :
  exists a log',
    analyzeBlogAndFetch Example.rt Example.blogUrl [] = (Ok a, log') /\
    List.map wordCount (a_posts a) = [2; 3]%Z /\
    exists w, avgWordsPerPost (a_stats a) = ofZ w /\ (0 <= w)%Z.
Proof.
  pose proof (@snapshot_content_averages Example.rt Example.blogUrl [] _ _ eq_refl)
    as (_ & Hw & _).
  eexists. eexists. split; [reflexivity|]. split; [reflexivity | exact Hw].
Defined.
